(** * USB-DVG frame driver (Win32/dvg/zvgFrame.c): embedding and properties

    The driver keeps its whole state in file-level statics; here they are
    the fields of one record that every function takes and returns.
    C integers are [Z] with the conversions written out: [to_int] is the
    32-bit two's complement reading used for [int]/[int32_t] arithmetic
    (signed overflow wraps, as the compiled driver does), [to_u32],
    [to_u16], [to_u8] are the unsigned truncations.  A store outside
    [s_cmd_buf], a division by zero and the division INT_MIN / -1, whose
    quotient does not fit an int and which traps like a division by
    zero, are faults of the result monad.
    The loop of line_clip runs on fuel, since it need not end when its
    arithmetic wraps; the loop of serial_send carries its own bound.
    The operating system's write call is an oracle of the channel, which
    logs every buffer handed to it. *)

From Stdlib Require Import ZArith List Lia Bool.
From stdpp Require Import base option list gmap.

Local Open Scope Z_scope.

(** ** Machine integers *)

Definition INT_MIN : Z := -2147483648.
Definition INT_MAX : Z := 2147483647.

Definition to_u32 (z : Z) : Z := z mod 4294967296.
Definition to_u16 (z : Z) : Z := z mod 65536.
Definition to_u8  (z : Z) : Z := z mod 256.
Definition to_int (z : Z) : Z := (z + 2147483648) mod 4294967296 - 2147483648.

(** ** Results: a value, a fault, or a loop cut off by the fuel *)

Inductive fault : Type :=
  | OutOfBounds (index : Z)   (* store outside s_cmd_buf[0 .. CMD_BUF_SIZE) *)
  | DivByZero
  | DivOverflow.              (* INT_MIN / -1 *)

Inductive res (A : Type) : Type :=
  | Ok (a : A)
  | Fault (f : fault)
  | OutOfFuel.
Arguments Ok {A} a.
Arguments Fault {A} f.
Arguments OutOfFuel {A}.

Definition res_bind {A B : Type} (f : A -> res B) (m : res A) : res B :=
  match m with
  | Ok a => f a
  | Fault e => Fault e
  | OutOfFuel => OutOfFuel
  end.

#[global] Instance res_ret : MRet res := fun A a => Ok a.
#[global] Instance res_mbind : MBind res := fun A B f m => res_bind f m.

(** [a / b] on [int], both operands already ints: truncation toward
    zero; a zero divisor faults, and so does INT_MIN / -1, the one
    quotient that is not an int. *)
Definition int_div (a b : Z) : res Z :=
  if b =? 0 then Fault DivByZero
  else if (a =? INT_MIN) && (b =? -1) then Fault DivOverflow
  else Ok (to_int (Z.quot a b)).

(** ** Constants of the source *)

Definition CMD_BUF_SIZE : Z := 131072.       (* 0x20000 *)
Definition FLAG_COMPLETE : Z := 0.
Definition FLAG_RGB : Z := 1.
Definition FLAG_XY : Z := 2.
Definition FLAG_EXIT : Z := 7.
Definition FLAG_FRAME : Z := 4.
Definition FLAG_QUALITY : Z := 3.

Definition DVG_RES_MIN : Z := 0.
Definition DVG_RES_MAX : Z := 4095.
Definition DVG_RENDER_QUALITY : Z := 5.

Definition TOP : Z := 8.
Definition BOTTOM : Z := 4.
Definition RIGHT : Z := 2.
Definition LEFT : Z := 1.

Definition errOk : Z := 0.
Definition errOpenCom : Z := 1.
Definition errComState : Z := 2.
Definition errSetComTimeout : Z := 3.
Definition errOpenDevice : Z := 4.

(** zvgFrame.h, which defines the macros X_MIN, X_MAX, Y_MIN and Y_MAX
    used by CONVX and CONVY, is not among the sources (the spec calls them
    the logical coordinate space bounds, supplied by the embedding
    application).  They are a parameter of every function that expands
    CONVX or CONVY. *)
Record logical_bounds : Type := mkBounds {
  X_MIN : Z;
  X_MAX : Z;
  Y_MIN : Z;
  Y_MAX : Z
}.

(** MIN(x, y) and MAX(x, y): both arguments are cast to int first. *)
Definition MIN (x y : Z) : Z :=
  if to_int x <? to_int y then to_int x else to_int y.
Definition MAX (x y : Z) : Z :=
  if to_int x >? to_int y then to_int x else to_int y.

(** CONVX(x) = (((x) - X_MIN) * DVG_RES_MAX) / (X_MAX - X_MIN), in int. *)
Definition CONVX (b : logical_bounds) (x : Z) : res Z :=
  int_div (to_int (to_int (x - X_MIN b) * DVG_RES_MAX))
          (to_int (X_MAX b - X_MIN b)).
Definition CONVY (b : logical_bounds) (y : Z) : res Z :=
  int_div (to_int (to_int (y - Y_MIN b) * DVG_RES_MAX))
          (to_int (Y_MAX b - Y_MIN b)).

(** ** The statics *)

(** [s_cmd_buf] maps an index to the byte stored there; a static array
    starts zeroed, so an index never written reads as 0 (see [buf_get]).
    [s_serial_fd] is kept as whether it differs from INVALID_HANDLE_VALUE. *)
Record state : Type := mkState {
  s_cmd_offs : Z;
  s_cmd_buf : gmap Z Z;
  s_last_r : Z;
  s_last_g : Z;
  s_last_b : Z;
  s_vector_length : Z;
  s_last_x : Z;
  s_last_y : Z;
  s_serial_fd : bool;
  s_xmin : Z;
  s_xmax : Z;
  s_ymin : Z;
  s_ymax : Z
}.

Definition init_state : state :=
  mkState 0 ∅ 0 0 0 0 0 0 false 0 0 0 0.

Definition set_offs (o : Z) (st : state) : state :=
  mkState o (s_cmd_buf st) (s_last_r st) (s_last_g st) (s_last_b st)
    (s_vector_length st) (s_last_x st) (s_last_y st) (s_serial_fd st)
    (s_xmin st) (s_xmax st) (s_ymin st) (s_ymax st).

Definition set_buf (m : gmap Z Z) (st : state) : state :=
  mkState (s_cmd_offs st) m (s_last_r st) (s_last_g st) (s_last_b st)
    (s_vector_length st) (s_last_x st) (s_last_y st) (s_serial_fd st)
    (s_xmin st) (s_xmax st) (s_ymin st) (s_ymax st).

Definition set_last_rgb (r g b : Z) (st : state) : state :=
  mkState (s_cmd_offs st) (s_cmd_buf st) r g b
    (s_vector_length st) (s_last_x st) (s_last_y st) (s_serial_fd st)
    (s_xmin st) (s_xmax st) (s_ymin st) (s_ymax st).

Definition set_vector_length (l : Z) (st : state) : state :=
  mkState (s_cmd_offs st) (s_cmd_buf st) (s_last_r st) (s_last_g st)
    (s_last_b st) l (s_last_x st) (s_last_y st) (s_serial_fd st)
    (s_xmin st) (s_xmax st) (s_ymin st) (s_ymax st).

Definition set_last_xy (x y : Z) (st : state) : state :=
  mkState (s_cmd_offs st) (s_cmd_buf st) (s_last_r st) (s_last_g st)
    (s_last_b st) (s_vector_length st) x y (s_serial_fd st)
    (s_xmin st) (s_xmax st) (s_ymin st) (s_ymax st).

Definition set_serial_fd (fd : bool) (st : state) : state :=
  mkState (s_cmd_offs st) (s_cmd_buf st) (s_last_r st) (s_last_g st)
    (s_last_b st) (s_vector_length st) (s_last_x st) (s_last_y st) fd
    (s_xmin st) (s_xmax st) (s_ymin st) (s_ymax st).

(** ** The serial channel

    The operating system is outside the driver.  A channel records every
    buffer handed to write()/WriteFile, in order, and carries an oracle
    giving the raw outcome of the n-th call: the byte count reported, or
    a negative value for a failed call. *)
Record channel : Type := mkChannel {
  ch_log : list (list Z);
  ch_oracle : nat -> list Z -> Z
}.

(** ** Buffer access *)

(** s_cmd_buf[i] = v, for a fixed index. *)
Definition buf_set (i v : Z) (st : state) : res state :=
  if (0 <=? i) && (i <? CMD_BUF_SIZE)
  then Ok (set_buf (<[i := to_u8 v]> (s_cmd_buf st)) st)
  else Fault (OutOfBounds i).

(** s_cmd_buf[s_cmd_offs++] = v. *)
Definition buf_push (v : Z) (st : state) : res state :=
  st' ← buf_set (s_cmd_offs st) v st;
  Ok (set_offs (to_int (s_cmd_offs st + 1)) st').

(** The four pushes that every command ends in: cmd >> 24, 16, 8, 0. *)
Definition push_cmd (cmd : Z) (st : state) : res state :=
  st ← buf_push (Z.shiftr cmd 24) st;
  st ← buf_push (Z.shiftr cmd 16) st;
  st ← buf_push (Z.shiftr cmd 8) st;
  buf_push (Z.shiftr cmd 0) st.

(** s_cmd_buf[i] as a value: 0 where nothing was stored yet. *)
Definition buf_get (m : gmap Z Z) (i : Z) : Z := default 0 (m !! i).

(** The bytes s_cmd_buf[offset .. offset + len), as write() reads them. *)
Definition buf_read (m : gmap Z Z) (offset len : Z) : list Z :=
  buf_get m <$> seqZ offset len.

(** ** vector_length and cmd_reset *)

(** len = (uint32_t)sqrt((dx * dx) + (dy * dy)).  The argument of sqrt is
    an int; for a non-negative int the double square root truncates to
    the integer square root [Z.sqrt] (the argument is below 2^31, far
    inside the range where double is exact enough).  A sum that wrapped
    to a negative int has no real square root; [Z.sqrt] is 0 there. *)
Definition vector_length (x0 y0 x1 y1 : Z) : Z :=
  let dx := to_int (x1 - x0) in
  let dy := to_int (y1 - y0) in
  let len := to_int (to_u32 (Z.sqrt (to_int (to_int (dx * dx) + to_int (dy * dy))))) in
  len.

Definition cmd_reset (st : state) : state :=
  let st := set_offs 4 st in
  let st := set_vector_length 0 st in
  let st := set_last_xy INT_MIN INT_MIN st in
  set_last_rgb 0 0 0 st.

(** ** Serial port *)

(** What the platform calls of serial_open did: on Win32 CreateFile,
    GetCommState, SetCommState and SetCommTimeouts can each fail; on Linux
    only open() is checked. *)
Inductive open_outcome : Type :=
  | OpenOk
  | OpenComFailed          (* CreateFile / open failed *)
  | ComStateFailed         (* GetCommState failed *)
  | SetComStateFailed      (* SetCommState failed *)
  | SetTimeoutsFailed.     (* SetCommTimeouts failed *)

Definition serial_open (o : open_outcome) (st : state) : state * Z :=
  let result := errOpenDevice in
  let fd := match o with OpenComFailed => false | _ => true end in
  let result := match o with OpenOk => 0 | _ => result end in
  (* END: *)
  (cmd_reset (set_serial_fd fd st), result).

(** serial_write returns [result > 0], where result is the count reported
    by the system call, or -1. *)
Definition serial_write (bytes : list Z) (ch : channel) : channel * Z :=
  let result := to_int (ch_oracle ch (length (ch_log ch)) bytes) in
  (mkChannel (ch_log ch ++ [bytes]) (ch_oracle ch),
   if result >? 0 then 1 else 0).

Definition serial_close (ch : channel) (st : state) : res (state * channel * Z) :=
  let result := -1 in
  if s_serial_fd st then
    let cmd := to_u32 (Z.shiftl FLAG_EXIT 29) in
    let st := set_offs 0 st in
    st ← push_cmd cmd st;
    let '(ch, _) := serial_write (buf_read (s_cmd_buf st) 0 (to_u32 (s_cmd_offs st))) ch in
    Ok (set_serial_fd false st, ch, 0)
  else
    Ok (set_serial_fd false st, ch, result).

(** The loop [while (size) { chunk = MIN(size, 1024); result =
    serial_write(&s_cmd_buf[offset], chunk); size -= chunk; offset +=
    chunk; }] of serial_send; size, chunk and offset are uint32_t. *)
Fixpoint serial_send_loop (fuel : nat) (m : gmap Z Z)
    (result size offset : Z) (ch : channel) : res (Z * channel) :=
  if size =? 0 then Ok (result, ch)
  else match fuel with
       | O => OutOfFuel
       | S fuel' =>
           let chunk := to_u32 (MIN size 1024) in
           let '(ch', result') := serial_write (buf_read m offset chunk) ch in
           serial_send_loop fuel' m result'
             (to_u32 (size - chunk)) (to_u32 (offset + chunk)) ch'
       end.

(** The part of serial_send before the loop: the FRAME word in the
    reserved first four bytes, then the QUALITY and COMPLETE words pushed
    at s_cmd_offs with no capacity test. *)
Definition serial_send_finalize (st : state) : res state :=
  let cmd := to_u32 (Z.lor (to_int (Z.shiftl FLAG_FRAME 29)) (s_vector_length st)) in
  st ← buf_set 0 (Z.shiftr cmd 24) st;
  st ← buf_set 1 (Z.shiftr cmd 16) st;
  st ← buf_set 2 (Z.shiftr cmd 8) st;
  st ← buf_set 3 (Z.shiftr cmd 0) st;
  let cmd := to_u32 (Z.lor (Z.shiftl FLAG_QUALITY 29) DVG_RENDER_QUALITY) in
  st ← push_cmd cmd st;
  let cmd := to_u32 (Z.shiftl FLAG_COMPLETE 29) in
  push_cmd cmd st.

(** Every pass of the loop takes at least one byte off [size], so
    [size] passes are always enough fuel. *)
Definition serial_send (ch : channel) (st : state) : res (state * channel * Z) :=
  let result := -1 in
  st ← serial_send_finalize st;
  let size := to_u32 (s_cmd_offs st) in
  let offset := 0 in
  '(result, ch) ← serial_send_loop (Z.to_nat size) (s_cmd_buf st) result size offset ch;
  Ok (cmd_reset st, ch, result).

(** ** Cohen-Sutherland clipping *)

Definition compute_code (st : state) (x y : Z) : Z :=
  let code := 0 in
  let code := if x <? s_xmin st then Z.lor code LEFT
              else if x >? s_xmax st then Z.lor code RIGHT
              else code in
  let code := if y <? s_ymin st then Z.lor code BOTTOM
              else if y >? s_ymax st then Z.lor code TOP
              else code in
  code.

(** The locals of line_clip that live across iterations. *)
Record clip_vars : Type := mkClip {
  cv_x : Z;
  cv_y : Z;
  cv_x1 : Z;
  cv_y1 : Z;
  cv_x2 : Z;
  cv_y2 : Z;
  cv_code1 : Z;
  cv_code2 : Z
}.

(** The if / else-if chain that finds the intersection point (x, y) for
    code_out; with none of the four bits set, x and y keep their values. *)
Definition clip_intersect (st : state) (v : clip_vars) (code_out : Z) : res (Z * Z) :=
  let x1 := cv_x1 v in let y1 := cv_y1 v in
  let x2 := cv_x2 v in let y2 := cv_y2 v in
  if negb (Z.land code_out TOP =? 0) then
    q ← int_div (to_int (to_int (x2 - x1) * to_int (s_ymax st - y1))) (to_int (y2 - y1));
    Ok (to_int (x1 + q), s_ymax st)
  else if negb (Z.land code_out BOTTOM =? 0) then
    q ← int_div (to_int (to_int (x2 - x1) * to_int (s_ymin st - y1))) (to_int (y2 - y1));
    Ok (to_int (x1 + q), s_ymin st)
  else if negb (Z.land code_out RIGHT =? 0) then
    q ← int_div (to_int (to_int (y2 - y1) * to_int (s_xmax st - x1))) (to_int (x2 - x1));
    Ok (s_xmax st, to_int (y1 + q))
  else if negb (Z.land code_out LEFT =? 0) then
    q ← int_div (to_int (to_int (y2 - y1) * to_int (s_xmin st - x1))) (to_int (x2 - x1));
    Ok (s_xmin st, to_int (y1 + q))
  else Ok (cv_x v, cv_y v).

Inductive clip_next : Type :=
  | ClipBreak (accept : Z)
  | ClipContinue (v : clip_vars).

(** One pass through the body of [while (1)]. *)
Definition line_clip_iter (st : state) (v : clip_vars) : res clip_next :=
  let code1 := cv_code1 v in
  let code2 := cv_code2 v in
  if (code1 =? 0) && (code2 =? 0) then Ok (ClipBreak 1)
  else if negb (Z.land code1 code2 =? 0) then Ok (ClipBreak 0)
  else
    let code_out := if negb (code1 =? 0) then code1 else code2 in
    '(x, y) ← clip_intersect st v code_out;
    if code_out =? code1
    then Ok (ClipContinue
               (mkClip x y x y (cv_x2 v) (cv_y2 v) (compute_code st x y) code2))
    else Ok (ClipContinue
               (mkClip x y (cv_x1 v) (cv_y1 v) x y code1 (compute_code st x y))).

Fixpoint line_clip_loop (fuel : nat) (st : state) (v : clip_vars)
    : res (Z * clip_vars) :=
  match fuel with
  | O => OutOfFuel
  | S fuel' =>
      n ← line_clip_iter st v;
      match n with
      | ClipBreak accept => Ok (accept, v)
      | ClipContinue v' => line_clip_loop fuel' st v'
      end
  end.

(** line_clip returns accept and the values left in *pX1, *pY1, *pX2, *pY2. *)
Definition line_clip (fuel : nat) (st : state) (x1 y1 x2 y2 : Z)
    : res (Z * (Z * Z * Z * Z)) :=
  let v := mkClip 0 0 x1 y1 x2 y2 (compute_code st x1 y1) (compute_code st x2 y2) in
  '(accept, v) ← line_clip_loop fuel st v;
  Ok (accept, (cv_x1 v, cv_y1 v, cv_x2 v, cv_y2 v)).

(** ** The public entry points *)

Definition zvgFrameOpen (o : open_outcome) (st : state) : state * Z :=
  serial_open o st.

Definition zvgFrameClose (ch : channel) (st : state) : res (state * channel) :=
  '(st, ch, _) ← serial_close ch st;
  Ok (st, ch).

Definition zvgFrameSetClipWin (xMin yMin xMax yMax : Z) (st : state) : state :=
  mkState (s_cmd_offs st) (s_cmd_buf st) (s_last_r st) (s_last_g st)
    (s_last_b st) (s_vector_length st) (s_last_x st) (s_last_y st)
    (s_serial_fd st) xMin xMax yMin yMax.

(** The capacity test that guards each command of a frame. *)
Definition push_cmd_guarded (cmd : Z) (st : state) : res state :=
  if s_cmd_offs st <=? CMD_BUF_SIZE - 8 then push_cmd cmd st else Ok st.

(** red, green and blue arrive as uint8_t; r, g, b are uint16_t. *)
Definition zvgFrameSetRGB15 (red green blue : Z) (st : state) : res state :=
  let red := to_u8 red in
  let green := to_u8 green in
  let blue := to_u8 blue in
  let r := to_u16 (Z.shiftl red 3) in
  let r := if r >? 255 then 255 else r in
  let g := to_u16 (Z.shiftl green 3) in
  let g := if g >? 255 then 255 else g in
  let b := to_u16 (Z.shiftl blue 3) in
  let b := if b >? 255 then 255 else b in
  let st := set_last_rgb (to_u8 r) (to_u8 g) (to_u8 b) st in
  let cmd := to_u32 (Z.lor (Z.lor (Z.lor (Z.shiftl FLAG_RGB 29)
                                         (Z.shiftl (Z.land r 255) 16))
                                  (Z.shiftl (Z.land g 255) 8))
                           (Z.land b 255)) in
  push_cmd_guarded cmd st.

(** cmd = (FLAG_XY << 29) | ((blank & 0x1) << 28) | ((x & 0x3fff) << 14) | (y & 0x3fff) *)
Definition xy_cmd (blank x y : Z) : Z :=
  to_u32 (Z.lor (Z.lor (Z.lor (Z.shiftl FLAG_XY 29)
                              (Z.shiftl (Z.land blank 1) 28))
                       (Z.shiftl (Z.land x 16383) 14))
                (Z.land y 16383)).

Definition zvgFrameVector (bd : logical_bounds) (fuel : nat)
    (xStart yStart xEnd yEnd : Z) (st : state) : res (state * Z) :=
  '(accept, (xStart, yStart, xEnd, yEnd)) ← line_clip fuel st xStart yStart xEnd yEnd;
  if negb (accept =? 0) then
    xs ← CONVX bd xStart;
    ys ← CONVY bd yStart;
    xe ← CONVX bd xEnd;
    ye ← CONVY bd yEnd;
    let xs := if xs >? DVG_RES_MAX then DVG_RES_MAX else xs in
    let xs := if xs <? 0 then 0 else xs in
    let ys := if ys >? DVG_RES_MAX then DVG_RES_MAX else ys in
    let ys := if ys <? 0 then 0 else ys in
    let st := set_vector_length
                (to_int (s_vector_length st
                         + vector_length (s_last_x st) (s_last_y st) xs ys)) st in
    let st := set_vector_length
                (to_int (s_vector_length st + vector_length xs ys xe ye)) st in
    st ← (if negb (xStart =? s_last_x st) || negb (yStart =? s_last_y st)
          then push_cmd_guarded (xy_cmd 1 xs ys) st
          else Ok st);
    let blank := if (s_last_r st =? 0) && (s_last_g st =? 0) && (s_last_b st =? 0)
                 then 1 else 0 in
    st ← push_cmd_guarded (xy_cmd blank xe ye) st;
    Ok (set_last_xy xe ye st, 0)
  else Ok (st, 0).

Definition zvgFrameSend (ch : channel) (st : state) : res (state * channel * Z) :=
  '(st, ch, _) ← serial_send ch st;
  Ok (st, ch, 0).

(** ** Sequences of calls *)

Inductive op : Type :=
  | OpOpen (o : open_outcome)
  | OpSetClipWin (xMin yMin xMax yMax : Z)
  | OpSetRGB15 (red green blue : Z)
  | OpVector (xStart yStart xEnd yEnd : Z)
  | OpSend
  | OpClose.

Definition exec (bd : logical_bounds) (fuel : nat) (o : op)
    (m : state * channel) : res (state * channel) :=
  let '(st, ch) := m in
  match o with
  | OpOpen oo => Ok (fst (zvgFrameOpen oo st), ch)
  | OpSetClipWin a b c d => Ok (zvgFrameSetClipWin a b c d st, ch)
  | OpSetRGB15 r g b => st ← zvgFrameSetRGB15 r g b st; Ok (st, ch)
  | OpVector a b c d => '(st, _) ← zvgFrameVector bd fuel a b c d st; Ok (st, ch)
  | OpSend => '(st, ch, _) ← zvgFrameSend ch st; Ok (st, ch)
  | OpClose => zvgFrameClose ch st
  end.

Fixpoint run (bd : logical_bounds) (fuel : nat) (ops : list op)
    (m : state * channel) : res (state * channel) :=
  match ops with
  | [] => Ok m
  | o :: ops' => m' ← exec bd fuel o m; run bd fuel ops' m'
  end.

(** A channel on which every write fails, and one on which every write
    is complete. *)
Definition dead_channel : channel := mkChannel [] (fun _ _ => -1).
Definition good_channel : channel := mkChannel [] (fun _ bytes => Z.of_nat (length bytes)).

(** The word stored big-endian at s_cmd_buf[i .. i+4). *)
Definition word_at (m : gmap Z Z) (i : Z) : Z :=
  Z.lor (Z.lor (Z.lor (Z.shiftl (buf_get m i) 24) (Z.shiftl (buf_get m (i + 1)) 16))
               (Z.shiftl (buf_get m (i + 2)) 8))
        (buf_get m (i + 3)).

(** Tag and payload of a 32-bit command word. *)
Definition cmd_tag (w : Z) : Z := Z.shiftr w 29.
Definition cmd_payload (w : Z) : Z := Z.land w 536870911.

(** The bytes of a write log, concatenated, and the words they hold. *)
Fixpoint words_of (bytes : list Z) : list Z :=
  match bytes with
  | b3 :: b2 :: b1 :: b0 :: rest =>
      Z.lor (Z.lor (Z.lor (Z.shiftl b3 24) (Z.shiftl b2 16)) (Z.shiftl b1 8)) b0
      :: words_of rest
  | _ => []
  end.

(** ** Auxiliary definitions for the statements *)

(** The buffer after the four bytes of [cmd] were stored from index [o]. *)
Definition cmd_bytes (cmd : Z) (o : Z) (m : gmap Z Z) : gmap Z Z :=
  <[o + 3 := to_u8 (Z.shiftr cmd 0)]>
    (<[o + 2 := to_u8 (Z.shiftr cmd 8)]>
       (<[o + 1 := to_u8 (Z.shiftr cmd 16)]>
          (<[o := to_u8 (Z.shiftr cmd 24)]> m))).

(** The three fixed words of a frame. *)
Definition frame_cmd (len : Z) : Z :=
  to_u32 (Z.lor (to_int (Z.shiftl FLAG_FRAME 29)) len).
Definition quality_cmd : Z :=
  to_u32 (Z.lor (Z.shiftl FLAG_QUALITY 29) DVG_RENDER_QUALITY).
Definition complete_cmd : Z := to_u32 (Z.shiftl FLAG_COMPLETE 29).

(** The state serial_send_finalize leaves when both trailing words fit. *)
Definition finalized (st : state) : state :=
  let o := s_cmd_offs st in
  set_offs (o + 8)
    (set_buf (cmd_bytes complete_cmd (o + 4)
                (cmd_bytes quality_cmd o
                   (cmd_bytes (frame_cmd (s_vector_length st)) 0 (s_cmd_buf st))))
       st).

(** The split of [size] bytes from [offset] into writes of at most 1024
    bytes, following the spec's words: chunk [k] starts 1024 * k bytes in
    and holds 1024 bytes, or what is left if that is less. *)
Definition chunk_count (size : Z) : Z := (size + 1023) / 1024.
Definition chunk_at (m : gmap Z Z) (offset size k : Z) : list Z :=
  buf_read m (offset + 1024 * k) (Z.min 1024 (size - 1024 * k)).
Definition spec_chunks (m : gmap Z Z) (offset size : Z) : list (list Z) :=
  chunk_at m offset size <$> seqZ 0 (chunk_count size).

(** Fields of an XY word. *)
Definition xy_blank (w : Z) : Z := Z.land (Z.shiftr w 28) 1.
Definition xy_x (w : Z) : Z := Z.land (Z.shiftr w 14) 16383.
Definition xy_y (w : Z) : Z := Z.land w 16383.

(** The RGB word for stored channel values. *)
Definition rgb_cmd (r g b : Z) : Z :=
  to_u32 (Z.lor (Z.lor (Z.lor (Z.shiftl FLAG_RGB 29) (Z.shiftl (Z.land r 255) 16))
                       (Z.shiftl (Z.land g 255) 8))
                (Z.land b 255)).

(** The spec's end-to-end scenario: logical bounds 0..1000 on both axes. *)
Definition scenario_bounds : logical_bounds := mkBounds 0 1000 0 1000.
Definition scenario_ops : list op :=
  [OpOpen OpenOk; OpSetClipWin 0 0 1000 1000; OpSetRGB15 31 0 0;
   OpVector 0 0 500 500; OpSend].

(** Two vectors drawn end to start inside the scenario's window. *)
Definition chained_vectors_prefix : list op :=
  [OpOpen OpenOk; OpSetClipWin 0 0 1000 1000; OpSetRGB15 31 0 0;
   OpVector 0 0 500 500].

(** One vector inside a clip window twice as wide as the logical bounds. *)
Definition wide_window_prefix : list op :=
  [OpOpen OpenOk; OpSetClipWin 0 0 2000 2000; OpSetRGB15 31 0 0].

(** The four bytes of a command, most significant first. *)
Definition cmd_byte_list (cmd : Z) : list Z :=
  [to_u8 (Z.shiftr cmd 24); to_u8 (Z.shiftr cmd 16);
   to_u8 (Z.shiftr cmd 8); to_u8 (Z.shiftr cmd 0)].

(** The calls that build a frame. *)
Definition build_op (o : op) : Prop :=
  match o with
  | OpSetRGB15 _ _ _ | OpVector _ _ _ _ => True
  | _ => False
  end.

(** A builder holding 2492 bytes, which finalizes to 2500. *)
Definition state_2492 : state := set_offs 2492 (cmd_reset init_state).

(** The clamp applied to the quantized start point. *)
Definition clamp_dev (v : Z) : Z :=
  let v := if v >? DVG_RES_MAX then DVG_RES_MAX else v in
  if v <? 0 then 0 else v.

(** A frame whose path length outgrows the 29-bit field: with logical
    bounds 0..1000 and the clip window (0,0,11000,11000), the vector
    (0,0)-(11000,0) drawn 5960 times. *)
Definition long_path_ops : list op :=
  OpOpen OpenOk :: OpSetClipWin 0 0 11000 11000
  :: repeat (OpVector 0 0 11000 0) (Z.to_nat 5960).

(** The builder after the scenario's colour and vector calls. *)
Definition scenario_built : state :=
  match run scenario_bounds 5 [OpSetRGB15 31 0 0; OpVector 0 0 500 500]
            (cmd_reset (zvgFrameSetClipWin 0 0 1000 1000 init_state), good_channel) with
  | Ok (st, _) => st
  | _ => init_state
  end.

(** The builder after [n] >= 1 of the long vectors: the last emitted
    point is the unclamped end (45045, 0), each call but the first added
    the jump back to (0,0) and the stroke, 45045 each, and two words. *)
Definition long_path_inv (n : Z) (st : state) : Prop :=
  (s_xmin st, s_xmax st, s_ymin st, s_ymax st) = (0, 11000, 0, 11000) /\
  (s_last_x st, s_last_y st) = (45045, 0) /\
  s_vector_length st = 90090 * n - 45045 /\
  s_cmd_offs st = 4 + 8 * n.

(** ** Clipping: what the statements need *)

(** The loop variables at entry to line_clip's loop are consistent: each
    code is the region code of its point. *)
Definition codes_consistent (st : state) (v : clip_vars) : Prop :=
  cv_code1 v = compute_code st (cv_x1 v) (cv_y1 v) /\
  cv_code2 v = compute_code st (cv_x2 v) (cv_y2 v).

(** Values of type int / int32_t. *)
Definition is_int (z : Z) : Prop := INT_MIN <= z <= INT_MAX.

Definition window_ints (st : state) : Prop :=
  is_int (s_xmin st) /\ is_int (s_xmax st) /\ is_int (s_ymin st) /\ is_int (s_ymax st).

Definition points_ints (v : clip_vars) : Prop :=
  is_int (cv_x1 v) /\ is_int (cv_y1 v) /\ is_int (cv_x2 v) /\ is_int (cv_y2 v).

(** The largest magnitude for which the product of two coordinate
    differences still fits an int: (2 * 23170)^2 < 2^31. *)
Definition CLIP_SAFE : Z := 23170.
Definition clip_safe (z : Z) : Prop := - CLIP_SAFE <= z <= CLIP_SAFE.

Definition window_safe (st : state) : Prop :=
  clip_safe (s_xmin st) /\ clip_safe (s_xmax st) /\
  clip_safe (s_ymin st) /\ clip_safe (s_ymax st).

Definition points_safe (v : clip_vars) : Prop :=
  clip_safe (cv_x1 v) /\ clip_safe (cv_y1 v) /\
  clip_safe (cv_x2 v) /\ clip_safe (cv_y2 v).

(** The region tests, as comparisons. *)
Definition is_left (st : state) (x : Z) : bool := x <? s_xmin st.
Definition is_right (st : state) (x : Z) : bool := (s_xmin st <=? x) && (s_xmax st <? x).
Definition is_bottom (st : state) (y : Z) : bool := y <? s_ymin st.
Definition is_top (st : state) (y : Z) : bool := (s_ymin st <=? y) && (s_ymax st <? y).

(** How many of the two axes a point is outside on. *)
Definition out_count (st : state) (x y : Z) : nat :=
  ((if is_left st x || is_right st x then 1 else 0)
   + (if is_bottom st y || is_top st y then 1 else 0))%nat.

(** The loop stops at its next test: both codes zero, or a shared bit. *)
Definition clip_done (v : clip_vars) : bool :=
  ((cv_code1 v =? 0) && (cv_code2 v =? 0))
  || negb (Z.land (cv_code1 v) (cv_code2 v) =? 0).

(** Replacements still possible: none once the loop is about to stop. *)
Definition clip_measure (st : state) (v : clip_vars) : nat :=
  if clip_done v then 0%nat
  else (out_count st (cv_x1 v) (cv_y1 v) + out_count st (cv_x2 v) (cv_y2 v))%nat.

(** The intersection formulas in the words of the spec, over the
    integers, with truncating division: the first boundary among TOP,
    BOTTOM, RIGHT, LEFT that the outcode names, and
    x = x1 + (x2 - x1) * (boundaryY - y1) / (y2 - y1) for a horizontal
    boundary, symmetrically for a vertical one. *)
Definition spec_first_boundary (code : Z) : option Z :=
  find (fun b => negb (Z.land code b =? 0)) [TOP; BOTTOM; RIGHT; LEFT].

Definition spec_intersection (st : state) (x1 y1 x2 y2 : Z) (boundary : Z) : Z * Z :=
  if boundary =? TOP then
    (x1 + ((x2 - x1) * (s_ymax st - y1)) ÷ (y2 - y1), s_ymax st)
  else if boundary =? BOTTOM then
    (x1 + ((x2 - x1) * (s_ymin st - y1)) ÷ (y2 - y1), s_ymin st)
  else if boundary =? RIGHT then
    (s_xmax st, y1 + ((y2 - y1) * (s_xmax st - x1)) ÷ (x2 - x1))
  else
    (s_xmin st, y1 + ((y2 - y1) * (s_xmin st - x1)) ÷ (x2 - x1)).

(** A point on the boundary [b]: the coordinate that boundary fixes. *)
Definition on_boundary (st : state) (b : Z) (p : Z * Z) : Prop :=
  if b =? TOP then snd p = s_ymax st
  else if b =? BOTTOM then snd p = s_ymin st
  else if b =? RIGHT then fst p = s_xmax st
  else fst p = s_xmin st.

(** Replace point 1 if its outcode is non-zero, point 2 otherwise. *)
Definition spec_replace (st : state) (v : clip_vars) (p : Z * Z) : clip_vars :=
  if negb (cv_code1 v =? 0)
  then mkClip (fst p) (snd p) (fst p) (snd p) (cv_x2 v) (cv_y2 v)
              (compute_code st (fst p) (snd p)) (cv_code2 v)
  else mkClip (fst p) (snd p) (cv_x1 v) (cv_y1 v) (fst p) (snd p)
              (cv_code1 v) (compute_code st (fst p) (snd p)).

(** A window 2^31 wide and a segment across it, all within int. *)
Definition wrap_window : state :=
  zvgFrameSetClipWin (-1073741824) 0 1073741824 1 init_state.

(** a1 + (a2 - a1) * (bnd - b1) / (b2 - b1), over the integers. *)
Definition interp (a1 a2 b1 b2 bnd : Z) : Z :=
  a1 + ((a2 - a1) * (bnd - b1)) ÷ (b2 - b1).

(** The scenario's clip window, and a segment that enters it from the
    left and leaves above the top right corner. *)
Definition scenario_window : state := zvgFrameSetClipWin 0 0 1000 1000 init_state.
Definition crossing_vars : clip_vars :=
  mkClip 0 0 (-100) 500 2000 1500
    (compute_code scenario_window (-100) 500) (compute_code scenario_window 2000 1500).

(** ** Further notions *)

(** A point inside the clip window, boundaries included. *)
Definition inside (st : state) (x y : Z) : Prop :=
  s_xmin st <= x <= s_xmax st /\ s_ymin st <= y <= s_ymax st.

(** The clip window as one value. *)
Definition window (st : state) : Z * Z * Z * Z :=
  (s_xmin st, s_xmax st, s_ymin st, s_ymax st).

(** Coordinates that fit the 14-bit fields of an XY word, either sign. *)
Definition field14 (z : Z) : Prop := -16383 <= z <= 16383.

(** What serial_write returns for the [n]-th write of a channel. *)
Definition write_ok (oracle : nat -> list Z -> Z) (n : nat) (bytes : list Z) : Z :=
  if to_int (oracle n bytes) >? 0 then 1 else 0.

(** The result variable of serial_send after the writes [ws], the first
    of them being write number [n]. *)
Fixpoint last_write_result (oracle : nat -> list Z -> Z) (n : nat) (result : Z)
    (ws : list (list Z)) : Z :=
  match ws with
  | [] => result
  | w :: ws' => last_write_result oracle (S n) (write_ok oracle n w) ws'
  end.

(** The EXIT word. *)
Definition exit_cmd : Z := to_u32 (Z.shiftl FLAG_EXIT 29).

(** Fields of an RGB word. *)
Definition rgb_r (w : Z) : Z := Z.land (Z.shiftr w 16) 255.
Definition rgb_g (w : Z) : Z := Z.land (Z.shiftr w 8) 255.
Definition rgb_b (w : Z) : Z := Z.land w 255.

(** Kinds of calls. *)
Definition is_vector (o : op) : Prop :=
  match o with OpVector _ _ _ _ => True | _ => False end.
Definition keeps_window (o : op) : Prop :=
  match o with OpSetClipWin _ _ _ _ => False | _ => True end.

(** The two faults of a division. *)
Definition div_fault (f : fault) : Prop := f = DivByZero \/ f = DivOverflow.

(** A result that is a value or a failed division. *)
Definition value_or_div {A : Type} (r : res A) : Prop :=
  match r with
  | Ok _ => True
  | Fault f => div_fault f
  | OutOfFuel => False
  end.

(** The write offset between the start and the last word of the buffer. *)
Definition offs_in_buffer (st : state) : Prop :=
  0 <= s_cmd_offs st <= CMD_BUF_SIZE - 4.

(** A segment across the scenario's window, all coordinates within
    +-46000, for which (x2 - x1) * (ymin - y1) = 60000 * 46000 does not
    fit an int. *)
Definition wrapping_vars : clip_vars :=
  mkClip 0 0 (-30000) (-46000) 30000 1000
    (compute_code scenario_window (-30000) (-46000))
    (compute_code scenario_window 30000 1000).

(** A window 2^31 wide with ymax = 0, for the segment from (2^30, 1) to
    (-2^30, 0): the intersection with the top boundary divides
    (x2 - x1) * (ymax - y1), which wraps to INT_MIN, by y2 - y1 = -1. *)
Definition overflow_window : state :=
  zvgFrameSetClipWin (-1073741824) (-10) 1073741824 0 init_state.

(** * Properties *)

(** ** Machine integers and buffer stores *)

Lemma to_int_id z : INT_MIN <= z <= INT_MAX -> to_int z = z.
Proof.
  unfold INT_MIN, INT_MAX, to_int. intros H.
  rewrite Z.mod_small by lia. lia.
Qed.

Lemma to_u32_id z : 0 <= z < 4294967296 -> to_u32 z = z.
Proof. intros H. unfold to_u32. apply Z.mod_small. lia. Qed.

Lemma to_int_range z : INT_MIN <= to_int z <= INT_MAX.
Proof.
  unfold to_int, INT_MIN, INT_MAX.
  pose proof (Z.mod_pos_bound (z + 2147483648) 4294967296). lia.
Qed.

(** Reduction restricted to the record plumbing and the monad; the
    buffer contents and the arithmetic are left as they are. *)
Ltac st_simpl :=
  cbn [s_cmd_offs s_cmd_buf s_last_r s_last_g s_last_b s_vector_length
       s_last_x s_last_y s_serial_fd s_xmin s_xmax s_ymin s_ymax
       set_offs set_buf set_last_rgb set_vector_length set_last_xy
       set_serial_fd zvgFrameSetClipWin cmd_reset
       mbind res_mbind res_bind mret res_ret fst snd andb orb negb] in *.

Lemma buf_push_ok v st :
  0 <= s_cmd_offs st < CMD_BUF_SIZE ->
  buf_push v st =
    Ok (set_offs (s_cmd_offs st + 1)
          (set_buf (<[s_cmd_offs st := to_u8 v]> (s_cmd_buf st)) st)).
Proof.
  intros H. unfold buf_push, buf_set.
  destruct (Z.leb_spec 0 (s_cmd_offs st)); [|lia].
  destruct (Z.ltb_spec (s_cmd_offs st) CMD_BUF_SIZE); [|lia].
  st_simpl. rewrite to_int_id; [reflexivity|].
  unfold CMD_BUF_SIZE, INT_MIN, INT_MAX in *. lia.
Qed.

Lemma buf_push_fault v st :
  ~ (0 <= s_cmd_offs st < CMD_BUF_SIZE) ->
  buf_push v st = Fault (OutOfBounds (s_cmd_offs st)).
Proof.
  intros H. unfold buf_push, buf_set.
  destruct (Z.leb_spec 0 (s_cmd_offs st));
    destruct (Z.ltb_spec (s_cmd_offs st) CMD_BUF_SIZE);
    first [ exfalso; lia | reflexivity ].
Qed.

Lemma push_cmd_ok cmd st :
  0 <= s_cmd_offs st <= CMD_BUF_SIZE - 4 ->
  push_cmd cmd st =
    Ok (set_offs (s_cmd_offs st + 4)
          (set_buf (cmd_bytes cmd (s_cmd_offs st) (s_cmd_buf st)) st)).
Proof.
  intros H. unfold push_cmd.
  rewrite buf_push_ok by lia. st_simpl.
  rewrite buf_push_ok by (st_simpl; lia). st_simpl.
  rewrite buf_push_ok by (st_simpl; lia). st_simpl.
  rewrite buf_push_ok by (st_simpl; lia). st_simpl.
  unfold cmd_bytes.
  replace (s_cmd_offs st + 1 + 1) with (s_cmd_offs st + 2) by lia.
  replace (s_cmd_offs st + 2 + 1) with (s_cmd_offs st + 3) by lia.
  replace (s_cmd_offs st + 3 + 1) with (s_cmd_offs st + 4) by lia.
  reflexivity.
Qed.

(** A command pushed at the end of the buffer or beyond faults on its
    first byte. *)
Lemma push_cmd_fault cmd st :
  CMD_BUF_SIZE <= s_cmd_offs st ->
  push_cmd cmd st = Fault (OutOfBounds (s_cmd_offs st)).
Proof.
  intros H. unfold push_cmd. rewrite buf_push_fault by lia. reflexivity.
Qed.

(** The guarded push: one word when there is room, nothing otherwise;
    in both cases only the buffer and the offset can change. *)
Lemma push_cmd_guarded_spec cmd st :
  0 <= s_cmd_offs st ->
  exists o' m',
    push_cmd_guarded cmd st = Ok (set_offs o' (set_buf m' st)) /\
    (if s_cmd_offs st <=? CMD_BUF_SIZE - 8
     then o' = s_cmd_offs st + 4 /\ m' = cmd_bytes cmd (s_cmd_offs st) (s_cmd_buf st)
     else o' = s_cmd_offs st /\ m' = s_cmd_buf st).
Proof.
  intros H. unfold push_cmd_guarded.
  destruct (Z.leb_spec (s_cmd_offs st) (CMD_BUF_SIZE - 8)) as [Hle|Hgt].
  - rewrite push_cmd_ok by lia.
    eexists. eexists. split; [reflexivity|]. auto.
  - exists (s_cmd_offs st), (s_cmd_buf st). split; [|auto].
    destruct st; reflexivity.
Qed.

Lemma buf_set_ok i v st :
  0 <= i < CMD_BUF_SIZE ->
  buf_set i v st = Ok (set_buf (<[i := to_u8 v]> (s_cmd_buf st)) st).
Proof.
  intros H. unfold buf_set.
  destruct (Z.leb_spec 0 i); [|lia].
  destruct (Z.ltb_spec i CMD_BUF_SIZE); [|lia]. reflexivity.
Qed.

Lemma serial_send_finalize_ok st :
  0 <= s_cmd_offs st <= CMD_BUF_SIZE - 8 ->
  serial_send_finalize st = Ok (finalized st).
Proof.
  intros H. unfold serial_send_finalize.
  rewrite buf_set_ok by (unfold CMD_BUF_SIZE; lia). st_simpl.
  rewrite buf_set_ok by (unfold CMD_BUF_SIZE; lia). st_simpl.
  rewrite buf_set_ok by (unfold CMD_BUF_SIZE; lia). st_simpl.
  rewrite buf_set_ok by (unfold CMD_BUF_SIZE; lia). st_simpl.
  rewrite push_cmd_ok by (st_simpl; lia). st_simpl.
  rewrite push_cmd_ok by (st_simpl; lia). st_simpl.
  unfold finalized.
  replace (s_cmd_offs st + 4 + 4) with (s_cmd_offs st + 8) by lia.
  reflexivity.
Qed.

(** With the offset on the last word of the buffer, the QUALITY word
    still fits and the COMPLETE word is stored past the end. *)
Lemma serial_send_finalize_fault st :
  s_cmd_offs st = CMD_BUF_SIZE - 4 ->
  serial_send_finalize st = Fault (OutOfBounds CMD_BUF_SIZE).
Proof.
  intros H. unfold serial_send_finalize.
  rewrite buf_set_ok by (unfold CMD_BUF_SIZE; lia). st_simpl.
  rewrite buf_set_ok by (unfold CMD_BUF_SIZE; lia). st_simpl.
  rewrite buf_set_ok by (unfold CMD_BUF_SIZE; lia). st_simpl.
  rewrite buf_set_ok by (unfold CMD_BUF_SIZE; lia). st_simpl.
  rewrite push_cmd_ok by (st_simpl; unfold CMD_BUF_SIZE in *; lia). st_simpl.
  rewrite push_cmd_fault by (st_simpl; lia). st_simpl.
  rewrite H. reflexivity.
Qed.

Lemma run_app bd fuel ops1 ops2 m :
  run bd fuel (ops1 ++ ops2) m = run bd fuel ops1 m ≫= run bd fuel ops2.
Proof.
  revert m. induction ops1 as [|o ops1 IH]; intros m; [reflexivity|].
  cbn [run app]. destruct (exec bd fuel o m) as [m'| |]; st_simpl; auto.
Qed.

Lemma zvgFrameSetRGB15_spec red green blue st :
  0 <= s_cmd_offs st ->
  exists st',
    zvgFrameSetRGB15 red green blue st = Ok st' /\
    s_last_r st' = Z.min (8 * to_u8 red) 255 /\
    s_last_g st' = Z.min (8 * to_u8 green) 255 /\
    s_last_b st' = Z.min (8 * to_u8 blue) 255 /\
    s_vector_length st' = s_vector_length st /\
    s_last_x st' = s_last_x st /\ s_last_y st' = s_last_y st /\
    s_serial_fd st' = s_serial_fd st /\
    (s_xmin st', s_xmax st', s_ymin st', s_ymax st')
      = (s_xmin st, s_xmax st, s_ymin st, s_ymax st) /\
    (if s_cmd_offs st <=? CMD_BUF_SIZE - 8
     then s_cmd_offs st' = s_cmd_offs st + 4
     else s_cmd_offs st' = s_cmd_offs st /\ s_cmd_buf st' = s_cmd_buf st).
Proof.
  intros H. unfold zvgFrameSetRGB15.
  match goal with
  | |- context [push_cmd_guarded ?c ?s] =>
      destruct (push_cmd_guarded_spec c s) as (o' & m' & -> & Ho); [exact H|]
  end.
  eexists. split; [reflexivity|]. st_simpl.
  assert (Hs : forall x, to_u8 (if to_u16 (Z.shiftl (to_u8 x) 3) >? 255 then 255
                                else to_u16 (Z.shiftl (to_u8 x) 3))
                         = Z.min (8 * to_u8 x) 255).
  { intros x. unfold to_u8, to_u16. rewrite Z.shiftl_mul_pow2 by lia.
    change (2 ^ 3) with 8.
    pose proof (Z.mod_pos_bound x 256 ltac:(lia)).
    rewrite (Z.mod_small (x mod 256 * 8) 65536) by lia.
    destruct (Z.gtb_spec (x mod 256 * 8) 255).
    - rewrite Z.min_r by lia. reflexivity.
    - rewrite Z.min_l by lia. rewrite Z.mod_small by lia. lia. }
  rewrite !Hs.
  repeat (split; [reflexivity|]).
  destruct (s_cmd_offs st <=? CMD_BUF_SIZE - 8); tauto.
Qed.

Lemma run_setrgb_repeat bd fuel red green blue ch n : forall st,
  0 <= s_cmd_offs st ->
  s_cmd_offs st + 4 * Z.of_nat n <= CMD_BUF_SIZE - 4 ->
  exists st',
    run bd fuel (repeat (OpSetRGB15 red green blue) n) (st, ch) = Ok (st', ch) /\
    s_cmd_offs st' = s_cmd_offs st + 4 * Z.of_nat n.
Proof.
  induction n as [|n IH]; intros st H0 Hn.
  - exists st. split; [reflexivity|lia].
  - cbn [repeat run exec].
    destruct (zvgFrameSetRGB15_spec red green blue st H0)
      as (st1 & -> & _ & _ & _ & _ & _ & _ & _ & _ & Ho).
    destruct (Z.leb_spec (s_cmd_offs st) (CMD_BUF_SIZE - 8)); [|lia].
    st_simpl.
    destruct (IH st1) as (st' & Hrun & Hoffs); [lia|lia|].
    exists st'. split; [exact Hrun|lia].
Qed.

(** C1, at the input where it fails: a frame of 32766 colour commands
    fills the buffer up to its last word (each guarded append passes the
    test [s_cmd_offs <= CMD_BUF_SIZE - 8] and leaves the offset at most
    CMD_BUF_SIZE - 4); the send that follows fits the QUALITY word and
    stores the first byte of the COMPLETE word at index 131072, one past
    the end of the 131072-byte buffer. *)
Theorem send_full_frame_stores_past_buffer :
  forall bd fuel red green blue o ch,
    run bd fuel
        (OpOpen o :: repeat (OpSetRGB15 red green blue) (Z.to_nat 32766) ++ [OpSend])
        (init_state, ch)
    = Fault (OutOfBounds 131072).
Proof.
  intros bd fuel red green blue o ch.
  cbn [run exec]. st_simpl.
  rewrite run_app.
  destruct (run_setrgb_repeat bd fuel red green blue ch (Z.to_nat 32766)
              (fst (zvgFrameOpen o init_state)))
    as (st & -> & Hoffs).
  - unfold zvgFrameOpen, serial_open. st_simpl. lia.
  - unfold zvgFrameOpen, serial_open. st_simpl. unfold CMD_BUF_SIZE. lia.
  - st_simpl. cbn [run exec]. unfold zvgFrameSend, serial_send.
    rewrite serial_send_finalize_fault; [reflexivity|].
    rewrite Hoffs. unfold zvgFrameOpen, serial_open. st_simpl.
    unfold CMD_BUF_SIZE. lia.
Qed.

(** ** Colour scaling *)

(** C3, the claim as stated fails on its own example: for the 5-bit
    maximum 31 the shift gives 248, which the clamp at 255 leaves alone. *)
Lemma setcolor_31_stores_248_not_255 :
  exists st',
    zvgFrameSetRGB15 31 31 31 (cmd_reset init_state) = Ok st' /\
    (s_last_r st', s_last_g st', s_last_b st') = (248, 248, 248) /\
    (s_last_r st', s_last_g st', s_last_b st') <> (255, 255, 255).
Proof.
  eexists. split; [vm_compute; reflexivity|]. split; [reflexivity|].
  vm_compute. intros H. discriminate H.
Qed.

(** C3, amended: zvgFrameSetRGB15 stores each channel (taken as uint8_t)
    times 8, clamped at 255, as the last colour; a 5-bit value 0..31 is
    stored as 8 times itself, at most 248, so the clamp only acts on
    inputs of 32 and more. *)
Theorem setcolor_scales_by_8_clamps_at_255 :
  forall red green blue st,
    0 <= s_cmd_offs st ->
    exists st',
      zvgFrameSetRGB15 red green blue st = Ok st' /\
      s_last_r st' = Z.min (8 * to_u8 red) 255 /\
      s_last_g st' = Z.min (8 * to_u8 green) 255 /\
      s_last_b st' = Z.min (8 * to_u8 blue) 255 /\
      (0 <= red <= 31 -> s_last_r st' = 8 * red /\ s_last_r st' <= 248) /\
      (0 <= green <= 31 -> s_last_g st' = 8 * green /\ s_last_g st' <= 248) /\
      (0 <= blue <= 31 -> s_last_b st' = 8 * blue /\ s_last_b st' <= 248).
Proof.
  intros red green blue st H.
  destruct (zvgFrameSetRGB15_spec red green blue st H)
    as (st' & Hrun & Hr & Hg & Hb & _).
  exists st'. split; [exact Hrun|].
  repeat (split; [assumption|]).
  assert (Hs : forall x, 0 <= x <= 31 -> Z.min (8 * to_u8 x) 255 = 8 * x).
  { intros x Hx. unfold to_u8. rewrite Z.mod_small by lia. lia. }
  rewrite Hr, Hg, Hb.
  split; [|split]; intros Hx; rewrite Hs by exact Hx; lia.
Qed.

Lemma setcolor_scales_by_8_clamps_at_255_witness :
  0 <= s_cmd_offs (cmd_reset init_state) /\
  exists st',
    zvgFrameSetRGB15 31 40 0 (cmd_reset init_state) = Ok st' /\
    s_last_r st' = Z.min (8 * to_u8 31) 255 /\
    s_last_g st' = Z.min (8 * to_u8 40) 255 /\
    s_last_b st' = Z.min (8 * to_u8 0) 255 /\
    (0 <= 31 <= 31 -> s_last_r st' = 8 * 31 /\ s_last_r st' <= 248) /\
    (0 <= 40 <= 31 -> s_last_g st' = 8 * 40 /\ s_last_g st' <= 248) /\
    (0 <= 0 <= 31 -> s_last_b st' = 8 * 0 /\ s_last_b st' <= 248).
Proof.
  split.
  - vm_compute. discriminate.
  - apply (setcolor_scales_by_8_clamps_at_255 31 40 0 (cmd_reset init_state)).
    vm_compute. discriminate.
Defined.

(** ** The end-to-end scenario *)

(** C6: open, clip window (0,0,1000,1000), colour (31,0,0), vector
    (0,0)-(500,500), send, with logical bounds 0..1000.  One write carries
    the frame; its words are FRAME, RGB, XY to (0,0) with blank 1, XY to
    (2047,2047) with blank 0, QUALITY, COMPLETE.  The FRAME payload is the
    length from the initial point (INT_MIN, INT_MIN) to (0,0), which is 0,
    plus the truncated distance from (0,0) to (2047,2047), which is 2894,
    one below 2895. *)
Theorem scenario_frame_words :
  forall fuel oracle,
    exists st bytes,
      run scenario_bounds (S fuel) scenario_ops (init_state, mkChannel [] oracle)
        = Ok (st, mkChannel [bytes] oracle) /\
      words_of bytes =
        [frame_cmd (vector_length INT_MIN INT_MIN 0 0 + vector_length 0 0 2047 2047);
         rgb_cmd 248 0 0; xy_cmd 1 0 0; xy_cmd 0 2047 2047;
         quality_cmd; complete_cmd] /\
      length bytes = 24%nat /\
      vector_length INT_MIN INT_MIN 0 0 = 0 /\
      vector_length 0 0 2047 2047 = Z.sqrt (2047 * 2047 + 2047 * 2047) /\
      cmd_tag (hd 0 (words_of bytes)) = FLAG_FRAME /\
      cmd_payload (hd 0 (words_of bytes)) = 2894 /\
      2895 - 1 <= cmd_payload (hd 0 (words_of bytes)) <= 2895 /\
      (cmd_tag (xy_cmd 1 0 0), xy_blank (xy_cmd 1 0 0),
       xy_x (xy_cmd 1 0 0), xy_y (xy_cmd 1 0 0)) = (FLAG_XY, 1, 0, 0) /\
      (cmd_tag (xy_cmd 0 2047 2047), xy_blank (xy_cmd 0 2047 2047),
       xy_x (xy_cmd 0 2047 2047), xy_y (xy_cmd 0 2047 2047)) = (FLAG_XY, 0, 2047, 2047) /\
      CONVX scenario_bounds 500 = Ok 2047 /\ CONVY scenario_bounds 500 = Ok 2047.
Proof.
  intros fuel oracle. eexists. eexists.
  split; [vm_compute; reflexivity|].
  vm_compute. repeat split; discriminate.
Qed.

(** ** The start move and the clamping of the end point *)

(** C2, at an input where it fails.  After the vector (0,0)-(500,500) the
    last emitted device point is (2047,2047).  The next vector starts at
    logical (500,500), which quantizes to that same device point, yet
    zvgFrameVector appends a beam-off move to it before the end move: the
    test compares the clipped logical start (500,500) with the device
    point (2047,2047). *)
Theorem start_move_appended_for_equal_device_point :
  forall fuel oracle,
    exists st1 st2,
      run scenario_bounds (S fuel) chained_vectors_prefix
          (init_state, mkChannel [] oracle) = Ok (st1, mkChannel [] oracle) /\
      (s_last_x st1, s_last_y st1) = (2047, 2047) /\
      line_clip (S fuel) st1 500 500 1000 1000 = Ok (1, (500, 500, 1000, 1000)) /\
      CONVX scenario_bounds 500 = Ok (s_last_x st1) /\
      CONVY scenario_bounds 500 = Ok (s_last_y st1) /\
      zvgFrameVector scenario_bounds (S fuel) 500 500 1000 1000 st1 = Ok (st2, 0) /\
      s_cmd_offs st2 = s_cmd_offs st1 + 8 /\
      word_at (s_cmd_buf st2) (s_cmd_offs st1) = xy_cmd 1 2047 2047 /\
      word_at (s_cmd_buf st2) (s_cmd_offs st1 + 4) = xy_cmd 0 4095 4095.
Proof.
  intros fuel oracle. eexists. eexists.
  split; [vm_compute; reflexivity|].
  split; [reflexivity|].
  split; [vm_compute; reflexivity|].
  split; [reflexivity|].
  split; [reflexivity|].
  split; [vm_compute; reflexivity|].
  vm_compute. repeat split.
Qed.

(** C4, at an input where it fails.  With logical bounds 0..1000 and the
    clip window (0,0,2000,2000), the vector (0,0)-(2000,2000) is accepted
    unchanged; its end quantizes to (8190,8190), and only the start goes
    through the clamp: the end move is encoded with x = y = 8190 and the
    last emitted point becomes (8190,8190), outside 0..4095. *)
Theorem end_point_not_clamped :
  forall fuel oracle,
    exists st1 st2,
      run scenario_bounds (S fuel) wide_window_prefix
          (init_state, mkChannel [] oracle) = Ok (st1, mkChannel [] oracle) /\
      line_clip (S fuel) st1 0 0 2000 2000 = Ok (1, (0, 0, 2000, 2000)) /\
      zvgFrameVector scenario_bounds (S fuel) 0 0 2000 2000 st1 = Ok (st2, 0) /\
      (s_last_x st2, s_last_y st2) = (8190, 8190) /\
      DVG_RES_MAX < s_last_x st2 /\ DVG_RES_MAX < s_last_y st2 /\
      s_cmd_offs st2 = s_cmd_offs st1 + 8 /\
      word_at (s_cmd_buf st2) (s_cmd_offs st1) = xy_cmd 1 0 0 /\
      word_at (s_cmd_buf st2) (s_cmd_offs st1 + 4) = xy_cmd 0 8190 8190 /\
      (xy_x (xy_cmd 0 8190 8190), xy_y (xy_cmd 0 8190 8190)) = (8190, 8190).
Proof.
  intros fuel oracle. eexists. eexists.
  split; [vm_compute; reflexivity|].
  split; [vm_compute; reflexivity|].
  split; [vm_compute; reflexivity|].
  vm_compute. repeat split.
Qed.

(** ** Chunked transmission *)

Lemma buf_read_length m offset n : length (buf_read m offset n) = Z.to_nat n.
Proof. unfold buf_read. rewrite length_fmap. apply length_seqZ. Qed.

Lemma buf_read_nil m offset n : n <= 0 -> buf_read m offset n = [].
Proof. intros H. unfold buf_read. rewrite seqZ_nil by exact H. reflexivity. Qed.

Lemma buf_read_app m offset n1 n2 :
  0 <= n1 -> 0 <= n2 ->
  buf_read m offset (n1 + n2) = buf_read m offset n1 ++ buf_read m (offset + n1) n2.
Proof.
  intros H1 H2. unfold buf_read. rewrite seqZ_app by assumption.
  apply fmap_app.
Qed.

Lemma chunk_count_step size : chunk_count (size - 1024) = chunk_count size - 1.
Proof.
  unfold chunk_count.
  replace (size + 1023) with ((size - 1024 + 1023) + 1 * 1024) by lia.
  rewrite Z.div_add by lia. lia.
Qed.

Lemma chunk_count_pos size : 0 < size -> 0 < chunk_count size.
Proof.
  intros H. unfold chunk_count.
  apply Z.div_str_pos. lia.
Qed.

Lemma chunk_count_nonpos size : size <= 0 -> chunk_count size <= 0.
Proof.
  intros H. unfold chunk_count.
  assert ((size + 1023) / 1024 < 1); [|lia].
  apply Z.div_lt_upper_bound; lia.
Qed.

Lemma spec_chunks_nil m offset size : size <= 0 -> spec_chunks m offset size = [].
Proof.
  intros H. unfold spec_chunks.
  rewrite seqZ_nil by (apply chunk_count_nonpos; exact H). reflexivity.
Qed.

(** The first chunk, then the chunks of what is left. *)
Lemma spec_chunks_cons m offset size :
  0 < size ->
  spec_chunks m offset size =
    buf_read m offset (Z.min 1024 size)
    :: spec_chunks m (offset + Z.min 1024 size) (size - Z.min 1024 size).
Proof.
  intros H. unfold spec_chunks at 1.
  rewrite seqZ_cons by (apply chunk_count_pos; exact H).
  rewrite fmap_cons. f_equal.
  - unfold chunk_at. f_equal; lia.
  - destruct (Z.le_gt_cases size 1024) as [Hs|Hs].
    + rewrite Z.min_r by lia.
      rewrite (spec_chunks_nil m _ (size - size)) by lia.
      rewrite seqZ_nil; [reflexivity|].
      pose proof (chunk_count_step size).
      pose proof (chunk_count_nonpos (size - 1024)). lia.
    + rewrite Z.min_l by lia. unfold spec_chunks.
      rewrite chunk_count_step.
      rewrite <- (fmap_add_seqZ 1 0). rewrite <- list_fmap_compose.
      replace (Z.pred (chunk_count size)) with (chunk_count size - 1) by lia.
      apply list_fmap_ext. intros i k _. unfold compose, chunk_at.
      f_equal; lia.
Qed.

Lemma spec_chunks_concat m n : forall offset size,
  size <= 1024 * Z.of_nat n ->
  concat (spec_chunks m offset size) = buf_read m offset size.
Proof.
  induction n as [|n IH]; intros offset size H.
  - rewrite spec_chunks_nil, buf_read_nil by lia. reflexivity.
  - destruct (Z.le_gt_cases size 0) as [H0|H0].
    + rewrite spec_chunks_nil, buf_read_nil by lia. reflexivity.
    + rewrite spec_chunks_cons by lia. cbn [concat].
      rewrite IH by lia.
      rewrite <- buf_read_app by lia. f_equal. lia.
Qed.

Lemma spec_chunks_sizes m offset size :
  Forall (fun w => (0 < length w <= 1024)%nat) (spec_chunks m offset size).
Proof.
  unfold spec_chunks. apply Forall_fmap, Forall_seqZ.
  intros k Hk. cbn. unfold chunk_at. rewrite buf_read_length.
  assert (1024 * k < size).
  { unfold chunk_count in Hk.
    pose proof (Z.mul_div_le (size + 1023) 1024 ltac:(lia)).
    pose proof (Z.mod_pos_bound (size + 1023) 1024 ltac:(lia)).
    pose proof (Z.div_mod (size + 1023) 1024 ltac:(lia)). lia. }
  lia.
Qed.

Lemma MIN_1024 size : 0 <= size <= INT_MAX -> MIN size 1024 = Z.min 1024 size.
Proof.
  intros H. unfold MIN.
  rewrite (to_int_id size) by (unfold INT_MIN, INT_MAX in *; lia).
  rewrite (to_int_id 1024) by (unfold INT_MIN, INT_MAX; lia).
  destruct (Z.ltb_spec size 1024); lia.
Qed.

(** The loop of serial_send writes exactly the chunks of the spec, in
    order, whatever each write reports; a fuel of at least the number of
    chunks is never exhausted. *)
Lemma serial_send_loop_spec m fuel : forall result size offset ch,
  0 <= size <= INT_MAX -> 0 <= offset -> offset + size < 4294967296 ->
  (Z.to_nat (chunk_count size) <= fuel)%nat ->
  exists result',
    serial_send_loop fuel m result size offset ch
      = Ok (result', mkChannel (ch_log ch ++ spec_chunks m offset size) (ch_oracle ch)) /\
    (size = 0 -> result' = result) /\
    (0 < size -> result' = 0 \/ result' = 1).
Proof.
  induction fuel as [|fuel IH]; intros result size offset ch Hs Ho Hsum Hf.
  - assert (size = 0).
    { destruct (Z.eq_dec size 0) as [|Hne]; [assumption|].
      pose proof (chunk_count_pos size). lia. }
    subst size. exists result. cbn [serial_send_loop Z.eqb].
    rewrite spec_chunks_nil by lia. rewrite app_nil_r.
    destruct ch. split; [reflexivity|]. split; [reflexivity|lia].
  - cbn [serial_send_loop].
    destruct (Z.eqb_spec size 0) as [->|Hne].
    + exists result. rewrite spec_chunks_nil by lia. rewrite app_nil_r.
      destruct ch. split; [reflexivity|]. split; [reflexivity|lia].
    + rewrite MIN_1024 by exact Hs.
      assert (Hc : 0 < Z.min 1024 size <= size) by lia.
      rewrite (to_u32_id (Z.min 1024 size)) by lia.
      rewrite (to_u32_id (size - Z.min 1024 size)) by lia.
      rewrite (to_u32_id (offset + Z.min 1024 size)) by lia.
      unfold serial_write.
      match goal with
      | |- context [serial_send_loop fuel m ?r ?s ?o ?c] =>
          destruct (IH r s o c) as (result' & -> & Hr0 & Hr)
      end.
      * lia.
      * lia.
      * lia.
      * pose proof (chunk_count_step size) as Hstep.
        pose proof (chunk_count_pos size ltac:(lia)) as Hpos.
        destruct (Z.le_gt_cases size 1024).
        -- rewrite Z.min_r by lia.
           pose proof (chunk_count_nonpos (size - size) ltac:(lia)). lia.
        -- rewrite Z.min_l by lia. lia.
      * exists result'. cbn [ch_log ch_oracle].
        rewrite (spec_chunks_cons m offset size) by lia.
        rewrite <- app_assoc. cbn [app].
        split; [reflexivity|]. split; [lia|].
        intros _.
        destruct (Z.eq_dec (size - Z.min 1024 size) 0) as [Hz|Hz].
        -- rewrite (Hr0 Hz).
           match goal with |- context [if ?c then _ else _] => destruct c end; auto.
        -- apply Hr. lia.
Qed.

(** ** Command words and the bytes that hold them *)

Lemma testbit_u32_high cmd n :
  0 <= cmd < 4294967296 -> 32 <= n -> Z.testbit cmd n = false.
Proof.
  intros H Hn. rewrite <- (Z.mod_small cmd (2 ^ 32)) by (change (2 ^ 32) with 4294967296; lia).
  rewrite Z.testbit_mod_pow2 by lia.
  destruct (Z.ltb_spec n 32); [lia|reflexivity].
Qed.

(** Bit [n] of byte [k / 8] of a word, placed back at its position. *)
Lemma testbit_byte_at cmd k n :
  0 <= k -> 0 <= n ->
  Z.testbit (Z.shiftl (to_u8 (Z.shiftr cmd k)) k) n
  = (k <=? n) && (n <? k + 8) && Z.testbit cmd n.
Proof.
  intros Hk Hn. rewrite Z.shiftl_spec by lia.
  destruct (Z.leb_spec k n) as [Hle|Hlt].
  - unfold to_u8. change 256 with (2 ^ 8).
    rewrite Z.testbit_mod_pow2 by lia.
    rewrite Z.shiftr_spec by lia.
    replace (n - k + k) with n by lia.
    destruct (Z.ltb_spec (n - k) 8), (Z.ltb_spec n (k + 8)); try lia; reflexivity.
  - rewrite Z.testbit_neg_r by lia. reflexivity.
Qed.

Lemma word_of_bytes cmd :
  0 <= cmd < 4294967296 ->
  Z.lor (Z.lor (Z.lor (Z.shiftl (to_u8 (Z.shiftr cmd 24)) 24)
                      (Z.shiftl (to_u8 (Z.shiftr cmd 16)) 16))
               (Z.shiftl (to_u8 (Z.shiftr cmd 8)) 8))
        (to_u8 (Z.shiftr cmd 0)) = cmd.
Proof.
  intros H. apply Z.bits_inj'. intros n Hn.
  rewrite <- (Z.shiftl_0_r (to_u8 (Z.shiftr cmd 0))).
  rewrite !Z.lor_spec, !testbit_byte_at by lia.
  destruct (Z.lt_ge_cases n 32) as [H32|H32].
  - destruct (Z.testbit cmd n); [|rewrite !andb_false_r; reflexivity].
    rewrite !andb_true_r.
    destruct (Z.leb_spec 24 n), (Z.leb_spec 16 n), (Z.leb_spec 8 n), (Z.leb_spec 0 n),
             (Z.ltb_spec n (24 + 8)), (Z.ltb_spec n (16 + 8)), (Z.ltb_spec n (8 + 8)),
             (Z.ltb_spec n (0 + 8)); try lia; reflexivity.
  - rewrite (testbit_u32_high cmd n H H32). rewrite !andb_false_r. reflexivity.
Qed.

Lemma buf_get_insert_eq m i v : buf_get (<[i := v]> m) i = v.
Proof. unfold buf_get. rewrite lookup_insert_eq. reflexivity. Qed.

Lemma buf_get_insert_ne m i j v : i <> j -> buf_get (<[i := v]> m) j = buf_get m j.
Proof. intros H. unfold buf_get. rewrite lookup_insert_ne by exact H. reflexivity. Qed.

Lemma buf_get_cmd_bytes_other cmd o m j :
  j < o \/ o + 4 <= j -> buf_get (cmd_bytes cmd o m) j = buf_get m j.
Proof.
  intros H. unfold cmd_bytes. rewrite !buf_get_insert_ne by lia. reflexivity.
Qed.

(** A command reads back from where its four bytes were stored. *)
Lemma word_at_cmd_bytes cmd o m :
  0 <= cmd < 4294967296 -> word_at (cmd_bytes cmd o m) o = cmd.
Proof.
  intros H. unfold word_at, cmd_bytes.
  rewrite buf_get_insert_eq.
  rewrite (buf_get_insert_ne _ (o + 3) (o + 2)) by lia. rewrite buf_get_insert_eq.
  rewrite (buf_get_insert_ne _ (o + 3) (o + 1)) by lia.
  rewrite (buf_get_insert_ne _ (o + 2) (o + 1)) by lia. rewrite buf_get_insert_eq.
  rewrite (buf_get_insert_ne _ (o + 3) o) by lia.
  rewrite (buf_get_insert_ne _ (o + 2) o) by lia.
  rewrite (buf_get_insert_ne _ (o + 1) o) by lia. rewrite buf_get_insert_eq.
  apply word_of_bytes. exact H.
Qed.

Lemma word_at_cmd_bytes_other cmd o m j :
  j + 4 <= o \/ o + 4 <= j -> word_at (cmd_bytes cmd o m) j = word_at m j.
Proof.
  intros H. unfold word_at.
  rewrite !buf_get_cmd_bytes_other by lia. reflexivity.
Qed.

Lemma to_u32_range z : 0 <= to_u32 z < 4294967296.
Proof. unfold to_u32. apply Z.mod_pos_bound. lia. Qed.

(** The FRAME word: its low 29 bits are those of the length; with a
    length that fits the 29-bit field the tag is FRAME and the payload is
    the length itself. *)
Lemma frame_cmd_payload len : cmd_payload (frame_cmd len) = len mod 536870912.
Proof.
  unfold cmd_payload, frame_cmd, to_u32.
  change 536870911 with (Z.ones 29). rewrite Z.land_ones by lia.
  change 4294967296 with (2 ^ 32). change 536870912 with (2 ^ 29).
  apply Z.bits_inj'. intros n Hn.
  rewrite !Z.testbit_mod_pow2 by lia.
  destruct (Z.ltb_spec n 29) as [Hlt|Hge]; [|reflexivity].
  destruct (Z.ltb_spec n 32); [|lia].
  cbn [andb]. rewrite Z.lor_spec.
  change (to_int (Z.shiftl FLAG_FRAME 29)) with (Z.lnot (Z.ones 31)).
  rewrite Z.lnot_spec by lia. rewrite Z.ones_spec_low by lia. reflexivity.
Qed.

Lemma frame_cmd_small len :
  0 <= len < 536870912 ->
  frame_cmd len = 2147483648 + len.
Proof.
  intros H. unfold frame_cmd.
  change (to_int (Z.shiftl FLAG_FRAME 29)) with (Z.lnot (Z.ones 31)).
  assert (Hd : Z.land (Z.lnot (Z.ones 31)) len = 0).
  { apply Z.bits_inj'. intros n Hn. rewrite Z.land_spec, Z.bits_0, Z.lnot_spec by lia.
    destruct (Z.lt_ge_cases n 31).
    - rewrite Z.ones_spec_low by lia. reflexivity.
    - rewrite (Z.bits_above_log2 len n); [apply andb_false_r|lia|].
      destruct (Z.eq_dec len 0) as [->|]; [cbn; lia|].
      apply Z.log2_lt_pow2; [lia|].
      assert (2 ^ 29 <= 2 ^ n) by (apply Z.pow_le_mono_r; lia).
      change (2 ^ 29) with 536870912 in *. lia. }
  assert (Hl : Z.lor (Z.lnot (Z.ones 31)) len = - 2147483648 + len).
  { change (-2147483648) with (Z.lnot (Z.ones 31)).
    rewrite Z.add_nocarry_lxor by exact Hd.
    rewrite Z.lxor_lor by exact Hd. reflexivity. }
  rewrite Hl. unfold to_u32.
  replace (-2147483648 + len) with (2147483648 + len + (-1) * 4294967296) by lia.
  rewrite Z.mod_add by lia. apply Z.mod_small. lia.
Qed.

Lemma frame_cmd_tag len :
  0 <= len < 536870912 -> cmd_tag (frame_cmd len) = FLAG_FRAME.
Proof.
  intros H. rewrite frame_cmd_small by exact H.
  unfold cmd_tag, FLAG_FRAME. rewrite Z.shiftr_div_pow2 by lia.
  change (2 ^ 29) with 536870912.
  replace (2147483648 + len) with (len + 4 * 536870912) by lia.
  rewrite Z.div_add by lia. rewrite Z.div_small by lia. reflexivity.
Qed.

(** ** serial_send as a whole *)

Lemma seqZ_4 o : seqZ o 4 = [o; o + 1; o + 2; o + 3].
Proof.
  rewrite seqZ_cons by lia. rewrite seqZ_cons by lia.
  rewrite seqZ_cons by lia. rewrite seqZ_cons by lia.
  rewrite seqZ_nil by lia. repeat f_equal; lia.
Qed.

Lemma buf_read_cmd_bytes cmd o m :
  buf_read (cmd_bytes cmd o m) o 4 = cmd_byte_list cmd.
Proof.
  unfold buf_read. rewrite seqZ_4. cbn [fmap list_fmap]. unfold cmd_bytes, cmd_byte_list.
  rewrite (buf_get_insert_ne _ (o + 3) o) by lia.
  rewrite (buf_get_insert_ne _ (o + 2) o) by lia.
  rewrite (buf_get_insert_ne _ (o + 1) o) by lia. rewrite buf_get_insert_eq.
  rewrite (buf_get_insert_ne _ (o + 3) (o + 1)) by lia.
  rewrite (buf_get_insert_ne _ (o + 2) (o + 1)) by lia. rewrite buf_get_insert_eq.
  rewrite (buf_get_insert_ne _ (o + 3) (o + 2)) by lia. rewrite buf_get_insert_eq.
  rewrite buf_get_insert_eq. reflexivity.
Qed.

Lemma buf_read_cmd_bytes_other cmd o m o' n :
  o' + n <= o \/ o + 4 <= o' ->
  buf_read (cmd_bytes cmd o m) o' n = buf_read m o' n.
Proof.
  intros H. unfold buf_read. apply list_fmap_ext.
  intros i x Hx. apply lookup_seqZ in Hx as [-> Hi].
  apply buf_get_cmd_bytes_other. lia.
Qed.

(** The bytes of a finalized frame: the FRAME word, the commands of the
    frame as they were appended, the QUALITY word, the COMPLETE word. *)
Lemma finalized_frame_bytes st :
  4 <= s_cmd_offs st ->
  buf_read (s_cmd_buf (finalized st)) 0 (s_cmd_offs st + 8)
  = cmd_byte_list (frame_cmd (s_vector_length st))
    ++ buf_read (s_cmd_buf st) 4 (s_cmd_offs st - 4)
    ++ cmd_byte_list quality_cmd ++ cmd_byte_list complete_cmd.
Proof.
  intros H. unfold finalized. st_simpl.
  replace (s_cmd_offs st + 8) with (4 + ((s_cmd_offs st - 4) + (4 + 4))) by lia.
  rewrite !buf_read_app by lia.
  replace (0 + 4 + (s_cmd_offs st - 4)) with (s_cmd_offs st) by lia.
  change (0 + 4) with 4.
  f_equal; [|f_equal; [|f_equal]].
  - rewrite !buf_read_cmd_bytes_other by lia. apply buf_read_cmd_bytes.
  - rewrite !buf_read_cmd_bytes_other by lia. reflexivity.
  - rewrite buf_read_cmd_bytes_other by lia. apply buf_read_cmd_bytes.
  - apply buf_read_cmd_bytes.
Qed.

Lemma chunk_count_le size : 0 <= size -> chunk_count size <= size.
Proof.
  intros H. unfold chunk_count.
  destruct (Z.eq_dec size 0) as [->|]; [reflexivity|].
  assert ((size + 1023) / 1024 < size + 1); [|lia].
  apply Z.div_lt_upper_bound; lia.
Qed.

(** Within capacity serial_send finalizes the frame, writes its chunks
    in order and resets; its own result is that of the last write. *)
Lemma serial_send_spec ch st :
  0 <= s_cmd_offs st <= CMD_BUF_SIZE - 8 ->
  exists result,
    serial_send ch st
    = Ok (cmd_reset (finalized st),
          mkChannel (ch_log ch
                     ++ spec_chunks (s_cmd_buf (finalized st)) 0 (s_cmd_offs st + 8))
                    (ch_oracle ch),
          result) /\
    (result = 0 \/ result = 1).
Proof.
  intros H. unfold serial_send.
  rewrite serial_send_finalize_ok by exact H. st_simpl.
  assert (Ho : s_cmd_offs (finalized st) = s_cmd_offs st + 8) by reflexivity.
  rewrite Ho. unfold CMD_BUF_SIZE in H.
  rewrite to_u32_id by lia.
  destruct (serial_send_loop_spec (s_cmd_buf (finalized st))
              (Z.to_nat (s_cmd_offs st + 8)) (-1) (s_cmd_offs st + 8) 0 ch)
    as (result & -> & _ & Hr).
  - unfold INT_MAX. lia.
  - lia.
  - lia.
  - pose proof (chunk_count_le (s_cmd_offs st + 8)). lia.
  - st_simpl. exists result. split; [reflexivity|]. apply Hr. lia.
Qed.

(** C9: once the frame is finalized (both trailing words fit), send
    issues writes that are each non-empty and at most 1024 bytes, that
    follow one another from offset 0 (chunk k is the 1024 * k-th byte
    onward) and whose concatenation is the whole finalized buffer; for a
    finalized buffer of 2500 bytes the sizes are 1024, 1024, 452. *)
Theorem send_writes_sequential_chunks_of_1024 :
  forall ch st,
    0 <= s_cmd_offs st <= CMD_BUF_SIZE - 8 ->
    exists st' ch' writes,
      zvgFrameSend ch st = Ok (st', ch', 0) /\
      ch_log ch' = ch_log ch ++ writes /\
      writes = spec_chunks (s_cmd_buf st') 0 (s_cmd_offs st + 8) /\
      Forall (fun w => (0 < length w <= 1024)%nat) writes /\
      concat writes = buf_read (s_cmd_buf st') 0 (s_cmd_offs st + 8) /\
      (s_cmd_offs st + 8 = 2500 -> length <$> writes = [1024; 1024; 452]%nat).
Proof.
  intros ch st H.
  destruct (serial_send_spec ch st H) as (result & Hsend & _).
  unfold zvgFrameSend. rewrite Hsend. st_simpl.
  eexists. eexists. eexists. split; [reflexivity|].
  cbn [ch_log]. split; [reflexivity|]. split; [reflexivity|].
  split; [apply spec_chunks_sizes|].
  split.
  - apply (spec_chunks_concat _ (Z.to_nat (s_cmd_offs st + 8))). lia.
  - intros ->.
    rewrite spec_chunks_cons by lia. rewrite spec_chunks_cons by lia.
    rewrite spec_chunks_cons by lia. rewrite spec_chunks_nil by lia.
    cbn [fmap list_fmap]. rewrite !buf_read_length. reflexivity.
Qed.

Lemma send_writes_sequential_chunks_of_1024_witness :
  0 <= s_cmd_offs state_2492 <= CMD_BUF_SIZE - 8 /\
  exists st' ch' writes,
    zvgFrameSend dead_channel state_2492 = Ok (st', ch', 0) /\
    ch_log ch' = ch_log dead_channel ++ writes /\
    writes = spec_chunks (s_cmd_buf st') 0 (s_cmd_offs state_2492 + 8) /\
    Forall (fun w => (0 < length w <= 1024)%nat) writes /\
    concat writes = buf_read (s_cmd_buf st') 0 (s_cmd_offs state_2492 + 8) /\
    (s_cmd_offs state_2492 + 8 = 2500 -> length <$> writes = [1024; 1024; 452]%nat).
Proof.
  split.
  - unfold state_2492, CMD_BUF_SIZE. st_simpl. lia.
  - apply (send_writes_sequential_chunks_of_1024 dead_channel state_2492).
    unfold state_2492, CMD_BUF_SIZE. st_simpl. lia.
Defined.

(** C7: whatever the writes report (the oracle of the channel is
    arbitrary: failures, short counts), send attempts every chunk of the
    finalized buffer in order, exactly as on any other channel with the
    same history; afterwards the builder is in its reset state and
    zvgFrameSend returns 0.  serial_send's own result, 1 or 0 for the
    last write alone, is dropped. *)
Theorem send_does_not_propagate_write_failures :
  forall ch st,
    0 <= s_cmd_offs st <= CMD_BUF_SIZE - 8 ->
    exists st' ch' result,
      serial_send ch st = Ok (st', ch', result) /\
      (result = 0 \/ result = 1) /\
      zvgFrameSend ch st = Ok (st', ch', 0) /\
      ch_log ch' = ch_log ch ++ spec_chunks (s_cmd_buf st') 0 (s_cmd_offs st + 8) /\
      concat (spec_chunks (s_cmd_buf st') 0 (s_cmd_offs st + 8))
        = buf_read (s_cmd_buf st') 0 (s_cmd_offs st + 8) /\
      st' = cmd_reset (finalized st) /\
      s_cmd_offs st' = 4 /\ s_vector_length st' = 0 /\
      (s_last_x st', s_last_y st') = (INT_MIN, INT_MIN) /\
      (s_last_r st', s_last_g st', s_last_b st') = (0, 0, 0) /\
      (forall oracle2,
          exists ch2' result2,
            serial_send (mkChannel (ch_log ch) oracle2) st = Ok (st', ch2', result2) /\
            zvgFrameSend (mkChannel (ch_log ch) oracle2) st = Ok (st', ch2', 0) /\
            ch_log ch2' = ch_log ch').
Proof.
  intros ch st H.
  destruct (serial_send_spec ch st H) as (result & Hsend & Hres).
  eexists. eexists. exists result.
  split; [exact Hsend|]. split; [exact Hres|].
  split; [unfold zvgFrameSend; rewrite Hsend; reflexivity|].
  split; [reflexivity|].
  split; [apply (spec_chunks_concat _ (Z.to_nat (s_cmd_offs st + 8))); lia|].
  split; [reflexivity|].
  split; [reflexivity|]. split; [reflexivity|].
  split; [reflexivity|]. split; [reflexivity|].
  intros oracle2.
  destruct (serial_send_spec (mkChannel (ch_log ch) oracle2) st H)
    as (result2 & Hsend2 & _).
  eexists. exists result2.
  split; [exact Hsend2|].
  split; [unfold zvgFrameSend; rewrite Hsend2; reflexivity|].
  reflexivity.
Qed.

Lemma send_does_not_propagate_write_failures_witness :
  0 <= s_cmd_offs state_2492 <= CMD_BUF_SIZE - 8 /\
  exists st' ch',
    zvgFrameSend dead_channel state_2492 = Ok (st', ch', 0) /\
    length (ch_log ch') = 3%nat /\ s_cmd_offs st' = 4.
Proof.
  assert (H : 0 <= s_cmd_offs state_2492 <= CMD_BUF_SIZE - 8).
  { unfold state_2492, CMD_BUF_SIZE. st_simpl. lia. }
  split; [exact H|].
  destruct (send_does_not_propagate_write_failures dead_channel state_2492 H)
    as (st' & ch' & result & _ & _ & Hz & Hlog & _ & _ & Ho & _).
  exists st', ch'. split; [exact Hz|]. split; [|exact Ho].
  rewrite Hlog. cbn [dead_channel ch_log app].
  unfold spec_chunks. rewrite length_fmap, length_seqZ. reflexivity.
Defined.

(** ** The shape of a finalized frame *)

Lemma words_of_cmd_byte_list cmd rest :
  0 <= cmd < 4294967296 ->
  words_of (cmd_byte_list cmd ++ rest) = cmd :: words_of rest.
Proof.
  intros H. unfold cmd_byte_list. cbn [app words_of].
  rewrite word_of_bytes by exact H. reflexivity.
Qed.

(** ** zvgFrameVector on an accepted segment *)

Lemma zvgFrameVector_accept bd fuel a b c d st acc x1 y1 x2 y2 xs ys xe ye :
  0 <= s_cmd_offs st ->
  line_clip fuel st a b c d = Ok (acc, (x1, y1, x2, y2)) ->
  acc <> 0 ->
  CONVX bd x1 = Ok xs -> CONVY bd y1 = Ok ys ->
  CONVX bd x2 = Ok xe -> CONVY bd y2 = Ok ye ->
  exists st',
    zvgFrameVector bd fuel a b c d st = Ok (st', 0) /\
    s_last_x st' = xe /\ s_last_y st' = ye /\
    s_vector_length st'
      = to_int (to_int (s_vector_length st
                        + vector_length (s_last_x st) (s_last_y st)
                            (clamp_dev xs) (clamp_dev ys))
                + vector_length (clamp_dev xs) (clamp_dev ys) xe ye) /\
    (s_last_r st', s_last_g st', s_last_b st') = (s_last_r st, s_last_g st, s_last_b st) /\
    s_serial_fd st' = s_serial_fd st /\
    (s_xmin st', s_xmax st', s_ymin st', s_ymax st')
      = (s_xmin st, s_xmax st, s_ymin st, s_ymax st) /\
    s_cmd_offs st <= s_cmd_offs st' /\
    (s_cmd_offs st' <= CMD_BUF_SIZE - 4 \/ s_cmd_offs st' = s_cmd_offs st) /\
    (s_cmd_offs st <= CMD_BUF_SIZE - 12 ->
     s_cmd_offs st'
       = s_cmd_offs st
         + (if negb (x1 =? s_last_x st) || negb (y1 =? s_last_y st) then 8 else 4)).
Proof.
  intros Ho Hclip Hacc Hxs Hys Hxe Hye.
  unfold zvgFrameVector. rewrite Hclip. st_simpl.
  destruct (Z.eqb_spec acc 0) as [|_]; [contradiction|]. st_simpl.
  rewrite Hxs. st_simpl. rewrite Hys. st_simpl.
  rewrite Hxe. st_simpl. rewrite Hye. st_simpl.
  fold (clamp_dev xs). fold (clamp_dev ys).
  destruct (negb (x1 =? s_last_x st) || negb (y1 =? s_last_y st)).
  - match goal with
    | |- context [push_cmd_guarded ?cmd ?s] =>
        destruct (push_cmd_guarded_spec cmd s) as (o1 & m1 & -> & Ho1); [exact Ho|]
    end.
    st_simpl.
    assert (Ho1' : 0 <= o1).
    { destruct (s_cmd_offs st <=? CMD_BUF_SIZE - 8); lia. }
    match goal with
    | |- context [push_cmd_guarded ?cmd ?s] =>
        destruct (push_cmd_guarded_spec cmd s) as (o2 & m2 & -> & Ho2); [exact Ho1'|]
    end.
    st_simpl. eexists. split; [reflexivity|]. st_simpl.
    repeat (split; [reflexivity|]).
    destruct (Z.leb_spec (s_cmd_offs st) (CMD_BUF_SIZE - 8));
      destruct (Z.leb_spec o1 (CMD_BUF_SIZE - 8)); lia.
  - st_simpl.
    match goal with
    | |- context [push_cmd_guarded ?cmd ?s] =>
        destruct (push_cmd_guarded_spec cmd s) as (o2 & m2 & -> & Ho2); [exact Ho|]
    end.
    st_simpl. eexists. split; [reflexivity|]. st_simpl.
    repeat (split; [reflexivity|]).
    destruct (Z.leb_spec (s_cmd_offs st) (CMD_BUF_SIZE - 8)); lia.
Qed.

(** What any returning call of zvgFrameVector leaves of the offset. *)
Lemma zvgFrameVector_offs bd fuel a b c d st st' r :
  0 <= s_cmd_offs st ->
  zvgFrameVector bd fuel a b c d st = Ok (st', r) ->
  s_cmd_offs st <= s_cmd_offs st' /\
  (s_cmd_offs st' <= CMD_BUF_SIZE - 4 \/ s_cmd_offs st' = s_cmd_offs st).
Proof.
  intros Ho Hrun.
  destruct (line_clip fuel st a b c d) as [[acc [[[x1 y1] x2] y2]]| |] eqn:Hclip;
    [|unfold zvgFrameVector in Hrun; rewrite Hclip in Hrun; discriminate Hrun ..].
  destruct (Z.eq_dec acc 0) as [->|Hacc].
  { unfold zvgFrameVector in Hrun. rewrite Hclip in Hrun. st_simpl.
    cbn [Z.eqb negb] in Hrun. injection Hrun as <- _. lia. }
  destruct (CONVX bd x1) as [xs| |] eqn:Hxs;
    [|unfold zvgFrameVector in Hrun; rewrite Hclip in Hrun; st_simpl;
      destruct (negb (acc =? 0)); [rewrite Hxs in Hrun|]; st_simpl; try discriminate Hrun;
      injection Hrun as <- _; lia ..].
  destruct (CONVY bd y1) as [ys| |] eqn:Hys;
    [|unfold zvgFrameVector in Hrun; rewrite Hclip in Hrun; st_simpl;
      destruct (negb (acc =? 0)); [rewrite Hxs in Hrun; st_simpl; rewrite Hys in Hrun|];
      st_simpl; try discriminate Hrun; injection Hrun as <- _; lia ..].
  destruct (CONVX bd x2) as [xe| |] eqn:Hxe;
    [|unfold zvgFrameVector in Hrun; rewrite Hclip in Hrun; st_simpl;
      destruct (negb (acc =? 0));
      [rewrite Hxs in Hrun; st_simpl; rewrite Hys in Hrun; st_simpl; rewrite Hxe in Hrun|];
      st_simpl; try discriminate Hrun; injection Hrun as <- _; lia ..].
  destruct (CONVY bd y2) as [ye| |] eqn:Hye;
    [|unfold zvgFrameVector in Hrun; rewrite Hclip in Hrun; st_simpl;
      destruct (negb (acc =? 0));
      [rewrite Hxs in Hrun; st_simpl; rewrite Hys in Hrun; st_simpl;
       rewrite Hxe in Hrun; st_simpl; rewrite Hye in Hrun|];
      st_simpl; try discriminate Hrun; injection Hrun as <- _; lia ..].
  destruct (zvgFrameVector_accept bd fuel a b c d st acc x1 y1 x2 y2 xs ys xe ye
              Ho Hclip Hacc Hxs Hys Hxe Hye)
    as (st2 & Hrun2 & _ & _ & _ & _ & _ & _ & H1 & H2 & _).
  rewrite Hrun2 in Hrun. injection Hrun as <- _. auto.
Qed.

(** A run of building calls keeps the offset between the header and the
    last word of the buffer, and never touches the channel. *)
Lemma run_build_offs bd fuel ops : forall st ch st' ch',
  Forall build_op ops ->
  4 <= s_cmd_offs st <= CMD_BUF_SIZE - 4 ->
  run bd fuel ops (st, ch) = Ok (st', ch') ->
  4 <= s_cmd_offs st' <= CMD_BUF_SIZE - 4 /\ ch' = ch.
Proof.
  induction ops as [|o ops IH]; intros st ch st' ch' Hb Ho Hrun.
  - cbn [run] in Hrun. injection Hrun as <- <-. auto.
  - apply Forall_cons in Hb as [Hb1 Hb].
    cbn [run] in Hrun.
    destruct o; cbn [build_op] in Hb1; try contradiction; cbn [exec] in Hrun.
    + destruct (zvgFrameSetRGB15_spec red green blue st)
        as (st1 & Hst1 & _ & _ & _ & _ & _ & _ & _ & _ & Ho1); [lia|].
      rewrite Hst1 in Hrun. st_simpl.
      apply (IH st1 ch st' ch' Hb); [|exact Hrun].
      destruct (Z.leb_spec (s_cmd_offs st) (CMD_BUF_SIZE - 8)); lia.
    + destruct (zvgFrameVector bd fuel xStart yStart xEnd yEnd st)
        as [[st1 r]| |] eqn:Hv; st_simpl; try discriminate Hrun.
      apply zvgFrameVector_offs in Hv; [|lia].
      apply (IH st1 ch st' ch' Hb); [lia|exact Hrun].
Qed.

Lemma compute_code_inside st x y :
  s_xmin st <= x <= s_xmax st -> s_ymin st <= y <= s_ymax st ->
  compute_code st x y = 0.
Proof.
  intros Hx Hy. unfold compute_code.
  destruct (Z.ltb_spec x (s_xmin st)); [lia|].
  destruct (Z.gtb_spec x (s_xmax st)); [lia|].
  destruct (Z.ltb_spec y (s_ymin st)); [lia|].
  destruct (Z.gtb_spec y (s_ymax st)); [lia|]. reflexivity.
Qed.

(** A segment with both ends inside the window is accepted unchanged. *)
Lemma line_clip_inside fuel st x1 y1 x2 y2 :
  s_xmin st <= x1 <= s_xmax st -> s_ymin st <= y1 <= s_ymax st ->
  s_xmin st <= x2 <= s_xmax st -> s_ymin st <= y2 <= s_ymax st ->
  line_clip (S fuel) st x1 y1 x2 y2 = Ok (1, (x1, y1, x2, y2)).
Proof.
  intros. unfold line_clip.
  rewrite !compute_code_inside by assumption. reflexivity.
Qed.

(** Within capacity, and with the offset past the header, send writes
    the FRAME word, the commands of the frame, QUALITY and COMPLETE. *)
Lemma send_frame_bytes ch st :
  4 <= s_cmd_offs st <= CMD_BUF_SIZE - 8 ->
  exists st' writes,
    zvgFrameSend ch st = Ok (st', mkChannel (ch_log ch ++ writes) (ch_oracle ch), 0) /\
    concat writes
    = cmd_byte_list (frame_cmd (s_vector_length st))
      ++ buf_read (s_cmd_buf st) 4 (s_cmd_offs st - 4)
      ++ cmd_byte_list quality_cmd ++ cmd_byte_list complete_cmd.
Proof.
  intros H.
  destruct (serial_send_spec ch st) as (result & Hsend & _); [lia|].
  unfold zvgFrameSend. rewrite Hsend. st_simpl.
  eexists. eexists. split; [reflexivity|].
  rewrite (spec_chunks_concat _ (Z.to_nat (s_cmd_offs st + 8))) by lia.
  apply finalized_frame_bytes. lia.
Qed.

(** C5, amended: for every sequence of colour and vector calls since a
    reset that leaves room for the two trailing words (offset at most
    CMD_BUF_SIZE - 8), the bytes written by send are the FRAME word, the
    commands appended, the QUALITY word with payload 5 and the COMPLETE
    word with payload 0.  The low 29 bits of the first word are the
    accumulated path length modulo 2^29; it is a FRAME word carrying the
    path length itself whenever that length is below 2^29. *)
Theorem frame_begins_with_length_ends_with_quality_complete :
  forall bd fuel ops st0 ch0 st ch,
    Forall build_op ops ->
    run bd fuel ops (cmd_reset st0, ch0) = Ok (st, ch) ->
    s_cmd_offs st <= CMD_BUF_SIZE - 8 ->
    exists st' ch' frame,
      zvgFrameSend ch st = Ok (st', ch', 0) /\
      concat (drop (length (ch_log ch)) (ch_log ch')) = frame /\
      frame = cmd_byte_list (frame_cmd (s_vector_length st))
              ++ buf_read (s_cmd_buf st) 4 (s_cmd_offs st - 4)
              ++ cmd_byte_list quality_cmd ++ cmd_byte_list complete_cmd /\
      hd 0 (words_of frame) = frame_cmd (s_vector_length st) /\
      words_of (cmd_byte_list quality_cmd ++ cmd_byte_list complete_cmd)
        = [quality_cmd; complete_cmd] /\
      cmd_payload (frame_cmd (s_vector_length st)) = s_vector_length st mod 536870912 /\
      (0 <= s_vector_length st < 536870912 ->
       cmd_tag (frame_cmd (s_vector_length st)) = FLAG_FRAME /\
       cmd_payload (frame_cmd (s_vector_length st)) = s_vector_length st) /\
      (cmd_tag quality_cmd, cmd_payload quality_cmd) = (FLAG_QUALITY, 5) /\
      (cmd_tag complete_cmd, cmd_payload complete_cmd) = (FLAG_COMPLETE, 0).
Proof.
  intros bd fuel ops st0 ch0 st ch Hops Hrun Hroom.
  destruct (run_build_offs bd fuel ops (cmd_reset st0) ch0 st ch Hops) as [Ho _].
  { st_simpl. unfold CMD_BUF_SIZE. lia. }
  { exact Hrun. }
  destruct (send_frame_bytes ch st) as (st' & writes & Hsend & Hbytes); [lia|].
  eexists. eexists. eexists. split; [exact Hsend|].
  cbn [ch_log]. rewrite drop_app_length.
  split; [reflexivity|]. split; [exact Hbytes|].
  split.
  { rewrite Hbytes. rewrite words_of_cmd_byte_list by apply to_u32_range. reflexivity. }
  split; [reflexivity|].
  split; [apply frame_cmd_payload|].
  split.
  { intros Hlen. split; [apply frame_cmd_tag; exact Hlen|].
    rewrite frame_cmd_payload. apply Z.mod_small. exact Hlen. }
  split; reflexivity.
Qed.

Lemma frame_begins_with_length_ends_with_quality_complete_witness :
  Forall build_op [OpSetRGB15 31 0 0; OpVector 0 0 500 500] /\
  run scenario_bounds 5 [OpSetRGB15 31 0 0; OpVector 0 0 500 500]
      (cmd_reset (zvgFrameSetClipWin 0 0 1000 1000 init_state), good_channel)
    = Ok (scenario_built, good_channel) /\
  s_cmd_offs scenario_built <= CMD_BUF_SIZE - 8 /\
  0 <= s_vector_length scenario_built < 536870912 /\
  exists st' ch' frame,
    zvgFrameSend good_channel scenario_built = Ok (st', ch', 0) /\
    concat (drop (length (ch_log good_channel)) (ch_log ch')) = frame /\
    hd 0 (words_of frame) = frame_cmd (s_vector_length scenario_built) /\
    cmd_tag (frame_cmd (s_vector_length scenario_built)) = FLAG_FRAME /\
    cmd_payload (frame_cmd (s_vector_length scenario_built))
      = s_vector_length scenario_built.
Proof.
  assert (Hops : Forall build_op [OpSetRGB15 31 0 0; OpVector 0 0 500 500]).
  { repeat constructor. }
  assert (Hrun : run scenario_bounds 5 [OpSetRGB15 31 0 0; OpVector 0 0 500 500]
                   (cmd_reset (zvgFrameSetClipWin 0 0 1000 1000 init_state), good_channel)
                 = Ok (scenario_built, good_channel)).
  { vm_compute. reflexivity. }
  assert (Hroom : s_cmd_offs scenario_built <= CMD_BUF_SIZE - 8).
  { vm_compute. discriminate. }
  assert (Hlen : 0 <= s_vector_length scenario_built < 536870912).
  { vm_compute. split; [discriminate|reflexivity]. }
  split; [exact Hops|]. split; [exact Hrun|]. split; [exact Hroom|].
  split; [exact Hlen|].
  destruct (frame_begins_with_length_ends_with_quality_complete
              scenario_bounds 5 [OpSetRGB15 31 0 0; OpVector 0 0 500 500]
              (zvgFrameSetClipWin 0 0 1000 1000 init_state) good_channel
              scenario_built good_channel Hops Hrun Hroom)
    as (st' & ch' & frame & Hsend & Hlog & _ & Hhd & _ & _ & Hsmall & _).
  exists st', ch', frame.
  split; [exact Hsend|]. split; [exact Hlog|]. split; [exact Hhd|].
  apply Hsmall. exact Hlen.
Defined.

Lemma long_path_step fuel st n :
  1 <= n < 16000 -> long_path_inv n st ->
  exists st',
    zvgFrameVector scenario_bounds (S fuel) 0 0 11000 0 st = Ok (st', 0) /\
    long_path_inv (n + 1) st'.
Proof.
  intros Hn (Hwin & Hlast & Hlen & Hoffs).
  injection Hwin as Hxmin Hxmax Hymin Hymax.
  injection Hlast as Hlx Hly.
  destruct (zvgFrameVector_accept scenario_bounds (S fuel) 0 0 11000 0 st
              1 0 0 11000 0 0 0 45045 0)
    as (st' & Hrun & Hx & Hy & Hv & _ & _ & Hw & _ & _ & Ho).
  - lia.
  - apply line_clip_inside; lia.
  - discriminate.
  - reflexivity.
  - reflexivity.
  - reflexivity.
  - reflexivity.
  - exists st'. split; [exact Hrun|].
    unfold long_path_inv. rewrite Hw, Hx, Hy, Hxmin, Hxmax, Hymin, Hymax.
    split; [reflexivity|]. split; [reflexivity|].
    split.
    + rewrite Hv, Hlx, Hly, Hlen.
      change (clamp_dev 0) with 0.
      change (vector_length 45045 0 0 0) with 45045.
      change (vector_length 0 0 45045 0) with 45045.
      rewrite (to_int_id (90090 * n - 45045 + 45045)) by (unfold INT_MIN, INT_MAX; lia).
      rewrite to_int_id by (unfold INT_MIN, INT_MAX; lia). lia.
    + rewrite Ho by (unfold CMD_BUF_SIZE; lia).
      rewrite Hlx. change (negb (0 =? 45045) || negb (0 =? s_last_y st)) with true.
      cbn match. lia.
Qed.

Lemma long_path_run fuel ch k : forall st n,
  1 <= n -> n + Z.of_nat k <= 16000 -> long_path_inv n st ->
  exists st',
    run scenario_bounds (S fuel) (repeat (OpVector 0 0 11000 0) k) (st, ch) = Ok (st', ch) /\
    long_path_inv (n + Z.of_nat k) st'.
Proof.
  induction k as [|k IH]; intros st n Hn Hk Hinv.
  - exists st. split; [reflexivity|]. replace (n + Z.of_nat 0) with n by lia. exact Hinv.
  - destruct (long_path_step fuel st n) as (st1 & Hstep & Hinv1); [lia|exact Hinv|].
    destruct (IH st1 (n + 1)) as (st' & Hrun & Hinv'); [lia|lia|exact Hinv1|].
    exists st'. cbn [repeat run exec]. rewrite Hstep. st_simpl.
    split; [exact Hrun|].
    replace (n + Z.of_nat (S k)) with (n + 1 + Z.of_nat k) by lia. exact Hinv'.
Qed.

(** C5, the claim as stated fails: after 5960 of the long vectors the
    frame still fits the buffer, the accumulated path length is
    536891355, above 2^29 - 1, and the first word sent has tag 5, not
    FRAME, and payload 20443, not the path length. *)
Lemma long_path_first_word_is_not_frame_length :
  exists st st' ch',
    run scenario_bounds 5 long_path_ops (init_state, good_channel)
      = Ok (st, good_channel) /\
    s_cmd_offs st <= CMD_BUF_SIZE - 8 /\
    s_vector_length st = 536891355 /\
    zvgFrameSend good_channel st = Ok (st', ch', 0) /\
    cmd_tag (hd 0 (words_of (concat (ch_log ch')))) = 5 /\
    cmd_tag (hd 0 (words_of (concat (ch_log ch')))) <> FLAG_FRAME /\
    cmd_payload (hd 0 (words_of (concat (ch_log ch')))) = 20443 /\
    cmd_payload (hd 0 (words_of (concat (ch_log ch')))) <> s_vector_length st.
Proof.
  unfold long_path_ops.
  replace (Z.to_nat 5960) with (S (Z.to_nat 5959)) by lia.
  cbn [repeat].
  assert (H1 : exists st1,
             run scenario_bounds 5
               [OpOpen OpenOk; OpSetClipWin 0 0 11000 11000; OpVector 0 0 11000 0]
               (init_state, good_channel) = Ok (st1, good_channel) /\
             long_path_inv 1 st1).
  { eexists. split; [vm_compute; reflexivity|]. repeat split. }
  destruct H1 as (st1 & Hrun1 & Hinv1).
  destruct (long_path_run 4 good_channel (Z.to_nat 5959) st1 1)
    as (st & Hrun & Hinv); [lia|lia|exact Hinv1|].
  destruct Hinv as (_ & _ & Hlen & Hoffs).
  destruct (send_frame_bytes good_channel st) as (st' & writes & Hsend & Hbytes).
  { unfold CMD_BUF_SIZE. lia. }
  eexists st, st', _.
  split.
  { change (OpOpen OpenOk :: OpSetClipWin 0 0 11000 11000 :: OpVector 0 0 11000 0
            :: repeat (OpVector 0 0 11000 0) (Z.to_nat 5959))
      with ([OpOpen OpenOk; OpSetClipWin 0 0 11000 11000; OpVector 0 0 11000 0]
            ++ repeat (OpVector 0 0 11000 0) (Z.to_nat 5959)).
    rewrite run_app, Hrun1. st_simpl. exact Hrun. }
  split; [unfold CMD_BUF_SIZE; lia|].
  split; [lia|].
  split; [exact Hsend|].
  cbn [ch_log good_channel app]. rewrite Hbytes.
  rewrite words_of_cmd_byte_list by apply to_u32_range.
  cbn [hd]. rewrite Hlen.
  replace (90090 * (1 + Z.of_nat (Z.to_nat 5959)) - 45045) with 536891355 by lia.
  vm_compute. repeat split; discriminate.
Qed.

(** ** Region codes *)

Ltac split_code x y st :=
  unfold compute_code, is_left, is_right, is_bottom, is_top;
  destruct (Z.ltb_spec x (s_xmin st)); [|destruct (Z.gtb_spec x (s_xmax st))];
  (destruct (Z.ltb_spec y (s_ymin st)); [|destruct (Z.gtb_spec y (s_ymax st))]).

Ltac cmp_bools :=
  repeat (match goal with
          | |- context [?a <=? ?b] => destruct (Z.leb_spec a b); try lia
          | |- context [?a <? ?b] => destruct (Z.ltb_spec a b); try lia
          end; cbn [andb orb negb]).

Lemma code_left st x y :
  negb (Z.land (compute_code st x y) LEFT =? 0) = is_left st x.
Proof. split_code x y st; cmp_bools; reflexivity. Qed.

Lemma code_right st x y :
  negb (Z.land (compute_code st x y) RIGHT =? 0) = is_right st x.
Proof. split_code x y st; cmp_bools; reflexivity. Qed.

Lemma code_bottom st x y :
  negb (Z.land (compute_code st x y) BOTTOM =? 0) = is_bottom st y.
Proof. split_code x y st; cmp_bools; reflexivity. Qed.

Lemma code_top st x y :
  negb (Z.land (compute_code st x y) TOP =? 0) = is_top st y.
Proof. split_code x y st; cmp_bools; reflexivity. Qed.

Lemma code_zero st x y :
  (compute_code st x y =? 0)
  = negb (is_left st x || is_right st x || is_bottom st y || is_top st y).
Proof. split_code x y st; cmp_bools; reflexivity. Qed.

Lemma code_shared st x1 y1 x2 y2 :
  negb (Z.land (compute_code st x1 y1) (compute_code st x2 y2) =? 0)
  = (is_left st x1 && is_left st x2) || (is_right st x1 && is_right st x2)
    || (is_bottom st y1 && is_bottom st y2) || (is_top st y1 && is_top st y2).
Proof.
  split_code x1 y1 st;
    (destruct (Z.ltb_spec x2 (s_xmin st)); [|destruct (Z.gtb_spec x2 (s_xmax st))]);
    (destruct (Z.ltb_spec y2 (s_ymin st)); [|destruct (Z.gtb_spec y2 (s_ymax st))]);
    cmp_bools; reflexivity.
Qed.

(** ** Truncating division along a segment *)

Lemma to_int_zero z : -4294967296 < z < 4294967296 -> to_int z = 0 -> z = 0.
Proof.
  unfold to_int. intros H H0.
  pose proof (Z.div_mod (z + 2147483648) 4294967296 ltac:(lia)).
  lia.
Qed.

Lemma quot_between_pos D n d :
  0 < d -> 0 <= n <= d ->
  (0 <= D -> 0 <= (D * n) ÷ d <= D) /\ (D <= 0 -> D <= (D * n) ÷ d <= 0).
Proof.
  intros Hd Hn.
  assert (Hpos : forall E, 0 <= E -> 0 <= (E * n) ÷ d <= E).
  { intros E HE. rewrite Z.quot_div_nonneg by nia. split.
    - apply Z.div_pos; nia.
    - apply Z.div_le_upper_bound; nia. }
  split; intros HD.
  - apply Hpos. exact HD.
  - replace (D * n) with (- ((- D) * n)) by lia.
    rewrite Z.quot_opp_l by lia.
    pose proof (Hpos (- D) ltac:(lia)). lia.
Qed.

Lemma quot_between D n d :
  (0 < d /\ 0 <= n <= d) \/ (d < 0 /\ d <= n <= 0) ->
  (0 <= D -> 0 <= (D * n) ÷ d <= D) /\ (D <= 0 -> D <= (D * n) ÷ d <= 0).
Proof.
  intros [[Hd Hn]|[Hd Hn]].
  - apply quot_between_pos; assumption.
  - replace (D * n) with (- (D * (- n))) by lia.
    replace d with (- (- d)) by lia.
    rewrite Z.quot_opp_opp by lia.
    apply quot_between_pos; lia.
Qed.

(** The interpolated coordinate lies between the two end coordinates
    when the boundary lies between the ends on the other axis. *)
Lemma interp_between a1 a2 b1 b2 bnd :
  (b1 < b2 /\ b1 <= bnd <= b2) \/ (b2 < b1 /\ b2 <= bnd <= b1) ->
  Z.min a1 a2 <= interp a1 a2 b1 b2 bnd <= Z.max a1 a2.
Proof.
  intros H. unfold interp.
  destruct (quot_between (a2 - a1) (bnd - b1) (b2 - b1)) as [Hp Hn]; [lia|].
  destruct (Z.le_gt_cases a1 a2).
  - specialize (Hp ltac:(lia)). lia.
  - specialize (Hn ltac:(lia)). lia.
Qed.

Lemma quot_abs_le a d : d <> 0 -> - Z.abs a <= a ÷ d <= Z.abs a.
Proof.
  intros Hd.
  assert (Z.abs (a ÷ d) <= Z.abs a); [|lia].
  rewrite <- Z.quot_abs by exact Hd.
  rewrite Z.quot_div_nonneg by lia.
  apply Z.div_le_upper_bound; nia.
Qed.

(** ** One pass of the clipping loop *)

(** The pass as a decision: stop with accept, stop with reject, or
    replace point 1 if its code is non-zero and point 2 otherwise. *)
Lemma line_clip_iter_cases st v :
  line_clip_iter st v =
    if (cv_code1 v =? 0) && (cv_code2 v =? 0) then Ok (ClipBreak 1)
    else if negb (Z.land (cv_code1 v) (cv_code2 v) =? 0) then Ok (ClipBreak 0)
    else
      p ← clip_intersect st v (if negb (cv_code1 v =? 0) then cv_code1 v else cv_code2 v);
      Ok (ClipContinue (spec_replace st v p)).
Proof.
  unfold line_clip_iter, spec_replace.
  destruct (Z.eqb_spec (cv_code1 v) 0) as [H1|H1];
    destruct (Z.eqb_spec (cv_code2 v) 0) as [H2|H2]; cbn [andb negb]; try reflexivity;
    destruct (negb (Z.land (cv_code1 v) (cv_code2 v) =? 0)); try reflexivity.
  - destruct (clip_intersect st v (cv_code2 v)) as [[x y]| |]; st_simpl; try reflexivity.
    destruct (Z.eqb_spec (cv_code2 v) (cv_code1 v)) as [He|He]; [congruence|reflexivity].
  - destruct (clip_intersect st v (cv_code1 v)) as [[x y]| |]; st_simpl; try reflexivity.
    rewrite Z.eqb_refl. reflexivity.
  - destruct (clip_intersect st v (cv_code1 v)) as [[x y]| |]; st_simpl; try reflexivity.
    rewrite Z.eqb_refl. reflexivity.
Qed.

(** clip_intersect picks the first boundary of the priority list. *)
Lemma clip_intersect_first_boundary st v code :
  clip_intersect st v code =
    match spec_first_boundary code with
    | Some b =>
        if (b =? TOP) || (b =? BOTTOM) then
          q ← int_div (to_int (to_int (cv_x2 v - cv_x1 v)
                               * to_int ((if b =? TOP then s_ymax st else s_ymin st) - cv_y1 v)))
                      (to_int (cv_y2 v - cv_y1 v));
          Ok (to_int (cv_x1 v + q), if b =? TOP then s_ymax st else s_ymin st)
        else
          q ← int_div (to_int (to_int (cv_y2 v - cv_y1 v)
                               * to_int ((if b =? RIGHT then s_xmax st else s_xmin st) - cv_x1 v)))
                      (to_int (cv_x2 v - cv_x1 v));
          Ok (if b =? RIGHT then s_xmax st else s_xmin st, to_int (cv_y1 v + q))
    | None => Ok (cv_x v, cv_y v)
    end.
Proof.
  unfold clip_intersect, spec_first_boundary. cbn [find].
  destruct (negb (Z.land code TOP =? 0)); [reflexivity|].
  destruct (negb (Z.land code BOTTOM =? 0)); [reflexivity|].
  destruct (negb (Z.land code RIGHT =? 0)); [reflexivity|].
  destruct (negb (Z.land code LEFT =? 0)); reflexivity.
Qed.

Ltac regions :=
  repeat (progress (rewrite ?code_zero, ?code_shared, ?code_top, ?code_bottom,
                            ?code_right, ?code_left;
                    unfold is_left, is_right, is_bottom, is_top;
                    cmp_bools)).

(** Between two distinct ints the divisor is not zero: the division
    gives a quotient or overflows. *)
Lemma int_div_ints a b1 b2 :
  is_int b1 -> is_int b2 -> b1 <> b2 ->
  int_div a (to_int (b2 - b1)) = Ok (to_int (Z.quot a (to_int (b2 - b1)))) \/
  int_div a (to_int (b2 - b1)) = Fault DivOverflow.
Proof.
  unfold is_int, INT_MIN, INT_MAX. intros H1 H2 Hne. unfold int_div.
  destruct (Z.eqb_spec (to_int (b2 - b1)) 0) as [Hz|Hz].
  - apply to_int_zero in Hz; lia.
  - destruct ((a =? INT_MIN) && (to_int (b2 - b1) =? -1)); auto.
Qed.

Ltac split_int_div :=
  match goal with
  | |- context [int_div ?a (to_int (?b2 - ?b1))] =>
      let H := fresh "Hdiv" in
      assert (H : int_div a (to_int (b2 - b1))
                  = Ok (to_int (Z.quot a (to_int (b2 - b1)))) \/
                  int_div a (to_int (b2 - b1)) = Fault DivOverflow)
        by (apply int_div_ints; (assumption || lia));
      destruct H as [H|H]; rewrite H; clear H
  end.

(** From consistent codes over ints, a pass either stops, or continues
    with consistent codes over ints, or its division overflows: the
    divisor is never zero. *)
Lemma line_clip_iter_progress st v :
  window_ints st -> points_ints v -> codes_consistent st v ->
  match line_clip_iter st v with
  | Ok (ClipBreak a) => (a = 0 \/ a = 1) /\ clip_done v = true
  | Ok (ClipContinue v') =>
      points_ints v' /\ codes_consistent st v' /\ clip_done v = false
  | Fault f => f = DivOverflow
  | OutOfFuel => False
  end.
Proof.
  destruct v as [x y x1 y1 x2 y2 c1 c2].
  intros (Hw1 & Hw2 & Hw3 & Hw4) (Hx1 & Hy1 & Hx2 & Hy2) [Hc1 Hc2].
  cbn [cv_x1 cv_y1 cv_x2 cv_y2 cv_code1 cv_code2] in *. subst c1 c2.
  rewrite line_clip_iter_cases, clip_intersect_first_boundary.
  unfold clip_done, spec_first_boundary, spec_replace, points_ints, codes_consistent.
  cbn [cv_x cv_y cv_x1 cv_y1 cv_x2 cv_y2 cv_code1 cv_code2 find].
  regions; auto;
    cbn [Z.eqb Pos.eqb TOP BOTTOM RIGHT LEFT orb];
    split_int_div; st_simpl; try reflexivity;
    cbn [cv_x cv_y cv_x1 cv_y1 cv_x2 cv_y2 cv_code1 cv_code2];
    repeat match goal with |- _ /\ _ => split end;
    try assumption; try apply to_int_range; reflexivity.
Qed.

(** Over ints the loop never divides by zero and stores nothing: the
    one fault it can raise is the overflowing division. *)
Lemma line_clip_loop_faults_ints st fuel : forall v,
  window_ints st -> points_ints v -> codes_consistent st v ->
  forall f, line_clip_loop fuel st v = Fault f -> f = DivOverflow.
Proof.
  induction fuel as [|fuel IH]; intros v Hw Hp Hc f; [discriminate|].
  cbn [line_clip_loop].
  pose proof (line_clip_iter_progress st v Hw Hp Hc) as Hit.
  destruct (line_clip_iter st v) as [[a|v']|f'|]; st_simpl; try contradiction.
  - discriminate.
  - destruct Hit as (Hp' & Hc' & _). apply IH; assumption.
  - intros Hf. injection Hf as <-. exact Hit.
Qed.

(** With consistent codes, a pass that is not about to stop has a
    boundary to intersect. *)
Lemma clip_first_boundary_defined st v :
  codes_consistent st v -> clip_done v = false ->
  exists b,
    spec_first_boundary (if negb (cv_code1 v =? 0) then cv_code1 v else cv_code2 v)
      = Some b.
Proof.
  destruct v as [x y x1 y1 x2 y2 c1 c2]. intros [Hc1 Hc2].
  cbn [cv_x1 cv_y1 cv_x2 cv_y2 cv_code1 cv_code2] in *. subst c1 c2.
  unfold clip_done, spec_first_boundary.
  cbn [cv_x cv_y cv_x1 cv_y1 cv_x2 cv_y2 cv_code1 cv_code2 find].
  regions; intros Hdone; try discriminate Hdone; eexists; reflexivity.
Qed.

(** A pass that continues has replaced the preferred point by a point of
    the first boundary its code names, whatever the arithmetic did. *)
Lemma line_clip_iter_continue st v v' :
  codes_consistent st v ->
  line_clip_iter st v = Ok (ClipContinue v') ->
  exists b p,
    spec_first_boundary (if negb (cv_code1 v =? 0) then cv_code1 v else cv_code2 v)
      = Some b /\
    on_boundary st b p /\ v' = spec_replace st v p.
Proof.
  destruct v as [x y x1 y1 x2 y2 c1 c2]. intros [Hc1 Hc2].
  cbn [cv_x1 cv_y1 cv_x2 cv_y2 cv_code1 cv_code2] in *. subst c1 c2.
  rewrite line_clip_iter_cases, clip_intersect_first_boundary.
  unfold spec_first_boundary.
  cbn [cv_x cv_y cv_x1 cv_y1 cv_x2 cv_y2 cv_code1 cv_code2 find].
  regions; intros Hit; try discriminate Hit;
    cbn [Z.eqb Pos.eqb TOP BOTTOM RIGHT LEFT orb] in Hit;
    match type of Hit with
    | context [int_div ?a ?b] => destruct (int_div a b) as [q| |]
    end; st_simpl; try discriminate Hit;
    injection Hit as <-;
    (eexists; eexists; split; [reflexivity|]);
    (split; [|reflexivity]); reflexivity.
Qed.

Lemma clip_safe_is_int z : clip_safe z -> is_int z.
Proof. unfold clip_safe, CLIP_SAFE, is_int, INT_MIN, INT_MAX. lia. Qed.

Lemma window_safe_ints st : window_safe st -> window_ints st.
Proof.
  intros (H1 & H2 & H3 & H4).
  repeat split; apply clip_safe_is_int; assumption.
Qed.

Lemma points_safe_ints v : points_safe v -> points_ints v.
Proof.
  intros (H1 & H2 & H3 & H4).
  repeat split; apply clip_safe_is_int; assumption.
Qed.

Lemma clip_safe_exact a1 a2 b1 b2 bnd :
  clip_safe a1 -> clip_safe a2 -> clip_safe b1 -> clip_safe b2 -> clip_safe bnd ->
  b1 <> b2 ->
  int_div (to_int (to_int (a2 - a1) * to_int (bnd - b1))) (to_int (b2 - b1))
  = Ok (((a2 - a1) * (bnd - b1)) ÷ (b2 - b1)).
Proof.
  unfold clip_safe, CLIP_SAFE. intros Ha1 Ha2 Hb1 Hb2 Hbnd Hne.
  rewrite (to_int_id (a2 - a1)) by (unfold INT_MIN, INT_MAX; lia).
  rewrite (to_int_id (bnd - b1)) by (unfold INT_MIN, INT_MAX; lia).
  rewrite (to_int_id (b2 - b1)) by (unfold INT_MIN, INT_MAX; lia).
  assert (Hprod : -2147395600 <= (a2 - a1) * (bnd - b1) <= 2147395600) by nia.
  rewrite (to_int_id ((a2 - a1) * (bnd - b1))) by (unfold INT_MIN, INT_MAX; lia).
  unfold int_div. destruct (Z.eqb_spec (b2 - b1) 0) as [Hz|Hz]; [lia|].
  destruct (Z.eqb_spec ((a2 - a1) * (bnd - b1)) INT_MIN) as [Hm|_];
    [unfold INT_MIN in Hm; lia|]. cbn [andb].
  pose proof (quot_abs_le ((a2 - a1) * (bnd - b1)) (b2 - b1) Hz).
  rewrite to_int_id by (unfold INT_MIN, INT_MAX; lia). reflexivity.
Qed.

Lemma clip_safe_sum a1 a2 b1 b2 bnd :
  clip_safe a1 -> clip_safe a2 -> clip_safe b1 -> clip_safe b2 -> clip_safe bnd ->
  b1 <> b2 ->
  to_int (a1 + ((a2 - a1) * (bnd - b1)) ÷ (b2 - b1)) = interp a1 a2 b1 b2 bnd.
Proof.
  unfold clip_safe, CLIP_SAFE. intros Ha1 Ha2 Hb1 Hb2 Hbnd Hne.
  assert (Hprod : -2147395600 <= (a2 - a1) * (bnd - b1) <= 2147395600) by nia.
  pose proof (quot_abs_le ((a2 - a1) * (bnd - b1)) (b2 - b1) ltac:(lia)).
  unfold interp. apply to_int_id. unfold INT_MIN, INT_MAX. lia.
Qed.

(** With coordinates in the safe range, a pass that does not stop
    replaces the preferred point by the spec's intersection with the
    first boundary its code names, computed without any wrap-around. *)
Lemma line_clip_iter_safe st v :
  window_safe st -> points_safe v -> codes_consistent st v ->
  clip_done v = false ->
  exists b,
    spec_first_boundary (if negb (cv_code1 v =? 0) then cv_code1 v else cv_code2 v)
      = Some b /\
    line_clip_iter st v
      = Ok (ClipContinue
              (spec_replace st v
                 (spec_intersection st (cv_x1 v) (cv_y1 v) (cv_x2 v) (cv_y2 v) b))).
Proof.
  destruct v as [x y x1 y1 x2 y2 c1 c2].
  intros (Hw1 & Hw2 & Hw3 & Hw4) (Hx1 & Hy1 & Hx2 & Hy2) [Hc1 Hc2].
  cbn [cv_x1 cv_y1 cv_x2 cv_y2 cv_code1 cv_code2] in *. subst c1 c2.
  rewrite line_clip_iter_cases, clip_intersect_first_boundary.
  unfold clip_done, spec_first_boundary.
  cbn [cv_x cv_y cv_x1 cv_y1 cv_x2 cv_y2 cv_code1 cv_code2 find].
  regions; intros Hdone; try discriminate Hdone;
    (eexists; split; [reflexivity|]);
    cbn [Z.eqb Pos.eqb TOP BOTTOM RIGHT LEFT orb];
    (rewrite clip_safe_exact by (assumption || lia)); st_simpl;
    (rewrite clip_safe_sum by (assumption || lia));
    reflexivity.
Qed.

(** With an ordered window on top, the pass strictly lowers the number
    of replacements still possible: the new point lies between the old
    ends, so it is out of range only where one of them was. *)
Lemma line_clip_iter_decreases st v :
  window_safe st -> s_xmin st <= s_xmax st -> s_ymin st <= s_ymax st ->
  points_safe v -> codes_consistent st v ->
  clip_done v = false ->
  exists v',
    line_clip_iter st v = Ok (ClipContinue v') /\
    points_safe v' /\ codes_consistent st v' /\
    (clip_measure st v' < clip_measure st v)%nat.
Proof.
  intros Hw Hox Hoy Hp Hc Hdone.
  destruct (line_clip_iter_safe st v Hw Hp Hc Hdone) as (b & Hb & Hiter).
  eexists. split; [exact Hiter|].
  destruct v as [x y x1 y1 x2 y2 c1 c2].
  destruct Hw as (Hw1 & Hw2 & Hw3 & Hw4). destruct Hp as (Hx1 & Hy1 & Hx2 & Hy2).
  destruct Hc as [Hc1 Hc2].
  cbn [cv_x1 cv_y1 cv_x2 cv_y2 cv_code1 cv_code2] in *. subst c1 c2.
  clear Hiter.
  set (v := mkClip x y x1 y1 x2 y2 (compute_code st x1 y1) (compute_code st x2 y2)) in *.
  assert (Hm : clip_measure st v
               = (out_count st x1 y1 + out_count st x2 y2)%nat).
  { unfold clip_measure. rewrite Hdone. reflexivity. }
  rewrite Hm. clear Hm.
  destruct (negb (compute_code st x1 y1 =? 0)) eqn:Hsel.
  all: pose proof Hsel as Hsel'; revert Hdone Hb Hsel';
    unfold clip_done, spec_first_boundary, out_count;
    cbn [v cv_x cv_y cv_x1 cv_y1 cv_x2 cv_y2 cv_code1 cv_code2 find];
    regions; intros Hdone; try discriminate Hdone; intros Hb Hsel';
    try discriminate Hsel'; injection Hb as <-.
  all: unfold spec_intersection; cbn [Z.eqb Pos.eqb TOP BOTTOM RIGHT LEFT].
  all: match goal with
       | |- context [?a1 + ((?a2 - ?a1) * (?bnd - ?b1)) ÷ (?b2 - ?b1)] =>
           pose proof (interp_between a1 a2 b1 b2 bnd) as Hbetween;
           unfold interp in Hbetween;
           set (q := ((a2 - a1) * (bnd - b1)) ÷ (b2 - b1)) in *; clearbody q;
           specialize (Hbetween ltac:(lia))
       end.
  all: unfold points_safe, codes_consistent, clip_measure, clip_done, out_count,
         spec_replace;
       cbn [v cv_x cv_y cv_x1 cv_y1 cv_x2 cv_y2 cv_code1 cv_code2 fst snd];
       rewrite ?Hsel;
       cbn [v cv_x cv_y cv_x1 cv_y1 cv_x2 cv_y2 cv_code1 cv_code2 fst snd].
  all: clear Hsel Hsel' Hdone; subst v.
  all: regions.
  all: (split; [unfold clip_safe in *; lia|split; [split; reflexivity|cbn; lia]]).
Qed.

(** ** The clipping loop *)

Lemma clip_done_break st v :
  clip_done v = true ->
  exists a, line_clip_iter st v = Ok (ClipBreak a) /\ (a = 0 \/ a = 1).
Proof.
  intros H. rewrite line_clip_iter_cases. unfold clip_done in H.
  destruct ((cv_code1 v =? 0) && (cv_code2 v =? 0)).
  - exists 1. auto.
  - cbn [orb] in H. rewrite H. exists 0. auto.
Qed.

Lemma clip_measure_le_4 st v : (clip_measure st v <= 4)%nat.
Proof.
  unfold clip_measure, out_count.
  destruct (clip_done v); [lia|].
  repeat match goal with |- context [if ?c then _ else _] => destruct c end; lia.
Qed.

Lemma line_clip_loop_terminates st fuel : forall v,
  window_safe st -> s_xmin st <= s_xmax st -> s_ymin st <= s_ymax st ->
  points_safe v -> codes_consistent st v ->
  (clip_measure st v < fuel)%nat ->
  exists a v', line_clip_loop fuel st v = Ok (a, v') /\ (a = 0 \/ a = 1).
Proof.
  induction fuel as [|fuel IH]; intros v Hw Hox Hoy Hp Hc Hm; [lia|].
  cbn [line_clip_loop].
  destruct (clip_done v) eqn:Hdone.
  - destruct (clip_done_break st v Hdone) as (a & -> & Ha).
    st_simpl. exists a, v. auto.
  - destruct (line_clip_iter_decreases st v Hw Hox Hoy Hp Hc Hdone)
      as (v' & -> & Hp' & Hc' & Hlt).
    st_simpl. apply IH; try assumption. lia.
Qed.

Lemma spec_replace_inj st v p p' :
  spec_replace st v p = spec_replace st v p' -> p = p'.
Proof.
  destruct p as [a b], p' as [a' b']. unfold spec_replace. cbn [fst snd].
  destruct (negb (cv_code1 v =? 0)); intros H; injection H; intros; congruence.
Qed.

(** C8, the claim as stated fails where the int product wraps: in the
    window (0,0,1000,1000) the segment from (-30000,-46000) to
    (30000,1000) is cut at the bottom boundary, the first its outcode
    names; the formula gives x = -30000 + 60000 * 46000 / 47000 = 28723,
    but 60000 * 46000 does not fit an int and the pass stores
    x = -62658. *)
Lemma clip_pass_intersection_wraps_for_large_coordinates :
  codes_consistent scenario_window wrapping_vars /\
  clip_done wrapping_vars = false /\
  window_ints scenario_window /\ points_ints wrapping_vars /\
  spec_first_boundary (cv_code1 wrapping_vars) = Some BOTTOM /\
  spec_intersection scenario_window (-30000) (-46000) 30000 1000 BOTTOM = (28723, 0) /\
  exists v',
    line_clip_iter scenario_window wrapping_vars = Ok (ClipContinue v') /\
    (cv_x1 v', cv_y1 v') = (-62658, 0) /\
    (cv_x2 v', cv_y2 v') = (30000, 1000).
Proof.
  split; [split; reflexivity|]. split; [reflexivity|].
  split; [vm_compute; intuition discriminate|].
  split; [vm_compute; intuition discriminate|].
  split; [reflexivity|]. split; [reflexivity|].
  eexists. split; [vm_compute; reflexivity|]. split; reflexivity.
Qed.

(** C8, amended.  In a pass of the loop that is not about to stop, the
    outcode of the preferred point (point 1 when its outcode is
    non-zero, point 2 otherwise) names a first boundary b in the order
    TOP, BOTTOM, RIGHT, LEFT.  Whenever the pass continues, whatever the
    coordinates, it has replaced the preferred point by a point of that
    boundary, recomputed its code, and kept the other point and its
    code.  For coordinates of magnitude at most 23170, where no int
    operation wraps, the pass does continue and the new point is the
    intersection given by the interpolation formulas over the integers
    with truncating division. *)
Theorem clip_pass_replaces_preferred_point_at_first_boundary :
  forall st v,
    codes_consistent st v ->
    clip_done v = false ->
    exists b,
      spec_first_boundary (if negb (cv_code1 v =? 0) then cv_code1 v else cv_code2 v)
        = Some b /\
      (forall v',
          line_clip_iter st v = Ok (ClipContinue v') ->
          exists p,
            on_boundary st b p /\
            (cv_code1 v <> 0 ->
             (cv_x1 v', cv_y1 v') = p /\
             cv_code1 v' = compute_code st (cv_x1 v') (cv_y1 v') /\
             (cv_x2 v', cv_y2 v', cv_code2 v') = (cv_x2 v, cv_y2 v, cv_code2 v)) /\
            (cv_code1 v = 0 ->
             (cv_x2 v', cv_y2 v') = p /\
             cv_code2 v' = compute_code st (cv_x2 v') (cv_y2 v') /\
             (cv_x1 v', cv_y1 v', cv_code1 v') = (cv_x1 v, cv_y1 v, cv_code1 v))) /\
      (window_safe st -> points_safe v ->
       line_clip_iter st v
       = Ok (ClipContinue
               (spec_replace st v
                  (spec_intersection st (cv_x1 v) (cv_y1 v) (cv_x2 v) (cv_y2 v) b)))).
Proof.
  intros st v Hc Hdone.
  destruct (clip_first_boundary_defined st v Hc Hdone) as (b & Hb).
  exists b. split; [exact Hb|]. split.
  - intros v' Hiter.
    destruct (line_clip_iter_continue st v v' Hc Hiter) as (b' & p & Hb' & Hon & ->).
    rewrite Hb in Hb'. injection Hb' as <-.
    exists p. split; [exact Hon|].
    unfold spec_replace. destruct p as [px py]. cbn [fst snd].
    split; intros H0.
    + destruct (Z.eqb_spec (cv_code1 v) 0) as [|_]; [contradiction|].
      cbn [negb cv_x1 cv_y1 cv_x2 cv_y2 cv_code1 cv_code2]. repeat split.
    + rewrite H0. cbn [Z.eqb negb cv_x1 cv_y1 cv_x2 cv_y2 cv_code1 cv_code2].
      repeat split.
  - intros Hws Hps.
    destruct (line_clip_iter_safe st v Hws Hps Hc Hdone) as (b' & Hb' & Hiter').
    rewrite Hb in Hb'. injection Hb' as <-. exact Hiter'.
Qed.

Lemma clip_pass_replaces_preferred_point_at_first_boundary_witness :
  codes_consistent scenario_window crossing_vars /\
  clip_done crossing_vars = false /\
  window_safe scenario_window /\ points_safe crossing_vars /\
  exists b v',
    spec_first_boundary (cv_code1 crossing_vars) = Some b /\ b = LEFT /\
    line_clip_iter scenario_window crossing_vars = Ok (ClipContinue v') /\
    (cv_x1 v', cv_y1 v') = (0, 547) /\
    (cv_x2 v', cv_y2 v') = (2000, 1500).
Proof.
  assert (Hc : codes_consistent scenario_window crossing_vars).
  { split; reflexivity. }
  assert (Hd : clip_done crossing_vars = false) by reflexivity.
  assert (Hw : window_safe scenario_window).
  { unfold window_safe, clip_safe, CLIP_SAFE, scenario_window. st_simpl. lia. }
  assert (Hp : points_safe crossing_vars).
  { unfold points_safe, clip_safe, CLIP_SAFE, crossing_vars.
    cbn [cv_x1 cv_y1 cv_x2 cv_y2]. lia. }
  repeat (split; [assumption|]).
  destruct (clip_pass_replaces_preferred_point_at_first_boundary
              scenario_window crossing_vars Hc Hd)
    as (b & Hb & _ & Hsafe).
  assert (HbL : b = LEFT).
  { vm_compute in Hb. injection Hb as <-. reflexivity. }
  exists b. eexists. split; [exact Hb|]. split; [exact HbL|].
  split; [exact (Hsafe Hw Hp)|].
  rewrite HbL. split; reflexivity.
Defined.

(** Over ints the division of a pass can overflow: in a window 2^31
    wide with ymax = 0, the segment from (2^30, 1) to (-2^30, 0) has
    x2 - x1 = INT_MIN and ymax - y1 = y2 - y1 = -1, so the first pass
    divides INT_MIN by -1. *)
Lemma line_clip_division_overflows :
  window_ints overflow_window /\
  s_xmin overflow_window <= s_xmax overflow_window /\
  s_ymin overflow_window <= s_ymax overflow_window /\
  is_int 1073741824 /\ is_int 1 /\ is_int (-1073741824) /\ is_int 0 /\
  forall fuel,
    line_clip (S fuel) overflow_window 1073741824 1 (-1073741824) 0 = Fault DivOverflow.
Proof.
  repeat (split; [vm_compute; try intuition discriminate|]).
  intros fuel. unfold line_clip. cbn [line_clip_loop].
  match goal with
  | |- context [line_clip_iter ?s ?v] =>
      assert (Hit : line_clip_iter s v = Fault DivOverflow) by (vm_compute; reflexivity);
      rewrite Hit
  end.
  reflexivity.
Qed.

(** C10, the claim as stated fails under wrap-around int arithmetic:
    with the window x in [-2^30, 2^30], y in [0, 1] and the segment from
    (2^30, 1) to (-2^30, -1), all within int, (x2 - x1) * (ymin - y1)
    wraps and point 2 alternates between (-2^31, 0), left of the window,
    and (-2^30, -1), below it: no amount of fuel ends the loop. *)
Lemma line_clip_wrapping_segment_never_stops :
  s_xmin wrap_window <= s_xmax wrap_window /\
  s_ymin wrap_window <= s_ymax wrap_window /\
  window_ints wrap_window /\
  is_int 1073741824 /\ is_int 1 /\ is_int (-1073741824) /\ is_int (-1) /\
  forall fuel, line_clip fuel wrap_window 1073741824 1 (-1073741824) (-1) = OutOfFuel.
Proof.
  assert (Hcycle : forall fuel,
             line_clip_loop fuel wrap_window
               (mkClip (-2147483648) 0 1073741824 1 (-2147483648) 0 0 1) = OutOfFuel /\
             line_clip_loop fuel wrap_window
               (mkClip (-1073741824) (-1) 1073741824 1 (-1073741824) (-1) 0 4) = OutOfFuel).
  { induction fuel as [|fuel [IH1 IH2]]; [split; reflexivity|].
    split.
    - change (line_clip_loop (S fuel) wrap_window
                (mkClip (-2147483648) 0 1073741824 1 (-2147483648) 0 0 1))
        with (line_clip_loop fuel wrap_window
                (mkClip (-1073741824) (-1) 1073741824 1 (-1073741824) (-1) 0 4)).
      exact IH2.
    - change (line_clip_loop (S fuel) wrap_window
                (mkClip (-1073741824) (-1) 1073741824 1 (-1073741824) (-1) 0 4))
        with (line_clip_loop fuel wrap_window
                (mkClip (-2147483648) 0 1073741824 1 (-2147483648) 0 0 1)).
      exact IH1. }
  repeat (split; [vm_compute; try intuition discriminate|]).
  intros [|fuel]; [reflexivity|].
  change (line_clip (S fuel) wrap_window 1073741824 1 (-1073741824) (-1))
    with ('(accept, v) ← line_clip_loop fuel wrap_window
                          (mkClip (-2147483648) 0 1073741824 1 (-2147483648) 0 0 1);
          Ok (accept, (cv_x1 v, cv_y1 v, cv_x2 v, cv_y2 v))).
  rewrite (proj1 (Hcycle fuel)). reflexivity.
Qed.

Lemma line_clip_initial_consistent st x1 y1 x2 y2 :
  codes_consistent st
    (mkClip 0 0 x1 y1 x2 y2 (compute_code st x1 y1) (compute_code st x2 y2)).
Proof. split; reflexivity. Qed.

(** C10, amended.  (1) Over int arguments and an int window, whatever
    their values, line_clip never divides by zero, for any amount of
    fuel: the one fault it can raise is the division INT_MIN / -1, whose
    quotient is not an int.  (2) A segment parallel to a boundary and out
    of range on the perpendicular axis is rejected at the first test,
    before any intersection is computed.  (3) With xmin <= xmax,
    ymin <= ymax and all coordinates of magnitude at most 23170, so that
    no int operation of the loop wraps, no division fails and the loop
    ends within four replacements: any fuel of five passes or more
    returns accept 0 or 1. *)
Theorem line_clip_terminates_without_division_by_zero :
  forall st x1 y1 x2 y2,
    (window_ints st -> is_int x1 -> is_int y1 -> is_int x2 -> is_int y2 ->
     forall fuel,
       line_clip fuel st x1 y1 x2 y2 <> Fault DivByZero /\
       forall f, line_clip fuel st x1 y1 x2 y2 = Fault f -> f = DivOverflow) /\
    (forall fuel,
        (y1 = y2 /\ is_bottom st y1 || is_top st y1 = true) \/
        (x1 = x2 /\ is_left st x1 || is_right st x1 = true) ->
        line_clip (S fuel) st x1 y1 x2 y2 = Ok (0, (x1, y1, x2, y2))) /\
    (window_safe st -> s_xmin st <= s_xmax st -> s_ymin st <= s_ymax st ->
     clip_safe x1 -> clip_safe y1 -> clip_safe x2 -> clip_safe y2 ->
     forall fuel, (5 <= fuel)%nat ->
     exists accept r,
       line_clip fuel st x1 y1 x2 y2 = Ok (accept, r) /\ (accept = 0 \/ accept = 1)).
Proof.
  intros st x1 y1 x2 y2. split; [|split].
  - intros Hw Hx1 Hy1 Hx2 Hy2 fuel.
    assert (Hf : forall f, line_clip fuel st x1 y1 x2 y2 = Fault f -> f = DivOverflow).
    { intros f. unfold line_clip.
      pose proof (line_clip_loop_faults_ints st fuel
                    (mkClip 0 0 x1 y1 x2 y2 (compute_code st x1 y1)
                       (compute_code st x2 y2))
                    Hw (conj Hx1 (conj Hy1 (conj Hx2 Hy2)))
                    (line_clip_initial_consistent st x1 y1 x2 y2)) as Hnf.
      destruct (line_clip_loop fuel st _) as [[a v']|f'|]; st_simpl.
      - discriminate.
      - intros Hq. injection Hq as <-. apply Hnf. reflexivity.
      - discriminate. }
    split; [|exact Hf].
    intros Hz. apply Hf in Hz. discriminate Hz.
  - intros fuel Hpar. unfold line_clip. cbn [line_clip_loop].
    rewrite line_clip_iter_cases.
    cbn [cv_x cv_y cv_x1 cv_y1 cv_x2 cv_y2 cv_code1 cv_code2].
    rewrite !code_zero, code_shared.
    destruct Hpar as [[<- Hout]|[<- Hout]].
    + destruct (is_bottom st y1), (is_top st y1); try discriminate Hout;
        rewrite ?orb_true_r; cbn [andb orb negb]; rewrite ?orb_true_r; reflexivity.
    + destruct (is_left st x1), (is_right st x1); try discriminate Hout;
        rewrite ?orb_true_r; cbn [andb orb negb]; rewrite ?orb_true_r; reflexivity.
  - intros Hw Hox Hoy Hx1 Hy1 Hx2 Hy2 fuel Hfuel. unfold line_clip.
    destruct (line_clip_loop_terminates st fuel
                (mkClip 0 0 x1 y1 x2 y2 (compute_code st x1 y1) (compute_code st x2 y2))
                Hw Hox Hoy (conj Hx1 (conj Hy1 (conj Hx2 Hy2)))
                (line_clip_initial_consistent st x1 y1 x2 y2))
      as (a & v' & -> & Ha).
    + pose proof (clip_measure_le_4 st
                    (mkClip 0 0 x1 y1 x2 y2 (compute_code st x1 y1)
                       (compute_code st x2 y2))). lia.
    + st_simpl. eexists. eexists. split; [reflexivity|exact Ha].
Qed.

Lemma line_clip_terminates_without_division_by_zero_witness :
  (window_ints scenario_window /\ is_int (-100) /\ is_int 500 /\ is_int 2000 /\ is_int 1500) /\
  (window_safe scenario_window /\
   s_xmin scenario_window <= s_xmax scenario_window /\
   s_ymin scenario_window <= s_ymax scenario_window /\
   clip_safe (-100) /\ clip_safe 500 /\ clip_safe 2000 /\ clip_safe 1500 /\
   (5 <= 5)%nat) /\
  (-100 = -100 /\ is_left scenario_window (-100) || is_right scenario_window (-100) = true) /\
  line_clip 5 scenario_window (-100) 500 2000 1500 <> Fault DivByZero /\
  line_clip 1 scenario_window (-100) 500 (-100) 700 = Ok (0, (-100, 500, -100, 700)) /\
  exists accept r,
    line_clip 5 scenario_window (-100) 500 2000 1500 = Ok (accept, r) /\
    (accept = 0 \/ accept = 1).
Proof.
  assert (Hi : window_ints scenario_window /\ is_int (-100) /\ is_int 500
               /\ is_int 2000 /\ is_int 1500).
  { unfold window_ints, is_int, INT_MIN, INT_MAX, scenario_window. st_simpl. lia. }
  assert (Hs : window_safe scenario_window /\
               s_xmin scenario_window <= s_xmax scenario_window /\
               s_ymin scenario_window <= s_ymax scenario_window /\
               clip_safe (-100) /\ clip_safe 500 /\ clip_safe 2000 /\ clip_safe 1500 /\
               (5 <= 5)%nat).
  { unfold window_safe, clip_safe, CLIP_SAFE, scenario_window. st_simpl. lia. }
  assert (Hpar : -100 = -100 /\
                 is_left scenario_window (-100) || is_right scenario_window (-100) = true).
  { split; reflexivity. }
  split; [exact Hi|]. split; [exact Hs|]. split; [exact Hpar|].
  destruct Hi as (Hw & Ha & Hb & Hc & Hd).
  destruct Hs as (Hws & Hox & Hoy & Ha' & Hb' & Hc' & Hd' & Hf).
  split; [|split].
  - exact (proj1 (proj1 (line_clip_terminates_without_division_by_zero
                           scenario_window (-100) 500 2000 1500)
                    Hw Ha Hb Hc Hd 5%nat)).
  - apply (proj1 (proj2 (line_clip_terminates_without_division_by_zero
                           scenario_window (-100) 500 (-100) 700)) 0%nat).
    right. split; reflexivity.
  - exact (proj2 (proj2 (line_clip_terminates_without_division_by_zero
                           scenario_window (-100) 500 2000 1500))
             Hws Hox Hoy Ha' Hb' Hc' Hd' 5%nat Hf).
Defined.

(** * Further properties of the driver *)

(** ** vector_length *)

Lemma to_int_add_multiple a k : to_int (a + k * 4294967296) = to_int a.
Proof.
  unfold to_int.
  replace (a + k * 4294967296 + 2147483648) with (a + 2147483648 + k * 4294967296) by lia.
  rewrite Z.mod_add by lia. reflexivity.
Qed.

Lemma to_int_decompose a : exists k, to_int a = a + k * 4294967296.
Proof.
  exists (- ((a + 2147483648) / 4294967296)). unfold to_int.
  pose proof (Z.div_mod (a + 2147483648) 4294967296 ltac:(lia)). lia.
Qed.

Lemma to_int_mul a b : to_int (to_int a * to_int b) = to_int (a * b).
Proof.
  destruct (to_int_decompose a) as [k ->]. destruct (to_int_decompose b) as [l ->].
  replace ((a + k * 4294967296) * (b + l * 4294967296))
    with (a * b + (a * l + k * b + k * l * 4294967296) * 4294967296) by ring.
  apply to_int_add_multiple.
Qed.

Lemma square_bound d m : - m <= d <= m -> 0 <= d * d <= m * m.
Proof. intros H. split; nia. Qed.

Lemma to_int_square_opp a b : to_int (to_int (a - b) * to_int (a - b))
                              = to_int (to_int (b - a) * to_int (b - a)).
Proof. rewrite !to_int_mul. f_equal. ring. Qed.

(** X1: the length of a vector does not depend on its direction, for
    any arguments, wrapped or not. *)
Theorem vector_length_symmetric :
  forall x0 y0 x1 y1, vector_length x1 y1 x0 y0 = vector_length x0 y0 x1 y1.
Proof.
  intros. unfold vector_length.
  rewrite (to_int_square_opp x0 x1), (to_int_square_opp y0 y1). reflexivity.
Qed.

(** X2: for end points that fit the 14-bit coordinate fields, no
    operation wraps and vector_length is the integer square root of
    dx^2 + dy^2, the Euclidean distance truncated. *)
Theorem vector_length_truncated_distance :
  forall x0 y0 x1 y1,
    field14 x0 -> field14 y0 -> field14 x1 -> field14 y1 ->
    vector_length x0 y0 x1 y1
    = Z.sqrt ((x1 - x0) * (x1 - x0) + (y1 - y0) * (y1 - y0)) /\
    (vector_length x0 y0 x1 y1) * (vector_length x0 y0 x1 y1)
    <= (x1 - x0) * (x1 - x0) + (y1 - y0) * (y1 - y0)
    < (vector_length x0 y0 x1 y1 + 1) * (vector_length x0 y0 x1 y1 + 1).
Proof.
  unfold field14. intros x0 y0 x1 y1 Hx0 Hy0 Hx1 Hy1.
  assert (Hdx : 0 <= (x1 - x0) * (x1 - x0) <= 1073610756).
  { apply (square_bound (x1 - x0) 32766). lia. }
  assert (Hdy : 0 <= (y1 - y0) * (y1 - y0) <= 1073610756).
  { apply (square_bound (y1 - y0) 32766). lia. }
  assert (Hv : vector_length x0 y0 x1 y1
               = Z.sqrt ((x1 - x0) * (x1 - x0) + (y1 - y0) * (y1 - y0))).
  { unfold vector_length.
    rewrite (to_int_id (x1 - x0)) by (unfold INT_MIN, INT_MAX; lia).
    rewrite (to_int_id (y1 - y0)) by (unfold INT_MIN, INT_MAX; lia).
    rewrite (to_int_id ((x1 - x0) * (x1 - x0))) by (unfold INT_MIN, INT_MAX; lia).
    rewrite (to_int_id ((y1 - y0) * (y1 - y0))) by (unfold INT_MIN, INT_MAX; lia).
    rewrite (to_int_id (_ + _)) by (unfold INT_MIN, INT_MAX; lia).
    set (s := (x1 - x0) * (x1 - x0) + (y1 - y0) * (y1 - y0)) in *.
    assert (0 <= Z.sqrt s <= 46340).
    { split; [apply Z.sqrt_nonneg|].
      change 46340 with (Z.sqrt 2147483647). apply Z.sqrt_le_mono. lia. }
    rewrite to_u32_id by lia. apply to_int_id. unfold INT_MIN, INT_MAX. lia. }
  split; [exact Hv|]. rewrite Hv.
  apply Z.sqrt_spec. lia.
Qed.

Lemma vector_length_truncated_distance_witness :
  (field14 0 /\ field14 0 /\ field14 2047 /\ field14 2047) /\
  vector_length 0 0 2047 2047
  = Z.sqrt ((2047 - 0) * (2047 - 0) + (2047 - 0) * (2047 - 0)).
Proof.
  assert (H : field14 0 /\ field14 0 /\ field14 2047 /\ field14 2047).
  { unfold field14. lia. }
  split; [exact H|].
  destruct H as (H1 & H2 & H3 & H4).
  exact (proj1 (vector_length_truncated_distance 0 0 2047 2047 H1 H2 H3 H4)).
Defined.

(** X3: from the point (INT_MIN, INT_MIN) that cmd_reset leaves as the
    last point, the subtraction and the squares wrap and the length to a
    device point (x, y) is its distance from the origin: the first vector
    of a frame adds nothing only when it starts at (0, 0). *)
Theorem vector_length_from_reset_point :
  forall x y,
    0 <= x <= 32767 -> 0 <= y <= 32767 ->
    vector_length INT_MIN INT_MIN x y = Z.sqrt (x * x + y * y) /\
    (vector_length INT_MIN INT_MIN x y = 0 <-> x = 0 /\ y = 0).
Proof.
  intros x y Hx Hy.
  assert (Hsq : forall a, 0 <= a <= 32767 ->
                          to_int (to_int (a - INT_MIN) * to_int (a - INT_MIN)) = a * a).
  { intros a Ha. rewrite to_int_mul. unfold INT_MIN.
    replace ((a - -2147483648) * (a - -2147483648))
      with (a * a + (a + 1073741824) * 4294967296) by ring.
    rewrite to_int_add_multiple. apply to_int_id. unfold INT_MIN, INT_MAX.
    pose proof (square_bound a 32767 ltac:(lia)). lia. }
  assert (Hv : vector_length INT_MIN INT_MIN x y = Z.sqrt (x * x + y * y)).
  { unfold vector_length. rewrite (Hsq x Hx), (Hsq y Hy).
    pose proof (square_bound x 32767 ltac:(lia)).
    pose proof (square_bound y 32767 ltac:(lia)).
    assert (0 <= x * x + y * y <= 2147352578) by lia.
    rewrite (to_int_id (_ + _)) by (unfold INT_MIN, INT_MAX; lia).
    assert (0 <= Z.sqrt (x * x + y * y) <= 46340).
    { split; [apply Z.sqrt_nonneg|].
      change 46340 with (Z.sqrt 2147483647). apply Z.sqrt_le_mono. lia. }
    rewrite to_u32_id by lia. apply to_int_id. unfold INT_MIN, INT_MAX. lia. }
  split; [exact Hv|]. rewrite Hv.
  pose proof (Z.sqrt_spec (x * x + y * y) ltac:(nia)) as Hs.
  cbv zeta in Hs.
  split.
  - intros H0. rewrite H0 in Hs.
    assert (Hlt : x * x + y * y < 1) by lia.
    split; nia.
  - intros [-> ->]. reflexivity.
Qed.

Lemma vector_length_from_reset_point_witness :
  (0 <= 300 <= 32767 /\ 0 <= 400 <= 32767) /\
  vector_length INT_MIN INT_MIN 300 400 = 500.
Proof.
  assert (H : 0 <= 300 <= 32767 /\ 0 <= 400 <= 32767) by lia.
  split; [exact H|].
  destruct H as [H1 H2].
  rewrite (proj1 (vector_length_from_reset_point 300 400 H1 H2)). reflexivity.
Defined.

(** X4: whatever the arguments, vector_length is between 0 and 46340,
    the square root of the largest int. *)
Theorem vector_length_bounds :
  forall x0 y0 x1 y1, 0 <= vector_length x0 y0 x1 y1 <= 46340.
Proof.
  intros. unfold vector_length.
  set (s := to_int (_ + _)).
  assert (0 <= Z.sqrt s <= 46340).
  { split; [apply Z.sqrt_nonneg|].
    change 46340 with (Z.sqrt 2147483647). apply Z.sqrt_le_mono.
    pose proof (to_int_range (to_int (to_int (x1 - x0) * to_int (x1 - x0))
                              + to_int (to_int (y1 - y0) * to_int (y1 - y0)))).
    unfold INT_MAX in *. subst s. lia. }
  rewrite to_u32_id by lia. rewrite to_int_id by (unfold INT_MIN, INT_MAX; lia). lia.
Qed.

(** ** Opening and closing the port *)

(** X5: serial_open returns 0 for a successful open and errOpenDevice (4)
    for every kind of failure, never the code of the step that failed, and
    it resets the builder in both cases, leaving buffer and clip window as
    they were.  The handle is invalid only when the open call itself
    failed: after a failed configuration step it stays valid, and a close
    that follows still writes the EXIT word. *)
Theorem open_result_reset_and_handle :
  forall o st ch,
    snd (zvgFrameOpen o st) = (match o with OpenOk => 0 | _ => errOpenDevice end) /\
    (snd (zvgFrameOpen o st) = 0 \/ snd (zvgFrameOpen o st) = 4) /\
    fst (zvgFrameOpen o st) = cmd_reset (set_serial_fd (s_serial_fd (fst (zvgFrameOpen o st))) st) /\
    s_serial_fd (fst (zvgFrameOpen o st))
      = (match o with OpenComFailed => false | _ => true end) /\
    (s_cmd_offs (fst (zvgFrameOpen o st)), s_vector_length (fst (zvgFrameOpen o st)))
      = (4, 0) /\
    s_cmd_buf (fst (zvgFrameOpen o st)) = s_cmd_buf st /\
    window (fst (zvgFrameOpen o st)) = window st /\
    (o <> OpenComFailed ->
     exists st',
       zvgFrameClose ch (fst (zvgFrameOpen o st))
       = Ok (st', mkChannel (ch_log ch ++ [cmd_byte_list exit_cmd]) (ch_oracle ch))).
Proof.
  intros o st ch. unfold zvgFrameOpen, serial_open.
  cbn [fst snd]. st_simpl.
  split; [destruct o; reflexivity|].
  split; [destruct o; auto|].
  split; [destruct o; reflexivity|].
  split; [reflexivity|]. split; [reflexivity|]. split; [reflexivity|].
  split; [reflexivity|].
  intros Hne. unfold zvgFrameClose, serial_close. st_simpl.
  destruct o; try contradiction;
    (rewrite push_cmd_ok by (st_simpl; unfold CMD_BUF_SIZE; lia)); st_simpl;
    unfold serial_write; st_simpl; change (to_u32 (0 + 4)) with 4;
    rewrite buf_read_cmd_bytes;
    eexists; reflexivity.
Qed.

Lemma open_result_reset_and_handle_witness :
  ComStateFailed <> OpenComFailed /\
  snd (zvgFrameOpen ComStateFailed init_state) = 4 /\
  exists st',
    zvgFrameClose dead_channel (fst (zvgFrameOpen ComStateFailed init_state))
    = Ok (st', mkChannel [cmd_byte_list exit_cmd] (ch_oracle dead_channel)).
Proof.
  assert (H : ComStateFailed <> OpenComFailed) by discriminate.
  split; [exact H|].
  destruct (open_result_reset_and_handle ComStateFailed init_state dead_channel)
    as (Hr & _ & _ & _ & _ & _ & _ & Hclose).
  split; [exact Hr|]. exact (Hclose H).
Defined.

(** X6: closing an open port never faults, whatever the builder holds:
    it writes one buffer of four bytes, the EXIT word 0xE0000000, returns
    0 and invalidates the handle.  It goes through the command buffer:
    the first four bytes of s_cmd_buf are overwritten and the write
    offset is left at 4; path length, last point and colour are kept. *)
Theorem close_open_port_writes_exit_word :
  forall ch st,
    s_serial_fd st = true ->
    exists st',
      serial_close ch st
      = Ok (st', mkChannel (ch_log ch ++ [cmd_byte_list exit_cmd]) (ch_oracle ch), 0) /\
      cmd_byte_list exit_cmd = [224; 0; 0; 0] /\
      (cmd_tag exit_cmd, cmd_payload exit_cmd) = (FLAG_EXIT, 0) /\
      s_serial_fd st' = false /\
      s_cmd_offs st' = 4 /\
      word_at (s_cmd_buf st') 0 = exit_cmd /\
      (forall i, i < 0 \/ 4 <= i -> buf_get (s_cmd_buf st') i = buf_get (s_cmd_buf st) i) /\
      s_vector_length st' = s_vector_length st /\
      (s_last_x st', s_last_y st') = (s_last_x st, s_last_y st) /\
      (s_last_r st', s_last_g st', s_last_b st') = (s_last_r st, s_last_g st, s_last_b st) /\
      window st' = window st.
Proof.
  intros ch st Hfd. unfold serial_close. rewrite Hfd.
  rewrite push_cmd_ok by (st_simpl; unfold CMD_BUF_SIZE; lia). st_simpl.
  unfold serial_write. st_simpl. change (to_u32 (0 + 4)) with 4.
  rewrite buf_read_cmd_bytes.
  eexists. split; [reflexivity|]. st_simpl.
  split; [reflexivity|]. split; [reflexivity|].
  split; [reflexivity|]. split; [reflexivity|].
  split; [apply word_at_cmd_bytes; apply to_u32_range|].
  split; [intros i Hi; apply buf_get_cmd_bytes_other; lia|].
  repeat split.
Qed.

Lemma close_open_port_writes_exit_word_witness :
  s_serial_fd (fst (zvgFrameOpen OpenOk init_state)) = true /\
  exists st',
    serial_close good_channel (fst (zvgFrameOpen OpenOk init_state))
    = Ok (st', mkChannel (ch_log good_channel ++ [cmd_byte_list exit_cmd])
                 (ch_oracle good_channel), 0).
Proof.
  assert (H : s_serial_fd (fst (zvgFrameOpen OpenOk init_state)) = true) by reflexivity.
  split; [exact H|].
  destruct (close_open_port_writes_exit_word good_channel
              (fst (zvgFrameOpen OpenOk init_state)) H) as (st' & Hc & _).
  exists st'. exact Hc.
Defined.

(** X7: serial_close always returns, with 0 or -1, and leaves the handle
    invalid; a close that follows it writes nothing, changes nothing and
    returns -1.  So zvgFrameClose can be repeated: only the first call on
    an open port reaches the device. *)
Theorem close_twice_is_close_once :
  forall ch st,
    exists st1 ch1 r,
      serial_close ch st = Ok (st1, ch1, r) /\
      r = (if s_serial_fd st then 0 else -1) /\
      length (ch_log ch1)
        = (length (ch_log ch) + (if s_serial_fd st then 1 else 0))%nat /\
      s_serial_fd st1 = false /\
      serial_close ch1 st1 = Ok (st1, ch1, -1) /\
      zvgFrameClose ch1 st1 = Ok (st1, ch1).
Proof.
  intros ch st. unfold zvgFrameClose, serial_close.
  destruct (s_serial_fd st) eqn:Hfd.
  - rewrite push_cmd_ok by (st_simpl; unfold CMD_BUF_SIZE; lia). st_simpl.
    unfold serial_write. st_simpl.
    eexists. eexists. eexists. split; [reflexivity|]. st_simpl.
    split; [reflexivity|].
    split; [cbn [ch_log]; rewrite length_app; reflexivity|].
    split; [reflexivity|]. split; reflexivity.
  - exists (set_serial_fd false st), ch, (-1). st_simpl.
    split; [reflexivity|]. split; [reflexivity|]. split; [lia|].
    split; [reflexivity|]. split; reflexivity.
Qed.

(** ** The result of serial_send *)

Lemma serial_send_loop_result m fuel : forall result size offset ch r' ch',
  0 <= size <= INT_MAX -> 0 <= offset -> offset + size < 4294967296 ->
  serial_send_loop fuel m result size offset ch = Ok (r', ch') ->
  r' = last_write_result (ch_oracle ch) (length (ch_log ch)) result
         (spec_chunks m offset size).
Proof.
  induction fuel as [|fuel IH]; intros result size offset ch r' ch' Hs Ho Hsum Hrun.
  - cbn [serial_send_loop] in Hrun.
    destruct (Z.eqb_spec size 0) as [->|Hne]; [|discriminate Hrun].
    injection Hrun as <- _. rewrite spec_chunks_nil by lia. reflexivity.
  - cbn [serial_send_loop] in Hrun.
    destruct (Z.eqb_spec size 0) as [->|Hne].
    + injection Hrun as <- _. rewrite spec_chunks_nil by lia. reflexivity.
    + rewrite MIN_1024 in Hrun by exact Hs.
      assert (Hc : 0 < Z.min 1024 size <= size) by lia.
      rewrite (to_u32_id (Z.min 1024 size)) in Hrun by lia.
      rewrite (to_u32_id (size - Z.min 1024 size)) in Hrun by lia.
      rewrite (to_u32_id (offset + Z.min 1024 size)) in Hrun by lia.
      unfold serial_write in Hrun.
      apply IH in Hrun; [|lia|lia|lia].
      rewrite Hrun. cbn [ch_log ch_oracle].
      rewrite (spec_chunks_cons m offset size) by lia.
      cbn [last_write_result]. rewrite length_app. cbn [length].
      replace (length (ch_log ch) + 1)%nat with (S (length (ch_log ch))) by lia.
      reflexivity.
Qed.

Lemma last_write_result_last oracle ws : forall n result w,
  last ws = Some w ->
  last_write_result oracle n result ws = write_ok oracle (n + length ws - 1) w.
Proof.
  induction ws as [|w0 ws IH]; intros n result w Hlast; [discriminate Hlast|].
  cbn [last_write_result].
  destruct ws as [|w1 ws'].
  - cbn in Hlast. injection Hlast as ->. cbn [last_write_result length].
    replace (n + 1 - 1)%nat with n by lia. reflexivity.
  - rewrite (IH (S n) _ w) by exact Hlast. f_equal. cbn [length]. lia.
Qed.

(** X8: when the frame fits, serial_send returns 1 if the last write
    reported a positive byte count (complete or short) and 0 if it
    reported zero or failed, whatever the earlier writes of the same
    frame reported; the initial -1 is never returned. *)
Theorem serial_send_returns_last_write_only :
  forall ch st,
    0 <= s_cmd_offs st <= CMD_BUF_SIZE - 8 ->
    exists st' ch' result w,
      serial_send ch st = Ok (st', ch', result) /\
      last (ch_log ch') = Some w /\
      (length (ch_log ch) < length (ch_log ch'))%nat /\
      result = write_ok (ch_oracle ch) (length (ch_log ch') - 1) w /\
      (result = 1 <-> 0 < to_int (ch_oracle ch (length (ch_log ch') - 1)%nat w)).
Proof.
  intros ch st H.
  destruct (serial_send_spec ch st H) as (result & Hsend & _).
  pose proof Hsend as Hsend'.
  unfold serial_send in Hsend'.
  rewrite serial_send_finalize_ok in Hsend' by exact H. st_simpl.
  assert (Ho : s_cmd_offs (finalized st) = s_cmd_offs st + 8) by reflexivity.
  rewrite Ho in Hsend'. unfold CMD_BUF_SIZE in H.
  rewrite to_u32_id in Hsend' by lia.
  destruct (serial_send_loop (Z.to_nat (s_cmd_offs st + 8)) (s_cmd_buf (finalized st))
              (-1) (s_cmd_offs st + 8) 0 ch) as [[r1 ch1]| |] eqn:Hloop;
    st_simpl; try discriminate Hsend'.
  assert (Hr : r1 = result) by congruence. subst r1. clear Hsend'.
  apply serial_send_loop_result in Hloop; [|unfold INT_MAX; lia|lia|lia].
  set (ws := spec_chunks (s_cmd_buf (finalized st)) 0 (s_cmd_offs st + 8)) in *.
  assert (Hne : exists w, last ws = Some w).
  { subst ws. rewrite spec_chunks_cons by lia.
    destruct (last (_ :: _)) as [w|] eqn:Hl.
    - exists w. reflexivity.
    - apply last_None in Hl. discriminate Hl. }
  destruct Hne as [w Hw].
  eexists. eexists. exists result, w.
  split; [exact Hsend|]. cbn [ch_log].
  assert (Hlen : (0 < length ws)%nat).
  { destruct ws; [discriminate Hw|cbn; lia]. }
  split.
  { rewrite last_app, Hw. reflexivity. }
  split; [rewrite length_app; lia|].
  assert (Hres : result = write_ok (ch_oracle ch)
                            (length (ch_log ch ++ ws) - 1) w).
  { rewrite Hloop. rewrite (last_write_result_last _ _ _ _ w Hw).
    rewrite length_app. reflexivity. }
  split; [exact Hres|].
  rewrite Hres. unfold write_ok.
  destruct (Z.gtb_spec (to_int (ch_oracle ch (length (ch_log ch ++ ws) - 1)%nat w)) 0);
    split; intros; try lia; try discriminate.
Qed.

Lemma serial_send_returns_last_write_only_witness :
  0 <= s_cmd_offs state_2492 <= CMD_BUF_SIZE - 8 /\
  exists st' ch' result w,
    serial_send dead_channel state_2492 = Ok (st', ch', result) /\
    last (ch_log ch') = Some w /\ result = 0.
Proof.
  assert (H : 0 <= s_cmd_offs state_2492 <= CMD_BUF_SIZE - 8).
  { unfold state_2492, CMD_BUF_SIZE. st_simpl. lia. }
  split; [exact H|].
  destruct (serial_send_returns_last_write_only dead_channel state_2492 H)
    as (st' & ch' & result & w & Hs & Hl & _ & Hr & _).
  exists st', ch', result, w. split; [exact Hs|]. split; [exact Hl|].
  rewrite Hr. reflexivity.
Defined.

(** ** Region codes and the result of line_clip *)

Lemma compute_code_zero_inside st x y :
  compute_code st x y = 0 <-> inside st x y.
Proof.
  unfold inside. pose proof (code_zero st x y) as Hz.
  unfold is_left, is_right, is_bottom, is_top in Hz.
  destruct (Z.eqb_spec (compute_code st x y) 0) as [He|He];
    destruct (Z.ltb_spec x (s_xmin st)), (Z.leb_spec (s_xmin st) x),
             (Z.ltb_spec (s_xmax st) x), (Z.ltb_spec y (s_ymin st)),
             (Z.leb_spec (s_ymin st) y), (Z.ltb_spec (s_ymax st) y);
    cbn [andb orb negb] in Hz; try discriminate Hz; try lia;
    split; intros; try lia; try contradiction.
Qed.

(** X9: the region code is 0 exactly for the points inside the window,
    boundaries included; each bit stands for one strict comparison; LEFT
    and RIGHT are never set together, nor TOP and BOTTOM, whatever the
    window (even an empty one with xmin > xmax, where LEFT wins). *)
Theorem compute_code_regions :
  forall st x y,
    (compute_code st x y = 0 <-> inside st x y) /\
    (Z.land (compute_code st x y) LEFT <> 0 <-> x < s_xmin st) /\
    (Z.land (compute_code st x y) RIGHT <> 0 <-> s_xmin st <= x /\ s_xmax st < x) /\
    (Z.land (compute_code st x y) BOTTOM <> 0 <-> y < s_ymin st) /\
    (Z.land (compute_code st x y) TOP <> 0 <-> s_ymin st <= y /\ s_ymax st < y) /\
    Z.land (compute_code st x y) (Z.lor LEFT RIGHT) <> Z.lor LEFT RIGHT /\
    Z.land (compute_code st x y) (Z.lor TOP BOTTOM) <> Z.lor TOP BOTTOM /\
    0 <= compute_code st x y <= 10.
Proof.
  intros st x y.
  pose proof (code_zero st x y) as Hz. pose proof (code_left st x y) as Hl.
  pose proof (code_right st x y) as Hr. pose proof (code_bottom st x y) as Hb.
  pose proof (code_top st x y) as Ht.
  unfold is_left, is_right, is_bottom, is_top in *.
  split; [|split; [|split; [|split; [|split]]]].
  - apply compute_code_zero_inside.
  - destruct (Z.eqb_spec (Z.land (compute_code st x y) LEFT) 0),
             (Z.ltb_spec x (s_xmin st)); cbn [negb] in Hl; try discriminate Hl;
      split; intros; try lia; try contradiction; assumption.
  - destruct (Z.eqb_spec (Z.land (compute_code st x y) RIGHT) 0),
             (Z.leb_spec (s_xmin st) x), (Z.ltb_spec (s_xmax st) x);
      cbn [negb andb] in Hr; try discriminate Hr;
      split; intros; try lia; try contradiction; assumption.
  - destruct (Z.eqb_spec (Z.land (compute_code st x y) BOTTOM) 0),
             (Z.ltb_spec y (s_ymin st)); cbn [negb] in Hb; try discriminate Hb;
      split; intros; try lia; try contradiction; assumption.
  - destruct (Z.eqb_spec (Z.land (compute_code st x y) TOP) 0),
             (Z.leb_spec (s_ymin st) y), (Z.ltb_spec (s_ymax st) y);
      cbn [negb andb] in Ht; try discriminate Ht;
      split; intros; try lia; try contradiction; assumption.
  - clear Hz Hl Hr Hb Ht. unfold compute_code.
    destruct (x <? s_xmin st), (x >? s_xmax st), (y <? s_ymin st), (y >? s_ymax st);
      vm_compute; repeat split; intros; discriminate.
Qed.

Lemma spec_replace_consistent st v p :
  codes_consistent st v -> codes_consistent st (spec_replace st v p).
Proof.
  intros [H1 H2]. unfold spec_replace, codes_consistent.
  destruct (negb (cv_code1 v =? 0));
    cbn [cv_x1 cv_y1 cv_x2 cv_y2 cv_code1 cv_code2]; auto.
Qed.

(** What the loop returns, when it returns: accept 1 with both codes
    zero, or accept 0 with a bit shared by the two codes. *)
Lemma line_clip_loop_result st fuel : forall v a v',
  codes_consistent st v ->
  line_clip_loop fuel st v = Ok (a, v') ->
  codes_consistent st v' /\
  ((a = 1 /\ cv_code1 v' = 0 /\ cv_code2 v' = 0) \/
   (a = 0 /\ Z.land (cv_code1 v') (cv_code2 v') <> 0)).
Proof.
  induction fuel as [|fuel IH]; intros v a v' Hc Hrun; [discriminate Hrun|].
  cbn [line_clip_loop] in Hrun. rewrite line_clip_iter_cases in Hrun.
  destruct (Z.eqb_spec (cv_code1 v) 0) as [H1|H1];
    destruct (Z.eqb_spec (cv_code2 v) 0) as [H2|H2]; cbn [andb negb] in Hrun.
  - st_simpl. injection Hrun as <- <-. auto.
  - destruct (Z.eqb_spec (Z.land (cv_code1 v) (cv_code2 v)) 0) as [H3|H3];
      cbn [negb] in Hrun.
    + destruct (clip_intersect st v (cv_code2 v)) as [p| |]; st_simpl;
        try discriminate Hrun.
      apply IH in Hrun; [exact Hrun|]. apply spec_replace_consistent. exact Hc.
    + st_simpl. injection Hrun as <- <-. auto.
  - destruct (Z.eqb_spec (Z.land (cv_code1 v) (cv_code2 v)) 0) as [H3|H3];
      cbn [negb] in Hrun.
    + destruct (clip_intersect st v (cv_code1 v)) as [p| |]; st_simpl;
        try discriminate Hrun.
      apply IH in Hrun; [exact Hrun|]. apply spec_replace_consistent. exact Hc.
    + st_simpl. injection Hrun as <- <-. auto.
  - destruct (Z.eqb_spec (Z.land (cv_code1 v) (cv_code2 v)) 0) as [H3|H3];
      cbn [negb] in Hrun.
    + destruct (clip_intersect st v (cv_code1 v)) as [p| |]; st_simpl;
        try discriminate Hrun.
      apply IH in Hrun; [exact Hrun|]. apply spec_replace_consistent. exact Hc.
    + st_simpl. injection Hrun as <- <-. auto.
Qed.

(** X10: whenever line_clip returns, accept is 1 or 0; with accept 1
    both end points it hands back lie inside the clip window; with accept
    0 they lie on the same outer side of one window boundary. *)
Theorem line_clip_result_classified :
  forall fuel st x1 y1 x2 y2 accept a b c d,
    line_clip fuel st x1 y1 x2 y2 = Ok (accept, (a, b, c, d)) ->
    (accept = 1 /\ inside st a b /\ inside st c d) \/
    (accept = 0 /\
     ((a < s_xmin st /\ c < s_xmin st) \/ (s_xmax st < a /\ s_xmax st < c) \/
      (b < s_ymin st /\ d < s_ymin st) \/ (s_ymax st < b /\ s_ymax st < d))).
Proof.
  intros fuel st x1 y1 x2 y2 accept a b c d Hrun. unfold line_clip in Hrun.
  destruct (line_clip_loop fuel st _) as [[acc v']| |] eqn:Hloop; st_simpl;
    try discriminate Hrun.
  injection Hrun as -> <- <- <- <-.
  apply line_clip_loop_result in Hloop; [|apply line_clip_initial_consistent].
  destruct Hloop as ([Hc1 Hc2] & [(-> & H1 & H2)|(-> & Hs)]).
  - left. split; [reflexivity|].
    rewrite Hc1 in H1. rewrite Hc2 in H2.
    split; apply compute_code_zero_inside; assumption.
  - right. split; [reflexivity|].
    rewrite Hc1, Hc2 in Hs.
    assert (Hb : negb (Z.land (compute_code st (cv_x1 v') (cv_y1 v'))
                         (compute_code st (cv_x2 v') (cv_y2 v')) =? 0) = true).
    { destruct (Z.eqb_spec (Z.land (compute_code st (cv_x1 v') (cv_y1 v'))
                              (compute_code st (cv_x2 v') (cv_y2 v'))) 0);
        [contradiction|reflexivity]. }
    rewrite code_shared in Hb. unfold is_left, is_right, is_bottom, is_top in Hb.
    repeat match type of Hb with
           | context [?p <=? ?q] => destruct (Z.leb_spec p q)
           | context [?p <? ?q] => destruct (Z.ltb_spec p q)
           end; cbn [andb orb] in Hb; try discriminate Hb; lia.
Qed.

Lemma line_clip_result_classified_witness :
  line_clip 5 scenario_window (-100) 500 2000 1500 = Ok (1, (0, 547, 950, 1000)) /\
  inside scenario_window 0 547 /\ inside scenario_window 950 1000.
Proof.
  assert (H : line_clip 5 scenario_window (-100) 500 2000 1500
              = Ok (1, (0, 547, 950, 1000))).
  { vm_compute. reflexivity. }
  split; [exact H|].
  destruct (line_clip_result_classified 5 scenario_window (-100) 500 2000 1500
              1 0 547 950 1000 H) as [(_ & H1 & H2)|(Hz & _)].
  - split; assumption.
  - discriminate Hz.
Defined.

(** X11: a segment whose two end points lie on the same outer side of a
    window boundary is rejected at the first test of the loop, with its
    end points untouched, and zvgFrameVector then does nothing at all:
    no command is appended, the path length, the last point and the rest
    of the state stay as they were, and 0 is returned. *)
Theorem vector_outside_one_boundary_is_noop :
  forall bd fuel st x1 y1 x2 y2,
    (x1 < s_xmin st /\ x2 < s_xmin st) \/
    (s_xmin st <= x1 /\ s_xmax st < x1 /\ s_xmin st <= x2 /\ s_xmax st < x2) \/
    (y1 < s_ymin st /\ y2 < s_ymin st) \/
    (s_ymin st <= y1 /\ s_ymax st < y1 /\ s_ymin st <= y2 /\ s_ymax st < y2) ->
    line_clip (S fuel) st x1 y1 x2 y2 = Ok (0, (x1, y1, x2, y2)) /\
    zvgFrameVector bd (S fuel) x1 y1 x2 y2 st = Ok (st, 0).
Proof.
  intros bd fuel st x1 y1 x2 y2 H.
  assert (Hclip : line_clip (S fuel) st x1 y1 x2 y2 = Ok (0, (x1, y1, x2, y2))).
  { unfold line_clip. cbn [line_clip_loop]. rewrite line_clip_iter_cases.
    cbn [cv_x cv_y cv_x1 cv_y1 cv_x2 cv_y2 cv_code1 cv_code2].
    rewrite !code_zero, code_shared.
    unfold is_left, is_right, is_bottom, is_top.
    destruct H as [[H1 H2]|[(H1 & H2 & H3 & H4)|[[H1 H2]|(H1 & H2 & H3 & H4)]]].
    - rewrite (proj2 (Z.ltb_lt x1 (s_xmin st)) H1), (proj2 (Z.ltb_lt x2 (s_xmin st)) H2).
      reflexivity.
    - rewrite (proj2 (Z.ltb_ge x1 (s_xmin st)) H1), (proj2 (Z.ltb_ge x2 (s_xmin st)) H3).
      rewrite (proj2 (Z.leb_le (s_xmin st) x1) H1), (proj2 (Z.leb_le (s_xmin st) x2) H3).
      rewrite (proj2 (Z.ltb_lt (s_xmax st) x1) H2), (proj2 (Z.ltb_lt (s_xmax st) x2) H4).
      reflexivity.
    - rewrite (proj2 (Z.ltb_lt y1 (s_ymin st)) H1), (proj2 (Z.ltb_lt y2 (s_ymin st)) H2).
      cbn [andb orb negb]. rewrite ?orb_true_r. cbn [andb orb negb].
      rewrite ?orb_true_r. reflexivity.
    - rewrite (proj2 (Z.ltb_ge y1 (s_ymin st)) H1), (proj2 (Z.ltb_ge y2 (s_ymin st)) H3).
      rewrite (proj2 (Z.leb_le (s_ymin st) y1) H1), (proj2 (Z.leb_le (s_ymin st) y2) H3).
      rewrite (proj2 (Z.ltb_lt (s_ymax st) y1) H2), (proj2 (Z.ltb_lt (s_ymax st) y2) H4).
      cbn [andb orb negb]. rewrite ?orb_true_r. cbn [andb orb negb].
      rewrite ?orb_true_r. reflexivity. }
  split; [exact Hclip|].
  unfold zvgFrameVector. rewrite Hclip. reflexivity.
Qed.

Lemma vector_outside_one_boundary_is_noop_witness :
  ((-5 < s_xmin scenario_window /\ -1 < s_xmin scenario_window) \/
   (s_xmin scenario_window <= -5 /\ s_xmax scenario_window < -5 /\
    s_xmin scenario_window <= -1 /\ s_xmax scenario_window < -1) \/
   (10 < s_ymin scenario_window /\ 2000 < s_ymin scenario_window) \/
   (s_ymin scenario_window <= 10 /\ s_ymax scenario_window < 10 /\
    s_ymin scenario_window <= 2000 /\ s_ymax scenario_window < 2000)) /\
  zvgFrameVector scenario_bounds 1 (-5) 10 (-1) 2000 scenario_window
  = Ok (scenario_window, 0).
Proof.
  assert (H : (-5 < s_xmin scenario_window /\ -1 < s_xmin scenario_window) \/
              (s_xmin scenario_window <= -5 /\ s_xmax scenario_window < -5 /\
               s_xmin scenario_window <= -1 /\ s_xmax scenario_window < -1) \/
              (10 < s_ymin scenario_window /\ 2000 < s_ymin scenario_window) \/
              (s_ymin scenario_window <= 10 /\ s_ymax scenario_window < 10 /\
               s_ymin scenario_window <= 2000 /\ s_ymax scenario_window < 2000)).
  { left. unfold scenario_window. st_simpl. lia. }
  split; [exact H|].
  exact (proj2 (vector_outside_one_boundary_is_noop scenario_bounds 0
                  scenario_window (-5) 10 (-1) 2000 H)).
Defined.

(** X12: a segment with both end points inside the window, boundaries
    included, is accepted at the first test with its end points
    unchanged; this covers a clip window that is a single point or line
    (xmin = xmax or ymin = ymax). *)
Theorem line_clip_inside_segment_unchanged :
  forall fuel st x1 y1 x2 y2,
    inside st x1 y1 -> inside st x2 y2 ->
    line_clip (S fuel) st x1 y1 x2 y2 = Ok (1, (x1, y1, x2, y2)).
Proof.
  intros fuel st x1 y1 x2 y2 [Hx1 Hy1] [Hx2 Hy2].
  unfold line_clip. rewrite !compute_code_inside by assumption. reflexivity.
Qed.

Lemma line_clip_inside_segment_unchanged_witness :
  inside scenario_window 0 0 /\ inside scenario_window 1000 500 /\
  line_clip 1 scenario_window 0 0 1000 500 = Ok (1, (0, 0, 1000, 500)).
Proof.
  assert (H1 : inside scenario_window 0 0).
  { unfold inside, scenario_window. st_simpl. lia. }
  assert (H2 : inside scenario_window 1000 500).
  { unfold inside, scenario_window. st_simpl. lia. }
  split; [exact H1|]. split; [exact H2|].
  exact (line_clip_inside_segment_unchanged 0 scenario_window 0 0 1000 500 H1 H2).
Defined.

(** X13: a zero-length segment never reaches an intersection
    computation: it is accepted if the point is inside the window and
    rejected otherwise, unchanged in both cases, in one pass. *)
Theorem line_clip_single_point :
  forall fuel st x y,
    line_clip (S fuel) st x y x y
    = Ok (if compute_code st x y =? 0 then 1 else 0, (x, y, x, y)).
Proof.
  intros fuel st x y. unfold line_clip. cbn [line_clip_loop].
  rewrite line_clip_iter_cases. cbn [cv_code1 cv_code2].
  rewrite Z.land_diag.
  destruct (Z.eqb_spec (compute_code st x y) 0); cbn [andb negb]; reflexivity.
Qed.

Lemma compute_code_right st x y :
  s_xmin st <= x -> s_xmax st < x -> s_ymin st <= y <= s_ymax st ->
  compute_code st x y = RIGHT.
Proof.
  intros H1 H2 H3. unfold compute_code.
  destruct (Z.ltb_spec x (s_xmin st)); [lia|].
  destruct (Z.gtb_spec x (s_xmax st)); [|lia].
  destruct (Z.ltb_spec y (s_ymin st)); [lia|].
  destruct (Z.gtb_spec y (s_ymax st)); [lia|]. reflexivity.
Qed.

(** X14: a segment that starts inside the window and ends to the right
    of it, at a height within the window, is accepted in two passes; the
    start is unchanged and the end becomes the point of the right
    boundary x = xmax whose y is y1 plus the truncated quotient of
    (y2 - y1)(xmax - x1) by (x2 - x1), which lies between y1 and y2.  Coordinates are in the
    range where int arithmetic does not wrap. *)
Theorem line_clip_crossing_right_boundary :
  forall fuel st x1 y1 x2 y2,
    window_safe st -> clip_safe x1 -> clip_safe y1 -> clip_safe x2 -> clip_safe y2 ->
    inside st x1 y1 ->
    s_xmax st < x2 -> s_ymin st <= y2 <= s_ymax st ->
    line_clip (S (S fuel)) st x1 y1 x2 y2
    = Ok (1, (x1, y1, s_xmax st, y1 + ((y2 - y1) * (s_xmax st - x1)) ÷ (x2 - x1))) /\
    Z.min y1 y2 <= y1 + ((y2 - y1) * (s_xmax st - x1)) ÷ (x2 - x1) <= Z.max y1 y2.
Proof.
  intros fuel st x1 y1 x2 y2 Hw Hx1 Hy1 Hx2 Hy2 [Hix Hiy] Hr Hy.
  pose proof (interp_between y1 y2 x1 x2 (s_xmax st) ltac:(lia)) as Hb.
  unfold interp in Hb. split; [|exact Hb].
  unfold line_clip.
  rewrite (compute_code_inside st x1 y1) by assumption.
  rewrite (compute_code_right st x2 y2) by lia.
  set (v := mkClip 0 0 x1 y1 x2 y2 0 RIGHT).
  assert (Hc : codes_consistent st v).
  { split; cbn [v cv_code1 cv_code2 cv_x1 cv_y1 cv_x2 cv_y2].
    - symmetry. apply compute_code_inside; assumption.
    - symmetry. apply compute_code_right; lia. }
  destruct (line_clip_iter_safe st v Hw) as (b & Hfb & Hiter);
    [exact (conj Hx1 (conj Hy1 (conj Hx2 Hy2)))|exact Hc|reflexivity|].
  cbn in Hfb. injection Hfb as <-.
  cbn [line_clip_loop]. rewrite Hiter. st_simpl.
  unfold spec_replace, spec_intersection.
  cbn [v cv_code1 cv_code2 cv_x1 cv_y1 cv_x2 cv_y2 fst snd Z.eqb negb RIGHT TOP BOTTOM
         Pos.eqb].
  rewrite line_clip_iter_cases.
  cbn [cv_code1 cv_code2 cv_x1 cv_y1 cv_x2 cv_y2 Z.eqb andb].
  rewrite compute_code_inside by lia.
  reflexivity.
Qed.

Lemma line_clip_crossing_right_boundary_witness :
  (window_safe scenario_window /\ clip_safe 500 /\ clip_safe 500 /\
   clip_safe 1500 /\ clip_safe 700 /\ inside scenario_window 500 500 /\
   s_xmax scenario_window < 1500 /\
   s_ymin scenario_window <= 700 <= s_ymax scenario_window) /\
  line_clip 2 scenario_window 500 500 1500 700 = Ok (1, (500, 500, 1000, 600)).
Proof.
  assert (H : window_safe scenario_window /\ clip_safe 500 /\ clip_safe 500 /\
              clip_safe 1500 /\ clip_safe 700 /\ inside scenario_window 500 500 /\
              s_xmax scenario_window < 1500 /\
              s_ymin scenario_window <= 700 <= s_ymax scenario_window).
  { unfold window_safe, clip_safe, CLIP_SAFE, inside, scenario_window. st_simpl. lia. }
  split; [exact H|].
  destruct H as (Hw & H1 & H2 & H3 & H4 & H5 & H6 & H7).
  rewrite (proj1 (line_clip_crossing_right_boundary 0 scenario_window 500 500 1500 700
                    Hw H1 H2 H3 H4 H5 H6 H7)).
  reflexivity.
Defined.

(** ** Command words: packing and unpacking *)

Lemma lor_add_disjoint hi lo k :
  0 <= k -> 0 <= lo < 2 ^ k -> Z.lor (hi * 2 ^ k) lo = hi * 2 ^ k + lo.
Proof.
  intros Hk Hlo.
  assert (Hd : Z.land (hi * 2 ^ k) lo = 0).
  { apply Z.bits_inj'. intros n Hn. rewrite Z.land_spec, Z.bits_0.
    destruct (Z.lt_ge_cases n k).
    - rewrite Z.mul_pow2_bits_low by lia. reflexivity.
    - rewrite <- (Z.mod_small lo (2 ^ k)) by lia.
      rewrite Z.testbit_mod_pow2 by lia.
      destruct (Z.ltb_spec n k); [lia|]. apply andb_false_r. }
  rewrite Z.add_nocarry_lxor by exact Hd.
  rewrite Z.lxor_lor by exact Hd. reflexivity.
Qed.

(** The XY word as a sum of its fields. *)
Lemma xy_cmd_sum blank x y :
  xy_cmd blank x y
  = ((4 + blank mod 2) * 16384 + x mod 16384) * 16384 + y mod 16384.
Proof.
  unfold xy_cmd, FLAG_XY.
  change 16383 with (Z.ones 14). change 1 with (Z.ones 1).
  rewrite !Z.land_ones by lia.
  rewrite !Z.shiftl_mul_pow2 by lia.
  change (2 ^ 1) with 2. change (2 ^ 14) with 16384.
  pose proof (Z.mod_pos_bound blank 2 ltac:(lia)).
  pose proof (Z.mod_pos_bound x 16384 ltac:(lia)).
  pose proof (Z.mod_pos_bound y 16384 ltac:(lia)).
  rewrite (lor_add_disjoint 2 (blank mod 2 * 2 ^ 28) 29)
    by (change (2 ^ 28) with 268435456; change (2 ^ 29) with 536870912; lia).
  replace (2 * 2 ^ 29 + blank mod 2 * 2 ^ 28) with ((4 + blank mod 2) * 2 ^ 28)
    by (change (2 ^ 28) with 268435456; change (2 ^ 29) with 536870912; lia).
  rewrite (lor_add_disjoint (4 + blank mod 2) (x mod 16384 * 16384) 28)
    by (change (2 ^ 28) with 268435456; lia).
  replace ((4 + blank mod 2) * 2 ^ 28 + x mod 16384 * 16384)
    with (((4 + blank mod 2) * 16384 + x mod 16384) * 2 ^ 14)
    by (change (2 ^ 28) with 268435456; change (2 ^ 14) with 16384; lia).
  rewrite (lor_add_disjoint _ (y mod 16384) 14)
    by (change (2 ^ 14) with 16384; lia).
  change (2 ^ 14) with 16384.
  apply to_u32_id. lia.
Qed.

(** X15: an XY word unpacks to what was packed: tag XY, the low bit of
    blank, and x and y reduced to 14 bits; a coordinate outside 0..16383
    (a negative or an unclamped one) is stored modulo 16384. *)
Theorem xy_word_fields :
  forall blank x y,
    cmd_tag (xy_cmd blank x y) = FLAG_XY /\
    xy_blank (xy_cmd blank x y) = blank mod 2 /\
    xy_x (xy_cmd blank x y) = x mod 16384 /\
    xy_y (xy_cmd blank x y) = y mod 16384 /\
    0 <= xy_cmd blank x y < 4294967296.
Proof.
  intros blank x y. rewrite xy_cmd_sum.
  unfold cmd_tag, xy_blank, xy_x, xy_y, FLAG_XY.
  change 16383 with (Z.ones 14). change 1 with (Z.ones 1).
  rewrite !Z.land_ones by lia. rewrite !Z.shiftr_div_pow2 by lia.
  change (2 ^ 1) with 2. change (2 ^ 14) with 16384.
  change (2 ^ 28) with 268435456. change (2 ^ 29) with 536870912.
  pose proof (Z.mod_pos_bound blank 2 ltac:(lia)).
  pose proof (Z.mod_pos_bound x 16384 ltac:(lia)).
  pose proof (Z.mod_pos_bound y 16384 ltac:(lia)).
  set (b := blank mod 2) in *. set (x' := x mod 16384) in *.
  set (y' := y mod 16384) in *. clearbody b x' y'.
  repeat split; try lia; Z.div_mod_to_equations; lia.
Qed.

Lemma rgb_cmd_sum r g b :
  rgb_cmd r g b = ((8192 + r mod 256) * 256 + g mod 256) * 256 + b mod 256.
Proof.
  unfold rgb_cmd, FLAG_RGB.
  change 255 with (Z.ones 8). rewrite !Z.land_ones by lia.
  rewrite !Z.shiftl_mul_pow2 by lia.
  change (2 ^ 8) with 256.
  pose proof (Z.mod_pos_bound r 256 ltac:(lia)).
  pose proof (Z.mod_pos_bound g 256 ltac:(lia)).
  pose proof (Z.mod_pos_bound b 256 ltac:(lia)).
  rewrite (lor_add_disjoint 1 (r mod 256 * 2 ^ 16) 29)
    by (change (2 ^ 16) with 65536; change (2 ^ 29) with 536870912; lia).
  replace (1 * 2 ^ 29 + r mod 256 * 2 ^ 16) with ((8192 + r mod 256) * 2 ^ 16)
    by (change (2 ^ 16) with 65536; change (2 ^ 29) with 536870912; lia).
  rewrite (lor_add_disjoint (8192 + r mod 256) (g mod 256 * 256) 16)
    by (change (2 ^ 16) with 65536; lia).
  replace ((8192 + r mod 256) * 2 ^ 16 + g mod 256 * 256)
    with (((8192 + r mod 256) * 256 + g mod 256) * 2 ^ 8)
    by (change (2 ^ 16) with 65536; change (2 ^ 8) with 256; lia).
  rewrite (lor_add_disjoint _ (b mod 256) 8) by (change (2 ^ 8) with 256; lia).
  change (2 ^ 8) with 256.
  apply to_u32_id. lia.
Qed.

(** X16: with room in the buffer, zvgFrameSetRGB15 appends one word at
    the write offset and moves the offset by 4; the word has tag RGB and
    its three 8-bit fields are the colour just stored as the last colour;
    every other word of the buffer is left as it was. *)
Theorem setcolor_appends_rgb_word :
  forall red green blue st,
    0 <= s_cmd_offs st <= CMD_BUF_SIZE - 8 ->
    exists st',
      zvgFrameSetRGB15 red green blue st = Ok st' /\
      s_cmd_offs st' = s_cmd_offs st + 4 /\
      cmd_tag (word_at (s_cmd_buf st') (s_cmd_offs st)) = FLAG_RGB /\
      (rgb_r (word_at (s_cmd_buf st') (s_cmd_offs st)),
       rgb_g (word_at (s_cmd_buf st') (s_cmd_offs st)),
       rgb_b (word_at (s_cmd_buf st') (s_cmd_offs st)))
      = (s_last_r st', s_last_g st', s_last_b st') /\
      (forall j, j + 4 <= s_cmd_offs st \/ s_cmd_offs st + 4 <= j ->
                 word_at (s_cmd_buf st') j = word_at (s_cmd_buf st) j).
Proof.
  intros red green blue st H. unfold zvgFrameSetRGB15, push_cmd_guarded.
  st_simpl.
  destruct (Z.leb_spec (s_cmd_offs st) (CMD_BUF_SIZE - 8)); [|lia].
  rewrite push_cmd_ok by (st_simpl; lia). st_simpl.
  eexists. split; [reflexivity|]. st_simpl.
  split; [reflexivity|].
  match goal with
  | |- context [cmd_bytes ?c _ _] => set (cmd := c)
  end.
  set (r := if to_u16 (Z.shiftl (to_u8 red) 3) >? 255 then 255
            else to_u16 (Z.shiftl (to_u8 red) 3)) in *.
  set (g := if to_u16 (Z.shiftl (to_u8 green) 3) >? 255 then 255
            else to_u16 (Z.shiftl (to_u8 green) 3)) in *.
  set (b := if to_u16 (Z.shiftl (to_u8 blue) 3) >? 255 then 255
            else to_u16 (Z.shiftl (to_u8 blue) 3)) in *.
  assert (Hcmd : cmd = rgb_cmd r g b) by reflexivity.
  rewrite word_at_cmd_bytes by (rewrite Hcmd; apply to_u32_range).
  rewrite Hcmd, rgb_cmd_sum.
  unfold cmd_tag, rgb_r, rgb_g, rgb_b, FLAG_RGB, to_u8.
  change 255 with (Z.ones 8) at 1 2 3.
  rewrite !Z.land_ones by lia. rewrite !Z.shiftr_div_pow2 by lia.
  change (2 ^ 8) with 256. change (2 ^ 16) with 65536. change (2 ^ 29) with 536870912.
  pose proof (Z.mod_pos_bound r 256 ltac:(lia)).
  pose proof (Z.mod_pos_bound g 256 ltac:(lia)).
  pose proof (Z.mod_pos_bound b 256 ltac:(lia)).
  set (r' := r mod 256) in *. set (g' := g mod 256) in *. set (b' := b mod 256) in *.
  clearbody r' g' b'.
  split; [Z.div_mod_to_equations; lia|].
  split.
  - f_equal; [f_equal|]; Z.div_mod_to_equations; lia.
  - intros j Hj. apply word_at_cmd_bytes_other. lia.
Qed.

Lemma setcolor_appends_rgb_word_witness :
  0 <= s_cmd_offs (cmd_reset init_state) <= CMD_BUF_SIZE - 8 /\
  exists st',
    zvgFrameSetRGB15 31 16 0 (cmd_reset init_state) = Ok st' /\
    s_cmd_offs st' = 8 /\
    (rgb_r (word_at (s_cmd_buf st') 4), rgb_g (word_at (s_cmd_buf st') 4),
     rgb_b (word_at (s_cmd_buf st') 4)) = (248, 128, 0).
Proof.
  assert (H : 0 <= s_cmd_offs (cmd_reset init_state) <= CMD_BUF_SIZE - 8).
  { unfold CMD_BUF_SIZE. st_simpl. lia. }
  split; [exact H|].
  destruct (setcolor_appends_rgb_word 31 16 0 (cmd_reset init_state) H)
    as (st' & Hrun & Ho & _ & Hf & _).
  exists st'. split; [exact Hrun|]. split; [exact Ho|].
  assert (Hst : Ok st' = zvgFrameSetRGB15 31 16 0 (cmd_reset init_state))
    by (symmetry; exact Hrun).
  vm_compute in Hst. injection Hst as ->. reflexivity.
Defined.

(** ** CONVX and CONVY on the logical range *)

(** Within a logical range at most 524287 wide the scaling does not wrap
    and is the floor of (x - lo) * 4095 / (hi - lo). *)
Lemma conv_exact lo hi x :
  0 < hi - lo <= 524287 -> lo <= x <= hi ->
  int_div (to_int (to_int (x - lo) * DVG_RES_MAX)) (to_int (hi - lo))
  = Ok ((x - lo) * 4095 / (hi - lo)).
Proof.
  intros Hw Hx. unfold int_div, DVG_RES_MAX.
  rewrite (to_int_id (x - lo)) by (unfold INT_MIN, INT_MAX; lia).
  rewrite (to_int_id (hi - lo)) by (unfold INT_MIN, INT_MAX; lia).
  rewrite (to_int_id ((x - lo) * 4095)) by (unfold INT_MIN, INT_MAX; lia).
  destruct (Z.eqb_spec (hi - lo) 0) as [|_]; [lia|].
  destruct (Z.eqb_spec ((x - lo) * 4095) INT_MIN) as [Hm|_];
    [unfold INT_MIN in Hm; lia|]. cbn [andb].
  rewrite Z.quot_div_nonneg by lia.
  assert (0 <= (x - lo) * 4095 / (hi - lo) <= 4095).
  { split; [apply Z.div_pos; lia|].
    apply Z.div_le_upper_bound; nia. }
  rewrite to_int_id by (unfold INT_MIN, INT_MAX; lia). reflexivity.
Qed.

Lemma conv_range lo hi x x' :
  0 < hi - lo <= 524287 -> lo <= x -> x <= x' -> x' <= hi ->
  0 <= (x - lo) * 4095 / (hi - lo) <= (x' - lo) * 4095 / (hi - lo) /\
  (x' - lo) * 4095 / (hi - lo) <= 4095.
Proof.
  intros Hw H1 H2 H3. split; [split|].
  - apply Z.div_pos; lia.
  - apply Z.div_le_mono; lia.
  - apply Z.div_le_upper_bound; nia.
Qed.

(** X17: when the logical bounds are in order and at most 524287 apart on
    each axis, CONVX and CONVY never fault on a coordinate within the
    bounds, send the lower bound to 0 and the upper bound to 4095, keep
    the order of coordinates, and so land in the device range 0..4095
    without any clamping. *)
Theorem conv_maps_logical_range_onto_device_range :
  forall bd x x' y y',
    0 < X_MAX bd - X_MIN bd <= 524287 ->
    0 < Y_MAX bd - Y_MIN bd <= 524287 ->
    X_MIN bd <= x -> x <= x' -> x' <= X_MAX bd ->
    Y_MIN bd <= y -> y <= y' -> y' <= Y_MAX bd ->
    exists u u' v v',
      CONVX bd x = Ok u /\ CONVX bd x' = Ok u' /\
      CONVY bd y = Ok v /\ CONVY bd y' = Ok v' /\
      0 <= u <= u' /\ u' <= DVG_RES_MAX /\
      0 <= v <= v' /\ v' <= DVG_RES_MAX /\
      CONVX bd (X_MIN bd) = Ok 0 /\ CONVX bd (X_MAX bd) = Ok DVG_RES_MAX /\
      CONVY bd (Y_MIN bd) = Ok 0 /\ CONVY bd (Y_MAX bd) = Ok DVG_RES_MAX.
Proof.
  intros bd x x' y y' Hwx Hwy Hx1 Hx2 Hx3 Hy1 Hy2 Hy3.
  unfold CONVX, CONVY.
  rewrite !conv_exact by lia.
  do 4 eexists. do 4 (split; [reflexivity|]).
  pose proof (conv_range (X_MIN bd) (X_MAX bd) x x' Hwx Hx1 Hx2 Hx3).
  pose proof (conv_range (Y_MIN bd) (Y_MAX bd) y y' Hwy Hy1 Hy2 Hy3).
  unfold DVG_RES_MAX.
  split; [lia|]. split; [lia|]. split; [lia|]. split; [lia|].
  replace (X_MIN bd - X_MIN bd) with 0 by lia.
  replace (Y_MIN bd - Y_MIN bd) with 0 by lia.
  rewrite !(Z.mul_comm (_ - _) 4095), !Z.div_mul by lia.
  repeat split; reflexivity.
Qed.

Lemma conv_maps_logical_range_onto_device_range_witness :
  exists u u' v v',
    CONVX scenario_bounds 250 = Ok u /\ CONVX scenario_bounds 500 = Ok u' /\
    CONVY scenario_bounds 0 = Ok v /\ CONVY scenario_bounds 1000 = Ok v' /\
    0 <= u <= u' /\ u' <= DVG_RES_MAX /\
    0 <= v <= v' /\ v' <= DVG_RES_MAX.
Proof.
  destruct (conv_maps_logical_range_onto_device_range scenario_bounds 250 500 0 1000)
    as (u & u' & v & v' & H1 & H2 & H3 & H4 & H5 & H6 & H7 & H8 & _);
    try (cbn; lia).
  exists u, u', v, v'. repeat split; first [assumption | lia].
Defined.

(** ** The words zvgFrameVector appends *)

Lemma push_cmd_guarded_room cmd st :
  0 <= s_cmd_offs st <= CMD_BUF_SIZE - 8 ->
  push_cmd_guarded cmd st
  = Ok (set_offs (s_cmd_offs st + 4)
          (set_buf (cmd_bytes cmd (s_cmd_offs st) (s_cmd_buf st)) st)).
Proof.
  intros H. unfold push_cmd_guarded.
  destruct (Z.leb_spec (s_cmd_offs st) (CMD_BUF_SIZE - 8)); [|lia].
  apply push_cmd_ok. lia.
Qed.

Lemma push_cmd_guarded_full cmd st :
  CMD_BUF_SIZE - 8 < s_cmd_offs st -> push_cmd_guarded cmd st = Ok st.
Proof.
  intros H. unfold push_cmd_guarded.
  destruct (Z.leb_spec (s_cmd_offs st) (CMD_BUF_SIZE - 8)); [lia|reflexivity].
Qed.

Lemma xy_cmd_range blank x y : 0 <= xy_cmd blank x y < 4294967296.
Proof. unfold xy_cmd. apply to_u32_range. Qed.

(** X18: an accepted vector, with room for two words, appends at the
    write offset a beam-off move to the clamped start point exactly when
    the clipped logical start differs from the stored last point in x or
    in y, and then one word for the end point whose blank bit is 1
    exactly when the last colour is black; the words before the offset
    are left as they were and the return value is 0. *)
Theorem vector_appends_move_and_draw_words :
  forall bd fuel a b c d st acc x1 y1 x2 y2 xs ys xe ye,
    0 <= s_cmd_offs st <= CMD_BUF_SIZE - 12 ->
    line_clip fuel st a b c d = Ok (acc, (x1, y1, x2, y2)) ->
    acc <> 0 ->
    CONVX bd x1 = Ok xs -> CONVY bd y1 = Ok ys ->
    CONVX bd x2 = Ok xe -> CONVY bd y2 = Ok ye ->
    exists st',
      zvgFrameVector bd fuel a b c d st = Ok (st', 0) /\
      let o := s_cmd_offs st in
      let moved := negb (x1 =? s_last_x st) || negb (y1 =? s_last_y st) in
      let black := (s_last_r st =? 0) && (s_last_g st =? 0) && (s_last_b st =? 0) in
      let o2 := if moved then o + 4 else o in
      s_cmd_offs st' = o2 + 4 /\
      (moved = true ->
       word_at (s_cmd_buf st') o = xy_cmd 1 (clamp_dev xs) (clamp_dev ys)) /\
      word_at (s_cmd_buf st') o2 = xy_cmd (if black then 1 else 0) xe ye /\
      (forall j, j + 4 <= o -> word_at (s_cmd_buf st') j = word_at (s_cmd_buf st) j).
Proof.
  intros bd fuel a b c d st acc x1 y1 x2 y2 xs ys xe ye
         Ho Hclip Hacc Hxs Hys Hxe Hye.
  unfold zvgFrameVector. rewrite Hclip. st_simpl.
  destruct (Z.eqb_spec acc 0) as [|_]; [contradiction|]. st_simpl.
  rewrite Hxs. st_simpl. rewrite Hys. st_simpl.
  rewrite Hxe. st_simpl. rewrite Hye. st_simpl.
  fold (clamp_dev xs). fold (clamp_dev ys).
  cbv zeta.
  destruct (negb (x1 =? s_last_x st) || negb (y1 =? s_last_y st)).
  - rewrite push_cmd_guarded_room by (st_simpl; lia). st_simpl.
    rewrite push_cmd_guarded_room by (st_simpl; lia). st_simpl.
    eexists. split; [reflexivity|]. st_simpl.
    split; [reflexivity|]. split; [|split].
    + intros _. rewrite word_at_cmd_bytes_other by lia.
      apply word_at_cmd_bytes, xy_cmd_range.
    + apply word_at_cmd_bytes, xy_cmd_range.
    + intros j Hj. rewrite !word_at_cmd_bytes_other by lia. reflexivity.
  - st_simpl.
    rewrite push_cmd_guarded_room by (st_simpl; lia). st_simpl.
    eexists. split; [reflexivity|]. st_simpl.
    split; [reflexivity|]. split; [|split].
    + intros Hf. discriminate Hf.
    + apply word_at_cmd_bytes, xy_cmd_range.
    + intros j Hj. rewrite !word_at_cmd_bytes_other by lia. reflexivity.
Qed.

Lemma vector_appends_move_and_draw_words_witness :
  exists st',
    zvgFrameVector scenario_bounds 5 0 0 500 500
      (set_last_rgb 248 0 0 (cmd_reset scenario_window)) = Ok (st', 0) /\
    s_cmd_offs st' = 12 /\
    word_at (s_cmd_buf st') 4 = xy_cmd 1 0 0 /\
    word_at (s_cmd_buf st') 8 = xy_cmd 0 2047 2047.
Proof.
  destruct (vector_appends_move_and_draw_words scenario_bounds 5 0 0 500 500
              (set_last_rgb 248 0 0 (cmd_reset scenario_window))
              1 0 0 500 500 0 0 2047 2047)
    as (st' & Hrun & Ho & Hm & Hd & _);
    try reflexivity; try discriminate.
  { vm_compute. split; discriminate. }
  exists st'. split; [exact Hrun|]. split; [exact Ho|].
  split; [exact (Hm eq_refl)|exact Hd].
Defined.

Lemma setcolor_stored_value x :
  to_u8 (if to_u16 (Z.shiftl (to_u8 x) 3) >? 255 then 255
         else to_u16 (Z.shiftl (to_u8 x) 3))
  = Z.min (8 * to_u8 x) 255.
Proof.
  unfold to_u8, to_u16. rewrite Z.shiftl_mul_pow2 by lia.
  change (2 ^ 3) with 8.
  pose proof (Z.mod_pos_bound x 256 ltac:(lia)).
  rewrite (Z.mod_small (x mod 256 * 8) 65536) by lia.
  destruct (Z.gtb_spec (x mod 256 * 8) 255).
  - rewrite Z.min_r by lia. reflexivity.
  - rewrite Z.min_l by lia. rewrite Z.mod_small by lia. lia.
Qed.

(** X19: with the write offset past CMD_BUF_SIZE - 8 the buffer is full.
    Every zvgFrameSetRGB15 call then stores nothing, leaves the offset
    and reports nothing, yet still replaces the last colour.  Every
    accepted zvgFrameVector call then stores nothing and leaves the
    offset, still returns 0, and still adds both lengths to the path
    length and moves the last point to the end point. *)
Theorem full_buffer_drops_words_keeps_bookkeeping :
  forall st,
    CMD_BUF_SIZE - 8 < s_cmd_offs st ->
    (forall red green blue,
        zvgFrameSetRGB15 red green blue st
        = Ok (set_last_rgb (Z.min (8 * to_u8 red) 255) (Z.min (8 * to_u8 green) 255)
                (Z.min (8 * to_u8 blue) 255) st)) /\
    (forall bd fuel a b c d acc x1 y1 x2 y2 xs ys xe ye,
        line_clip fuel st a b c d = Ok (acc, (x1, y1, x2, y2)) ->
        acc <> 0 ->
        CONVX bd x1 = Ok xs -> CONVY bd y1 = Ok ys ->
        CONVX bd x2 = Ok xe -> CONVY bd y2 = Ok ye ->
        zvgFrameVector bd fuel a b c d st
        = Ok (set_last_xy xe ye
                (set_vector_length
                   (to_int (to_int (s_vector_length st
                                    + vector_length (s_last_x st) (s_last_y st)
                                        (clamp_dev xs) (clamp_dev ys))
                            + vector_length (clamp_dev xs) (clamp_dev ys) xe ye))
                   st), 0)).
Proof.
  intros st Ho. split.
  - intros red green blue. unfold zvgFrameSetRGB15.
    rewrite push_cmd_guarded_full by (st_simpl; exact Ho).
    rewrite !setcolor_stored_value. reflexivity.
  - intros bd fuel a b c d acc x1 y1 x2 y2 xs ys xe ye Hclip Hacc Hxs Hys Hxe Hye.
    unfold zvgFrameVector. rewrite Hclip. st_simpl.
    destruct (Z.eqb_spec acc 0) as [|_]; [contradiction|]. st_simpl.
    rewrite Hxs. st_simpl. rewrite Hys. st_simpl.
    rewrite Hxe. st_simpl. rewrite Hye. st_simpl.
    fold (clamp_dev xs). fold (clamp_dev ys).
    destruct (negb (x1 =? s_last_x st) || negb (y1 =? s_last_y st)).
    + rewrite push_cmd_guarded_full by (st_simpl; exact Ho). st_simpl.
      rewrite push_cmd_guarded_full by (st_simpl; exact Ho). st_simpl.
      reflexivity.
    + st_simpl.
      rewrite push_cmd_guarded_full by (st_simpl; exact Ho). st_simpl.
      reflexivity.
Qed.

Lemma full_buffer_drops_words_keeps_bookkeeping_witness :
  CMD_BUF_SIZE - 8 < s_cmd_offs (set_offs (CMD_BUF_SIZE - 4) scenario_window) /\
  zvgFrameSetRGB15 31 0 0 (set_offs (CMD_BUF_SIZE - 4) scenario_window)
  = Ok (set_last_rgb 248 0 0 (set_offs (CMD_BUF_SIZE - 4) scenario_window)) /\
  exists len,
    zvgFrameVector scenario_bounds 5 0 0 500 500
      (set_offs (CMD_BUF_SIZE - 4) scenario_window)
    = Ok (set_last_xy 2047 2047
            (set_vector_length len (set_offs (CMD_BUF_SIZE - 4) scenario_window)), 0).
Proof.
  assert (Ho : CMD_BUF_SIZE - 8
               < s_cmd_offs (set_offs (CMD_BUF_SIZE - 4) scenario_window))
    by reflexivity.
  split; [exact Ho|].
  destruct (full_buffer_drops_words_keeps_bookkeeping
              (set_offs (CMD_BUF_SIZE - 4) scenario_window) Ho) as [Hcol Hvec].
  split; [exact (Hcol 31 0 0)|].
  eexists.
  refine (Hvec scenario_bounds 5%nat 0 0 500 500 1 0 0 500 500 0 0 2047 2047
            _ _ _ _ _ _);
    try (vm_compute; reflexivity); discriminate.
Defined.

(** ** Faults of the driver *)

Lemma int_div_value_or_div a b : value_or_div (int_div a b).
Proof.
  unfold int_div, value_or_div, div_fault.
  destruct (b =? 0); [auto|].
  destruct ((a =? INT_MIN) && (b =? -1)); auto.
Qed.

Lemma clip_intersect_value_or_div st v code : value_or_div (clip_intersect st v code).
Proof.
  unfold clip_intersect.
  repeat match goal with
         | |- context [negb (?c =? 0)] => destruct (negb (c =? 0))
         end;
    try exact I;
    match goal with
    | |- context [int_div ?a ?b] =>
        pose proof (int_div_value_or_div a b) as H; destruct (int_div a b)
    end; st_simpl; cbn in *; auto.
Qed.

(** The clipping loop stores nothing: it returns, fails in a division
    or runs out of fuel. *)
Lemma line_clip_loop_faults fuel st : forall v,
  match line_clip_loop fuel st v with
  | Fault f => div_fault f
  | _ => True
  end.
Proof.
  induction fuel as [|fuel IH]; intros v; [exact I|].
  cbn [line_clip_loop]. rewrite line_clip_iter_cases.
  destruct ((cv_code1 v =? 0) && (cv_code2 v =? 0)); [exact I|].
  destruct (negb (Z.land (cv_code1 v) (cv_code2 v) =? 0)); [exact I|].
  match goal with
  | |- context [clip_intersect ?s ?w ?c] =>
      pose proof (clip_intersect_value_or_div s w c) as H;
      destruct (clip_intersect s w c) as [p| |]
  end; st_simpl; cbn in H; auto.
  apply IH.
Qed.

Lemma line_clip_faults fuel st a b c d :
  match line_clip fuel st a b c d with
  | Fault f => div_fault f
  | _ => True
  end.
Proof.
  unfold line_clip.
  match goal with
  | |- context [line_clip_loop ?f ?s ?v] =>
      pose proof (line_clip_loop_faults f s v) as H;
      destruct (line_clip_loop f s v) as [[acc v']| |]
  end; st_simpl; auto.
Qed.

(** zvgFrameVector from a non-negative offset: what it can return. *)
Lemma zvgFrameVector_outcome bd fuel a b c d st :
  0 <= s_cmd_offs st ->
  match zvgFrameVector bd fuel a b c d st with
  | Ok (st', r) =>
      r = 0 /\ s_cmd_offs st <= s_cmd_offs st' /\
      (s_cmd_offs st' <= CMD_BUF_SIZE - 4 \/ s_cmd_offs st' = s_cmd_offs st) /\
      window st' = window st /\ s_serial_fd st' = s_serial_fd st
  | Fault f => div_fault f
  | OutOfFuel => True
  end.
Proof.
  intros Ho.
  pose proof (line_clip_faults fuel st a b c d) as Hlc.
  destruct (line_clip fuel st a b c d) as [[acc [[[x1 y1] x2] y2]]|f|] eqn:Hclip;
    [|unfold zvgFrameVector; rewrite Hclip; st_simpl; auto ..].
  destruct (Z.eq_dec acc 0) as [->|Hacc].
  { unfold zvgFrameVector. rewrite Hclip. st_simpl.
    cbn [Z.eqb negb]. repeat split; lia. }
  pose proof (int_div_value_or_div (to_int (to_int (x1 - X_MIN bd) * DVG_RES_MAX))
                (to_int (X_MAX bd - X_MIN bd))) as H1.
  pose proof (int_div_value_or_div (to_int (to_int (y1 - Y_MIN bd) * DVG_RES_MAX))
                (to_int (Y_MAX bd - Y_MIN bd))) as H2.
  pose proof (int_div_value_or_div (to_int (to_int (x2 - X_MIN bd) * DVG_RES_MAX))
                (to_int (X_MAX bd - X_MIN bd))) as H3.
  pose proof (int_div_value_or_div (to_int (to_int (y2 - Y_MIN bd) * DVG_RES_MAX))
                (to_int (Y_MAX bd - Y_MIN bd))) as H4.
  fold (CONVX bd x1) in H1. fold (CONVY bd y1) in H2.
  fold (CONVX bd x2) in H3. fold (CONVY bd y2) in H4.
  destruct (CONVX bd x1) as [xs|f|] eqn:Hxs;
    [|unfold zvgFrameVector; rewrite Hclip; st_simpl;
      destruct (Z.eqb_spec acc 0); [contradiction|]; st_simpl;
      rewrite Hxs; st_simpl; cbn in H1; auto ..].
  destruct (CONVY bd y1) as [ys|f|] eqn:Hys;
    [|unfold zvgFrameVector; rewrite Hclip; st_simpl;
      destruct (Z.eqb_spec acc 0); [contradiction|]; st_simpl;
      rewrite Hxs; st_simpl; rewrite Hys; st_simpl; cbn in H2; auto ..].
  destruct (CONVX bd x2) as [xe|f|] eqn:Hxe;
    [|unfold zvgFrameVector; rewrite Hclip; st_simpl;
      destruct (Z.eqb_spec acc 0); [contradiction|]; st_simpl;
      rewrite Hxs; st_simpl; rewrite Hys; st_simpl; rewrite Hxe; st_simpl;
      cbn in H3; auto ..].
  destruct (CONVY bd y2) as [ye|f|] eqn:Hye;
    [|unfold zvgFrameVector; rewrite Hclip; st_simpl;
      destruct (Z.eqb_spec acc 0); [contradiction|]; st_simpl;
      rewrite Hxs; st_simpl; rewrite Hys; st_simpl; rewrite Hxe; st_simpl;
      rewrite Hye; st_simpl; cbn in H4; auto ..].
  destruct (zvgFrameVector_accept bd fuel a b c d st acc x1 y1 x2 y2 xs ys xe ye
              Ho Hclip Hacc Hxs Hys Hxe Hye)
    as (st2 & -> & _ & _ & _ & _ & Hfd & Hw & Ho1 & Ho2 & _).
  unfold window. auto.
Qed.

(** A word pushed with fewer than four bytes left stores the bytes that
    fit and faults at the first index past the buffer. *)
Lemma push_cmd_overflow cmd st :
  CMD_BUF_SIZE - 4 < s_cmd_offs st <= CMD_BUF_SIZE ->
  push_cmd cmd st = Fault (OutOfBounds CMD_BUF_SIZE).
Proof.
  intros H. unfold push_cmd.
  destruct (Z.ltb_spec (s_cmd_offs st) CMD_BUF_SIZE) as [H1|H1];
    [rewrite buf_push_ok by (unfold CMD_BUF_SIZE in *; lia); st_simpl
    |rewrite buf_push_fault by lia; st_simpl; f_equal; f_equal; lia].
  destruct (Z.ltb_spec (s_cmd_offs st + 1) CMD_BUF_SIZE) as [H2|H2];
    [rewrite buf_push_ok by (st_simpl; unfold CMD_BUF_SIZE in *; lia); st_simpl
    |rewrite buf_push_fault by (st_simpl; lia); st_simpl; f_equal; f_equal; lia].
  destruct (Z.ltb_spec (s_cmd_offs st + 2) CMD_BUF_SIZE) as [H3|H3];
    [rewrite buf_push_ok by (st_simpl; unfold CMD_BUF_SIZE in *; lia); st_simpl
    |rewrite buf_push_fault by (st_simpl; lia); st_simpl; f_equal; f_equal; lia].
  rewrite buf_push_fault by (st_simpl; lia). st_simpl. f_equal. f_equal. lia.
Qed.

Lemma serial_send_finalize_overflow st :
  CMD_BUF_SIZE - 8 < s_cmd_offs st <= CMD_BUF_SIZE - 4 ->
  serial_send_finalize st = Fault (OutOfBounds CMD_BUF_SIZE).
Proof.
  intros H. unfold serial_send_finalize.
  rewrite buf_set_ok by (unfold CMD_BUF_SIZE; lia). st_simpl.
  rewrite buf_set_ok by (unfold CMD_BUF_SIZE; lia). st_simpl.
  rewrite buf_set_ok by (unfold CMD_BUF_SIZE; lia). st_simpl.
  rewrite buf_set_ok by (unfold CMD_BUF_SIZE; lia). st_simpl.
  rewrite push_cmd_ok by (st_simpl; unfold CMD_BUF_SIZE in *; lia). st_simpl.
  apply push_cmd_overflow. st_simpl. lia.
Qed.

(** One call from an offset inside the buffer: what it can return. *)
Lemma exec_outcome bd fuel o st ch :
  offs_in_buffer st ->
  match exec bd fuel o (st, ch) with
  | Ok (st', ch') =>
      offs_in_buffer st' /\ (keeps_window o -> window st' = window st)
  | Fault (OutOfBounds i) => i = CMD_BUF_SIZE /\ o = OpSend
  | Fault DivByZero => is_vector o
  | Fault DivOverflow => is_vector o
  | OutOfFuel => is_vector o
  end.
Proof.
  unfold offs_in_buffer. intros Ho.
  destruct o as [oo|xa ya xb yb|red green blue|xa ya xb yb| |]; cbn [exec].
  - unfold zvgFrameOpen, serial_open. st_simpl.
    split; [unfold CMD_BUF_SIZE; lia|]. intros _. reflexivity.
  - st_simpl. split; [exact Ho|]. intros [].
  - destruct (zvgFrameSetRGB15_spec red green blue st)
      as (st1 & -> & _ & _ & _ & _ & _ & _ & _ & Hw & Ho1); [lia|].
    st_simpl. split.
    + destruct (Z.leb_spec (s_cmd_offs st) (CMD_BUF_SIZE - 8)); lia.
    + intros _. exact Hw.
  - pose proof (zvgFrameVector_outcome bd fuel xa ya xb yb st ltac:(lia)) as Hv.
    destruct (zvgFrameVector bd fuel xa ya xb yb st) as [[st1 r]|f|]; st_simpl.
    + destruct Hv as (_ & H1 & H2 & Hw & _). split; [lia|]. intros _. exact Hw.
    + destruct Hv as [-> | ->]; exact I.
    + exact I.
  - unfold zvgFrameSend.
    destruct (Z.leb_spec (s_cmd_offs st) (CMD_BUF_SIZE - 8)) as [Hr|Hr].
    + destruct (serial_send_spec ch st) as (result & -> & _); [lia|].
      st_simpl. split; [unfold CMD_BUF_SIZE; lia|]. intros _. reflexivity.
    + unfold serial_send. rewrite serial_send_finalize_overflow by lia.
      st_simpl. split; reflexivity.
  - unfold zvgFrameClose, serial_close.
    destruct (s_serial_fd st).
    + rewrite push_cmd_ok by (st_simpl; unfold CMD_BUF_SIZE; lia). st_simpl.
      unfold serial_write. st_simpl.
      split; [unfold CMD_BUF_SIZE; lia|]. intros _. reflexivity.
    + st_simpl. split; [exact Ho|]. intros _. reflexivity.
Qed.

(** ** Sequences of calls: faults, the window, the device range *)

(** X20: from a write offset inside the buffer, any sequence of calls
    either returns with the offset again inside the buffer, or stops in
    one of these ways: a store outside the buffer, which is always at
    index CMD_BUF_SIZE and only with a zvgFrameSend among the calls; a
    division by zero, a division INT_MIN / -1 or an unfinished clipping
    loop, only with a zvgFrameVector among the calls.  Colour, clip
    window, open and close calls never fault. *)
Theorem driver_faults_classified :
  forall bd fuel ops st ch,
    offs_in_buffer st ->
    match run bd fuel ops (st, ch) with
    | Ok (st', _) => offs_in_buffer st'
    | Fault (OutOfBounds i) => i = CMD_BUF_SIZE /\ In OpSend ops
    | Fault DivByZero => Exists is_vector ops
    | Fault DivOverflow => Exists is_vector ops
    | OutOfFuel => Exists is_vector ops
    end.
Proof.
  intros bd fuel ops. induction ops as [|o ops IH]; intros st ch Ho.
  - cbn [run]. exact Ho.
  - cbn [run].
    pose proof (exec_outcome bd fuel o st ch Ho) as He.
    destruct (exec bd fuel o (st, ch)) as [[st1 ch1]|[i| |]|]; st_simpl.
    + destruct He as [Ho1 _]. specialize (IH st1 ch1 Ho1).
      destruct (run bd fuel ops (st1, ch1)) as [[st2 ch2]|[i| |]|].
      * exact IH.
      * destruct IH as [Hi Hin]. split; [exact Hi|]. right. exact Hin.
      * apply Exists_cons_tl. exact IH.
      * apply Exists_cons_tl. exact IH.
      * apply Exists_cons_tl. exact IH.
    + destruct He as [Hi ->]. split; [exact Hi|]. left. reflexivity.
    + apply Exists_cons_hd. exact He.
    + apply Exists_cons_hd. exact He.
    + apply Exists_cons_hd. exact He.
Qed.

Lemma driver_faults_classified_witness :
  offs_in_buffer init_state /\
  exists st' ch',
    run scenario_bounds 5
      [OpOpen OpenOk; OpSetClipWin 0 0 1000 1000; OpSetRGB15 31 0 0; OpClose]
      (init_state, good_channel) = Ok (st', ch') /\
    offs_in_buffer st'.
Proof.
  assert (H : offs_in_buffer init_state).
  { unfold offs_in_buffer, CMD_BUF_SIZE. cbn [s_cmd_offs init_state]. lia. }
  split; [exact H|].
  pose proof (driver_faults_classified scenario_bounds 5
                [OpOpen OpenOk; OpSetClipWin 0 0 1000 1000; OpSetRGB15 31 0 0; OpClose]
                init_state good_channel H) as T.
  destruct (run scenario_bounds 5
              [OpOpen OpenOk; OpSetClipWin 0 0 1000 1000; OpSetRGB15 31 0 0; OpClose]
              (init_state, good_channel)) as [[st' ch']|[i| |]|].
  - exists st', ch'. split; [reflexivity|exact T].
  - exfalso. destruct T as [_ [Hc|[Hc|[Hc|[Hc|[]]]]]]; discriminate Hc.
  - exfalso. repeat (apply Exists_cons in T as [T|T]; [exact T|]).
    apply Exists_nil in T. exact T.
  - exfalso. repeat (apply Exists_cons in T as [T|T]; [exact T|]).
    apply Exists_nil in T. exact T.
  - exfalso. repeat (apply Exists_cons in T as [T|T]; [exact T|]).
    apply Exists_nil in T. exact T.
Defined.

(** X21: from an offset inside the buffer, zvgFrameSend returns (with 0,
    the offset back at 4) exactly when at least 8 bytes are free; with
    fewer, that is from any offset the guarded appends can still reach
    past CMD_BUF_SIZE - 8, it stores at index CMD_BUF_SIZE, one past the
    buffer. *)
Theorem send_returns_exactly_with_eight_bytes_free :
  forall ch st,
    offs_in_buffer st ->
    if s_cmd_offs st <=? CMD_BUF_SIZE - 8
    then exists st' ch', zvgFrameSend ch st = Ok (st', ch', 0) /\ s_cmd_offs st' = 4
    else zvgFrameSend ch st = Fault (OutOfBounds CMD_BUF_SIZE).
Proof.
  intros ch st Ho. unfold offs_in_buffer in Ho. unfold zvgFrameSend.
  destruct (Z.leb_spec (s_cmd_offs st) (CMD_BUF_SIZE - 8)) as [Hr|Hr].
  - destruct (serial_send_spec ch st) as (result & -> & _); [lia|].
    st_simpl. eexists. eexists. split; reflexivity.
  - unfold serial_send. rewrite serial_send_finalize_overflow by lia.
    reflexivity.
Qed.

Lemma send_returns_exactly_with_eight_bytes_free_witness :
  offs_in_buffer (set_offs (CMD_BUF_SIZE - 4) init_state) /\
  zvgFrameSend good_channel (set_offs (CMD_BUF_SIZE - 4) init_state)
  = Fault (OutOfBounds CMD_BUF_SIZE).
Proof.
  assert (H : offs_in_buffer (set_offs (CMD_BUF_SIZE - 4) init_state))
    by (vm_compute; split; discriminate).
  split; [exact H|].
  exact (send_returns_exactly_with_eight_bytes_free good_channel
           (set_offs (CMD_BUF_SIZE - 4) init_state) H).
Defined.

(** X22: the clip window is changed by zvgFrameSetClipWin alone: a
    sequence of open, colour, vector, send and close calls that returns
    leaves the four window bounds as they were; in particular the reset
    after a send and the reset in open do not touch them. *)
Theorem clip_window_changed_only_by_setclipwin :
  forall bd fuel ops st ch st' ch',
    offs_in_buffer st ->
    Forall keeps_window ops ->
    run bd fuel ops (st, ch) = Ok (st', ch') ->
    window st' = window st.
Proof.
  intros bd fuel ops. induction ops as [|o ops IH]; intros st ch st' ch' Ho Hk Hrun.
  - cbn [run] in Hrun. injection Hrun as <- _. reflexivity.
  - apply Forall_cons in Hk as [Hk1 Hk].
    cbn [run] in Hrun.
    pose proof (exec_outcome bd fuel o st ch Ho) as He.
    destruct (exec bd fuel o (st, ch)) as [[st1 ch1]|f|]; st_simpl;
      try discriminate Hrun.
    destruct He as [Ho1 Hw].
    rewrite (IH st1 ch1 st' ch' Ho1 Hk Hrun). apply Hw. exact Hk1.
Qed.

Lemma clip_window_changed_only_by_setclipwin_witness :
  offs_in_buffer scenario_window /\
  exists st' ch',
    run scenario_bounds 5 [OpOpen OpenOk; OpSetRGB15 31 0 0]
      (scenario_window, good_channel) = Ok (st', ch') /\
    window st' = window scenario_window.
Proof.
  assert (Ho : offs_in_buffer scenario_window).
  { unfold offs_in_buffer, CMD_BUF_SIZE. cbn. lia. }
  assert (Hk : Forall keeps_window [OpOpen OpenOk; OpSetRGB15 31 0 0])
    by (repeat constructor).
  split; [exact Ho|].
  destruct (zvgFrameSetRGB15_spec 31 0 0 (fst (zvgFrameOpen OpenOk scenario_window)))
    as (st1 & Hst1 & _).
  { unfold zvgFrameOpen, serial_open. st_simpl. lia. }
  assert (Hrun : run scenario_bounds 5 [OpOpen OpenOk; OpSetRGB15 31 0 0]
                   (scenario_window, good_channel) = Ok (st1, good_channel)).
  { cbn [run exec]. st_simpl. cbn [exec]. rewrite Hst1. reflexivity. }
  exists st1, good_channel. split; [exact Hrun|].
  exact (clip_window_changed_only_by_setclipwin scenario_bounds 5 _ scenario_window
           good_channel st1 good_channel Ho Hk Hrun).
Defined.

Lemma line_clip_accept_inside fuel st x1 y1 x2 y2 accept a b c d :
  line_clip fuel st x1 y1 x2 y2 = Ok (accept, (a, b, c, d)) ->
  accept = 0 \/ (inside st a b /\ inside st c d).
Proof.
  intros Hrun. unfold line_clip in Hrun.
  destruct (line_clip_loop fuel st _) as [[acc v']| |] eqn:Hloop; st_simpl;
    try discriminate Hrun.
  injection Hrun as -> <- <- <- <-.
  apply line_clip_loop_result in Hloop; [|apply line_clip_initial_consistent].
  destruct Hloop as ([Hc1 Hc2] & [(-> & H1 & H2)|(-> & Hs)]); [right|left; reflexivity].
  rewrite Hc1 in H1. rewrite Hc2 in H2.
  split; apply compute_code_zero_inside; assumption.
Qed.

(** X23: with the clip window inside logical bounds that are in order
    and at most 524287 apart, a zvgFrameVector call that returns either
    changed nothing at all (the segment was rejected) or left a last
    point with both coordinates in the device range 0..4095: inside such
    a window the end point, which the code does not clamp, needs no
    clamping. *)
Theorem vector_in_bounded_window_lands_in_device_range :
  forall bd fuel a b c d st st' r,
    0 < X_MAX bd - X_MIN bd <= 524287 ->
    0 < Y_MAX bd - Y_MIN bd <= 524287 ->
    X_MIN bd <= s_xmin st -> s_xmax st <= X_MAX bd ->
    Y_MIN bd <= s_ymin st -> s_ymax st <= Y_MAX bd ->
    0 <= s_cmd_offs st ->
    zvgFrameVector bd fuel a b c d st = Ok (st', r) ->
    st' = st \/
    (DVG_RES_MIN <= s_last_x st' <= DVG_RES_MAX /\
     DVG_RES_MIN <= s_last_y st' <= DVG_RES_MAX).
Proof.
  intros bd fuel a b c d st st' r Hwx Hwy Hx1 Hx2 Hy1 Hy2 Ho Hrun.
  destruct (line_clip fuel st a b c d) as [[acc [[[x1 y1] x2] y2]]| |] eqn:Hclip;
    [|unfold zvgFrameVector in Hrun; rewrite Hclip in Hrun; discriminate Hrun ..].
  destruct (Z.eq_dec acc 0) as [->|Hacc].
  { left. unfold zvgFrameVector in Hrun. rewrite Hclip in Hrun. st_simpl.
    cbn [Z.eqb negb] in Hrun. injection Hrun as <- _. reflexivity. }
  right.
  destruct (line_clip_accept_inside _ _ _ _ _ _ _ _ _ _ _ Hclip)
    as [|[[Ha Hb] [Hc Hd]]]; [contradiction|].
  assert (Hxs : CONVX bd x1 = Ok ((x1 - X_MIN bd) * 4095 / (X_MAX bd - X_MIN bd)))
    by (apply conv_exact; lia).
  assert (Hys : CONVY bd y1 = Ok ((y1 - Y_MIN bd) * 4095 / (Y_MAX bd - Y_MIN bd)))
    by (apply conv_exact; lia).
  assert (Hxe : CONVX bd x2 = Ok ((x2 - X_MIN bd) * 4095 / (X_MAX bd - X_MIN bd)))
    by (apply conv_exact; lia).
  assert (Hye : CONVY bd y2 = Ok ((y2 - Y_MIN bd) * 4095 / (Y_MAX bd - Y_MIN bd)))
    by (apply conv_exact; lia).
  destruct (zvgFrameVector_accept bd fuel a b c d st acc x1 y1 x2 y2 _ _ _ _
              Ho Hclip Hacc Hxs Hys Hxe Hye) as (st2 & Hrun2 & Hlx & Hly & _).
  rewrite Hrun2 in Hrun. injection Hrun as <- _.
  rewrite Hlx, Hly. unfold DVG_RES_MIN, DVG_RES_MAX.
  pose proof (conv_range (X_MIN bd) (X_MAX bd) x2 x2 Hwx ltac:(lia) ltac:(lia) ltac:(lia)).
  pose proof (conv_range (Y_MIN bd) (Y_MAX bd) y2 y2 Hwy ltac:(lia) ltac:(lia) ltac:(lia)).
  lia.
Qed.

Lemma vector_in_bounded_window_lands_in_device_range_witness :
  exists st',
    zvgFrameVector scenario_bounds 5 (-100) 500 2000 1500 scenario_window = Ok (st', 0) /\
    (st' = scenario_window \/
     (DVG_RES_MIN <= s_last_x st' <= DVG_RES_MAX /\
      DVG_RES_MIN <= s_last_y st' <= DVG_RES_MAX)).
Proof.
  assert (Hclip : line_clip 5 scenario_window (-100) 500 2000 1500
                  = Ok (1, (0, 547, 950, 1000))) by (vm_compute; reflexivity).
  assert (Ho : 0 <= s_cmd_offs scenario_window) by (vm_compute; discriminate).
  assert (Hacc : 1 <> 0) by discriminate.
  assert (Hxs : CONVX scenario_bounds 0 = Ok 0) by (vm_compute; reflexivity).
  assert (Hys : CONVY scenario_bounds 547 = Ok 2239) by (vm_compute; reflexivity).
  assert (Hxe : CONVX scenario_bounds 950 = Ok 3890) by (vm_compute; reflexivity).
  assert (Hye : CONVY scenario_bounds 1000 = Ok 4095) by (vm_compute; reflexivity).
  destruct (zvgFrameVector_accept scenario_bounds 5 (-100) 500 2000 1500
              scenario_window 1 0 547 950 1000 0 2239 3890 4095
              Ho Hclip Hacc Hxs Hys Hxe Hye)
    as (st' & Hrun & _).
  exists st'. split; [exact Hrun|].
  apply (vector_in_bounded_window_lands_in_device_range scenario_bounds 5
           (-100) 500 2000 1500 scenario_window st' 0);
    try exact Hrun; vm_compute; intuition discriminate.
Defined.
